(** * YT-Downloader: stream selection, bounded TTL cache, merge pipeline

    A shallow embedding of the backend's core services
    ([services/smart_selection.py], [utils/cache.py],
    [services/ffmpeg_service.py], [services/youtube_service.py] and the
    merge branch of [main.py]'s [smart_download]) together with the
    properties the design document states about them.

    Conventions of the embedding.
    - Python [int] is [Z]; [str] is an ASCII [string]; an attribute that
      may be missing or [None] is an [option]. [int(text)] refuses more
      than 4300 digits (CPython's default limit).
    - Python [float] quantities (sizes in megabytes, the product by
      [1.5], the hit rate) are binary64 values, [Float.float]: a finite
      value is a mantissa and a binary exponent, and every operation
      rounds to nearest, ties to even, as the hardware does; conversions
      that CPython refuses with [OverflowError] are [None].
    - Clock readings ([time.time()]) are passed to the cache operations as
      an explicit argument [now : Z] (ticks of the clock).
    - A [dict] whose iteration order matters (the cache store) is an
      association list in insertion order; constant tables are [gmap]s.
    - The filesystem and the trace of external effects are an explicit
      [World] threaded through the service functions; raised exceptions are
      the [inl] of a sum. *)

From Stdlib Require Import ZArith String Ascii List Lia Bool.
From stdpp Require Import base gmap sets list strings pretty sorting.

Local Open Scope Z_scope.

(* ====================================================================== *)
(** ** Python built-ins used by the services *)
(* ====================================================================== *)

Module Py.

(** [d.get(k, default)] on a constant table. *)
Definition dict_get `{Countable K} {V} (d : gmap K V) (k : K) (dflt : V) : V :=
  default dflt (d !! k).

(** Truthiness of an optional string attribute: [None] and [''] are falsy. *)
Definition truthy_str (s : option string) : bool :=
  match s with
  | None => false
  | Some EmptyString => false
  | Some _ => true
  end.

(** Truthiness of an optional integer attribute: [None] and [0] are falsy. *)
Definition truthy_int (n : option Z) : bool :=
  match n with
  | None => false
  | Some 0 => false
  | Some _ => true
  end.

(** [\d] on ASCII text. Beyond ASCII, [re] and [int] consult the
    Unicode database, which is outside the embedding: what is stated of
    the digits read is stated of ASCII text. *)
Definition is_digit (c : ascii) : bool :=
  let n := Z.of_nat (nat_of_ascii c) in (48 <=? n) && (n <=? 57).

Definition digit_value (c : ascii) : Z := Z.of_nat (nat_of_ascii c) - 48.

(** The longest prefix of digits: what [(\d+)] consumes once it has found
    its first digit. *)
Fixpoint take_digits (s : string) : string :=
  match s with
  | EmptyString => EmptyString
  | String c rest => if is_digit c then String c (take_digits rest) else EmptyString
  end.

(** [re.search(r'(\d+)', s)]: the leftmost maximal run of digits,
    [None] when the text holds no digit. *)
Fixpoint re_search_digits (s : string) : option string :=
  match s with
  | EmptyString => None
  | String c rest => if is_digit c then Some (take_digits s) else re_search_digits rest
  end.

(** The value of a text made of digits, most significant first. *)
Fixpoint int_of_digits (acc : Z) (s : string) : Z :=
  match s with
  | EmptyString => acc
  | String c rest => int_of_digits (10 * acc + digit_value c) rest
  end.

(** [int(text)] for a text made of digits, when it does not raise. *)
Definition int (s : string) : Z := int_of_digits 0 s.

(** [sys.int_info.default_max_str_digits]: [int(text)] raises
    [ValueError] on a text of more digits, leading zeros included. *)
Definition max_str_digits : nat := 4300.

Definition int_raises (digits : string) : bool :=
  (max_str_digits <? String.length digits)%nat.

(** [str.lower()] on ASCII text. *)
Definition lower_char (c : ascii) : ascii :=
  let n := nat_of_ascii c in
  if ((65 <=? n) && (n <=? 90))%nat then ascii_of_nat (n + 32) else c.

Fixpoint lower (s : string) : string :=
  match s with
  | EmptyString => EmptyString
  | String c rest => String (lower_char c) (lower rest)
  end.

(** [needle in hay] for strings: substring test. *)
Fixpoint contains (needle hay : string) : bool :=
  String.prefix needle hay ||
  match hay with
  | EmptyString => false
  | String _ rest => contains needle rest
  end.

(** How an f-string renders an optional string attribute. *)
Definition fmt (s : option string) : string :=
  match s with
  | Some t => t
  | None => "None"
  end.

(** [a or b] on an optional string. *)
Definition or_else (s : option string) (dflt : string) : string :=
  if truthy_str s then fmt s else dflt.

(** [str(n)] for an integer. *)
Definition str (n : Z) : string := pretty n.

End Py.

(* ====================================================================== *)
(** ** Python floats *)
(* ====================================================================== *)

Module Float.

(** A binary64 value. [Finite m e] is the number [m * 2^e]; the same
    number has several such forms ([Finite 2 0] and [Finite 1 1]), so
    floats are compared by value, with the functions below, and the two
    zeros are not told apart. *)
Inductive float :=
| Finite (m e : Z)
| Infinity (negative : bool)
| NaN.

Definition zero : float := Finite 0 0.

(** The binary64 value nearest to [m * 2^e], ties going to the even
    mantissa: 53 significant bits, the least exponent -1074, and an
    infinity once the rounded value reaches [2^1024]. *)
Definition round (m e : Z) : float :=
  let a := Z.abs m in
  let shift := Z.max (Z.log2 a + 1 - 53) (-1074 - e) in
  let '(a, e) :=
    if shift <=? 0 then (a, e)
    else
      let q := a / 2 ^ shift in
      let r := a mod 2 ^ shift in
      let half := 2 ^ (shift - 1) in
      (if (r >? half) || ((r =? half) && Z.odd q) then q + 1 else q, e + shift) in
  if a =? 0 then zero
  else if Z.log2 a + 1 + e >? 1024 then Infinity (m <? 0)
  else Finite (Z.sgn m * a) e.

(** [float(n)] as the implicit conversion of an [int] operand does it:
    [None] is [OverflowError: int too large to convert to float]. *)
Definition of_int (n : Z) : option float :=
  match round n 0 with
  | Infinity _ => None
  | x => Some x
  end.

(** [x * y] on floats; an overflow gives an infinity, not an exception. *)
Definition mul (x y : float) : float :=
  match x, y with
  | Finite m1 e1, Finite m2 e2 => round (m1 * m2) (e1 + e2)
  | NaN, _ | _, NaN => NaN
  | Infinity s, Finite m _ | Finite m _, Infinity s =>
      if m =? 0 then NaN else Infinity (xorb s (m <? 0))
  | Infinity s1, Infinity s2 => Infinity (xorb s1 s2)
  end.

(** [x + y] on floats. *)
Definition add (x y : float) : float :=
  match x, y with
  | Finite m1 e1, Finite m2 e2 =>
      let e := Z.min e1 e2 in
      round (m1 * 2 ^ (e1 - e) + m2 * 2 ^ (e2 - e)) e
  | NaN, _ | _, NaN => NaN
  | Infinity s1, Infinity s2 => if Bool.eqb s1 s2 then Infinity s1 else NaN
  | Infinity s, Finite _ _ | Finite _ _, Infinity s => Infinity s
  end.

(** [n > x] and [n < x] for an [int] [n] and a float [x]: CPython
    compares the two exactly, without converting [n]. *)
Definition int_gt (n : Z) (x : float) : bool :=
  match x with
  | Finite m e => if 0 <=? e then n >? m * 2 ^ e else n * 2 ^ (- e) >? m
  | Infinity negative => negative
  | NaN => false
  end.

Definition int_lt (n : Z) (x : float) : bool :=
  match x with
  | Finite m e => if 0 <=? e then n <? m * 2 ^ e else n * 2 ^ (- e) <? m
  | Infinity negative => negb negative
  | NaN => false
  end.

(** [a / b] on two [int]s: the correctly rounded quotient. [None] is an
    exception, [ZeroDivisionError] or [OverflowError: integer division
    result too large for a float]. The quotient is taken with at least
    56 bits and a sticky last bit, so that one rounding gives the result. *)
Definition truediv (a b : Z) : option float :=
  if b =? 0 then None
  else
    let n := Z.abs a in
    let d := Z.abs b in
    let k := Z.max 0 (Z.log2 d + 56 - Z.log2 n) in
    let q := n * 2 ^ k / d in
    let r := (n * 2 ^ k) mod d in
    let m := 2 * q + (if r =? 0 then 0 else 1) in
    match round (Z.sgn a * Z.sgn b * m) (- k - 1) with
    | Infinity _ => None
    | x => Some x
    end.

(** The literal [1.5]. *)
Definition one_and_a_half : float := Finite 3 (-1).

End Float.

(* ====================================================================== *)
(** ** app/config.py *)
(* ====================================================================== *)

Module QualityScores.

Definition VIDEO_SCORES : gmap Z Z :=
  list_to_map [(2160, 1000); (1440, 800); (1080, 600); (720, 400); (480, 200)].

Definition AUDIO_SCORES : gmap Z Z :=
  list_to_map [(320, 300); (256, 250); (192, 200); (128, 150); (96, 100)].

Definition VIDEO_CODEC_BONUS : gmap string Z :=
  list_to_map [("av01"%string, 30); ("vp9"%string, 20); ("h264"%string, 10)].

Definition AUDIO_CODEC_BONUS : gmap string Z :=
  list_to_map [("opus"%string, 25); ("aac"%string, 20); ("mp3"%string, 10)].

Definition FPS_BONUS : gmap Z Z :=
  list_to_map [(60, 50); (30, 25)].

End QualityScores.

Module Settings.
Definition CACHE_TTL : Z := 300.
Definition CACHE_MAX_SIZE : Z := 1000.
Definition MAX_CONCURRENT_DOWNLOADS : Z := 2.
Definition MAX_FILENAME_LENGTH : nat := 50.
Definition TEMP_DIR_PREFIX : string := "ytdl_merge_".
End Settings.

(* ====================================================================== *)
(** ** services/smart_selection.py *)
(* ====================================================================== *)

Module SmartSelection.
Import Py.

(** The attributes of a pytubefix stream that the services read. *)
Record Stream := {
  itag : Z;
  resolution : option string;
  fps : option Z;
  video_codec : option string;
  abr : option string;
  audio_codec : option string;
  filesize : option Z;
  subtype : string
}.

Inductive StreamType := progressive | video | audio.

Record StreamAnalysis := {
  stream : Stream;
  stream_type : StreamType;
  quality_score : Z;
  size_mb : Float.float;
  sa_itag : string
}.

(** [StreamAnalysis.__init__] *)
Definition mkStreamAnalysis (s : Stream) (ty : StreamType) (score : Z)
    (size : Float.float)
  : StreamAnalysis :=
  {| stream := s; stream_type := ty; quality_score := score; size_mb := size;
     sa_itag := str (itag s) |}.

Definition extract_resolution_number (resolution_str : option string) : Z :=
  if negb (truthy_str resolution_str) then 0
  else match re_search_digits (fmt resolution_str) with
       | Some digits => int digits
       | None => 0
       end.

Definition extract_audio_bitrate (abr_str : option string) : Z :=
  if negb (truthy_str abr_str) then 0
  else match re_search_digits (fmt abr_str) with
       | Some digits => int digits
       | None => 0
       end.

(** The three additive parts of [calculate_video_quality_score]. *)
Definition resolution_score (s : Stream) : Z :=
  if truthy_str (resolution s) then
    let res_num := extract_resolution_number (resolution s) in
    if res_num >=? 2160 then dict_get QualityScores.VIDEO_SCORES 2160 1000
    else if res_num >=? 1440 then dict_get QualityScores.VIDEO_SCORES 1440 800
    else if res_num >=? 1080 then dict_get QualityScores.VIDEO_SCORES 1080 600
    else if res_num >=? 720 then dict_get QualityScores.VIDEO_SCORES 720 400
    else if res_num >=? 480 then dict_get QualityScores.VIDEO_SCORES 480 200
    else res_num / 10
  else 0.

Definition fps_bonus (s : Stream) : Z :=
  if truthy_int (fps s) then
    let f := default 0 (fps s) in
    if f >=? 60 then dict_get QualityScores.FPS_BONUS 60 50
    else if f >=? 30 then dict_get QualityScores.FPS_BONUS 30 25
    else 0
  else 0.

Definition video_codec_bonus (s : Stream) : Z :=
  if truthy_str (video_codec s) then
    let codec := lower (fmt (video_codec s)) in
    if contains "av01" codec then dict_get QualityScores.VIDEO_CODEC_BONUS "av01"%string 30
    else if contains "vp9" codec then dict_get QualityScores.VIDEO_CODEC_BONUS "vp9"%string 20
    else if contains "h264" codec then dict_get QualityScores.VIDEO_CODEC_BONUS "h264"%string 10
    else 0
  else 0.

Definition calculate_video_quality_score (s : Stream) : Z :=
  let score := 0 in
  let score := score + resolution_score s in
  let score := score + fps_bonus s in
  let score := score + video_codec_bonus s in
  score.

Definition bitrate_score (s : Stream) : Z :=
  if truthy_str (abr s) then
    let bitrate := extract_audio_bitrate (abr s) in
    if bitrate >=? 320 then dict_get QualityScores.AUDIO_SCORES 320 300
    else if bitrate >=? 256 then dict_get QualityScores.AUDIO_SCORES 256 250
    else if bitrate >=? 192 then dict_get QualityScores.AUDIO_SCORES 192 200
    else if bitrate >=? 128 then dict_get QualityScores.AUDIO_SCORES 128 150
    else if bitrate >=? 96 then dict_get QualityScores.AUDIO_SCORES 96 100
    else bitrate
  else 0.

Definition audio_codec_bonus (s : Stream) : Z :=
  if truthy_str (audio_codec s) then
    let codec := lower (fmt (audio_codec s)) in
    if contains "opus" codec then dict_get QualityScores.AUDIO_CODEC_BONUS "opus"%string 25
    else if contains "aac" codec then dict_get QualityScores.AUDIO_CODEC_BONUS "aac"%string 20
    else if contains "mp3" codec then dict_get QualityScores.AUDIO_CODEC_BONUS "mp3"%string 10
    else 0
  else 0.

Definition calculate_audio_quality_score (s : Stream) : Z :=
  let score := 0 in
  let score := score + bitrate_score s in
  let score := score + audio_codec_bonus s in
  score.

(** [get_file_size_mb]. A size so large that the division raises
    [OverflowError] (2^1044 bytes and more) makes the examination of the
    stream fail inside [analyze_streams] (see [Enumeration] below); the
    infinity stands for that case here. *)
Definition get_file_size_mb (s : Stream) : Float.float :=
  if truthy_int (filesize s) then
    default (Float.Infinity false)
            (Float.truediv (default 0 (filesize s)) (1024 * 1024))
  else Float.zero.

(** Whether [extract_resolution_number] raises on a text: [int] refuses
    a run of more than 4300 digits with [ValueError]. *)
Definition extraction_raises (resolution_str : option string) : bool :=
  truthy_str resolution_str
  && match re_search_digits (fmt resolution_str) with
     | Some digits => int_raises digits
     | None => false
     end.

(** What iterating one of the three stream queries of a [YouTube] object
    produces: the next stream, the end of the query, or an exception
    raised while the next stream is fetched or examined (the source being
    unreachable or malformed). *)
Inductive Enumeration :=
| EnumEnd
| EnumRaise
| EnumNext (s : Stream) (rest : Enumeration).

Record YouTube := {
  (** [yt.streams.filter(progressive=True)] *)
  streams_progressive : Enumeration;
  (** [yt.streams.filter(adaptive=True, only_video=True)] *)
  streams_only_video : Enumeration;
  (** [yt.streams.filter(only_audio=True)] *)
  streams_only_audio : Enumeration
}.

(** One [for stream in ...: if keep: acc.append(analysis)] loop. The flag
    is [false] when the loop was left by an exception; the list holds what
    had been appended by then. *)
Fixpoint collect (keep : Stream -> bool) (analyse : Stream -> StreamAnalysis)
    (e : Enumeration) (acc : list StreamAnalysis) : list StreamAnalysis * bool :=
  match e with
  | EnumEnd => (acc, true)
  | EnumRaise => (acc, false)
  | EnumNext s rest =>
      collect keep analyse rest (if keep s then acc ++ [analyse s] else acc)
  end.

(** [l.sort(key=lambda x: x.quality_score, reverse=True)]: a stable sort,
    highest score first, equal scores in their original order. *)
Fixpoint insert_by_score (x : StreamAnalysis) (l : list StreamAnalysis)
  : list StreamAnalysis :=
  match l with
  | [] => [x]
  | y :: rest =>
      if quality_score y >? quality_score x then y :: insert_by_score x rest
      else x :: y :: rest
  end.

Definition sort_by_score (l : list StreamAnalysis) : list StreamAnalysis :=
  foldr insert_by_score [] l.

Definition analyse_progressive (s : Stream) : StreamAnalysis :=
  mkStreamAnalysis s progressive (calculate_video_quality_score s) (get_file_size_mb s).

Definition analyse_video (s : Stream) : StreamAnalysis :=
  mkStreamAnalysis s video (calculate_video_quality_score s) (get_file_size_mb s).

Definition analyse_audio (s : Stream) : StreamAnalysis :=
  mkStreamAnalysis s audio (calculate_audio_quality_score s) (get_file_size_mb s).

Definition has_resolution (s : Stream) : bool := truthy_str (resolution s).

(** The three lists start empty outside the [try]; an exception anywhere
    inside it is logged and the lists are returned as they stand. *)
Definition analyze_streams (yt : YouTube)
  : list StreamAnalysis * list StreamAnalysis * list StreamAnalysis :=
  let '(progressive_streams, ok) :=
    collect has_resolution analyse_progressive (streams_progressive yt) [] in
  if negb ok then (progressive_streams, [], []) else
  let '(video_streams, ok) :=
    collect has_resolution analyse_video (streams_only_video yt) [] in
  if negb ok then (progressive_streams, video_streams, []) else
  let '(audio_streams, ok) :=
    collect (fun _ => true) analyse_audio (streams_only_audio yt) [] in
  if negb ok then (progressive_streams, video_streams, audio_streams) else
  (sort_by_score progressive_streams,
   sort_by_score video_streams,
   sort_by_score audio_streams).

(** The dictionary returned by [smart_select_best_option]. *)
Record SmartOption := {
  type : string;
  video_stream : Stream;
  audio_stream : option Stream;
  video_itag : string;
  audio_itag : option string;
  estimated_size_mb : Float.float;
  quality_description : string;
  merge_required : bool
}.

(** What can be raised inside the [try] of [smart_select_best_option]
    once the streams have been analysed. *)
Inductive Raised :=
| ValueError
| OverflowError.

(** [extract_resolution_number(analysis.stream.resolution)] as a call
    that may raise. *)
Definition resolution_of (analysis : StreamAnalysis) : Raised + Z :=
  if extraction_raises (resolution (stream analysis)) then inl ValueError
  else inr (extract_resolution_number (resolution (stream analysis))).

(** The body of the [try] of [smart_select_best_option], on the three
    lists that [analyze_streams] hands it: what it returns, or what it
    raises. *)
Definition select_best_option_try
    (progressive_streams video_streams audio_streams : list StreamAnalysis)
    (prefer_progressive : bool) : Raised + option SmartOption :=
  (* Option 1: best video + audio combination *)
  let option_1 : Raised + option SmartOption :=
    match video_streams, audio_streams with
    | best_video :: _, best_audio :: _ =>
        let combined_size := Float.add (size_mb best_video) (size_mb best_audio) in
        match (match progressive_streams with
               | p :: _ => resolution_of p
               | [] => inr 0
               end) with
        | inl e => inl e
        | inr best_progressive_quality =>
        match resolution_of best_video with
        | inl e => inl e
        | inr best_video_quality =>
        (* [best_progressive_quality * 1.5] converts the [int] first *)
        match Float.of_int best_progressive_quality with
        | None => inl OverflowError
        | Some as_float =>
        if Float.int_gt best_video_quality (Float.mul as_float Float.one_and_a_half)
           || (best_progressive_quality <? 720)
        then inr (Some {| type := "merge";
                          video_stream := stream best_video;
                          audio_stream := Some (stream best_audio);
                          video_itag := sa_itag best_video;
                          audio_itag := Some (sa_itag best_audio);
                          estimated_size_mb := combined_size;
                          quality_description :=
                            fmt (resolution (stream best_video)) +:+ " + " +:+
                            or_else (abr (stream best_audio)) "High Quality Audio";
                          merge_required := true |})
        else inr None
        end
        end
        end
    | _, _ => inr None
    end in
  match option_1 with
  | inl e => inl e
  | inr (Some plan) => inr (Some plan)
  | inr None =>
  (* Option 2: progressive only if preferred and at least 720p *)
  let option_2 : Raised + option SmartOption :=
    match prefer_progressive, progressive_streams with
    | true, best_progressive :: _ =>
        match resolution_of best_progressive with
        | inl e => inl e
        | inr progressive_quality =>
        if progressive_quality >=? 720
        then inr (Some {| type := "progressive";
                          video_stream := stream best_progressive;
                          audio_stream := None;
                          video_itag := sa_itag best_progressive;
                          audio_itag := None;
                          estimated_size_mb := size_mb best_progressive;
                          quality_description :=
                            fmt (resolution (stream best_progressive)) +:+
                            " (Progressive)";
                          merge_required := false |})
        else inr None
        end
    | _, _ => inr None
    end in
  match option_2 with
  | inl e => inl e
  | inr (Some plan) => inr (Some plan)
  | inr None =>
  (* Option 3: fall back to the best merge option *)
  match video_streams, audio_streams with
  | best_video :: _, best_audio :: _ =>
      let combined_size := Float.add (size_mb best_video) (size_mb best_audio) in
      inr (Some {| type := "merge";
                   video_stream := stream best_video;
                   audio_stream := Some (stream best_audio);
                   video_itag := sa_itag best_video;
                   audio_itag := Some (sa_itag best_audio);
                   estimated_size_mb := combined_size;
                   quality_description :=
                     fmt (resolution (stream best_video)) +:+ " + " +:+
                     or_else (abr (stream best_audio)) "Audio";
                   merge_required := true |})
  | _, _ =>
  (* Option 4: last resort, any progressive stream *)
  match progressive_streams with
  | best_progressive :: _ =>
      inr (Some {| type := "progressive";
                   video_stream := stream best_progressive;
                   audio_stream := None;
                   video_itag := sa_itag best_progressive;
                   audio_itag := None;
                   estimated_size_mb := size_mb best_progressive;
                   quality_description :=
                     fmt (resolution (stream best_progressive)) +:+
                     " (Progressive - Fallback)";
                   merge_required := false |})
  | [] => inr None
  end
  end
  end
  end.

(** The decision policy of [smart_select_best_option] with its handler:
    [except Exception] logs the error and returns [None]. *)
Definition select_best_option
    (progressive_streams video_streams audio_streams : list StreamAnalysis)
    (prefer_progressive : bool) : option SmartOption :=
  match select_best_option_try progressive_streams video_streams audio_streams
                               prefer_progressive with
  | inl _ => None
  | inr result => result
  end.

(** [analyze_streams] handles its own exceptions, so the [try] of
    [smart_select_best_option] only ever catches what the decision
    raises. *)
Definition smart_select_best_option (yt : YouTube) (prefer_progressive : bool)
  : option SmartOption :=
  let '(progressive_streams, video_streams, audio_streams) := analyze_streams yt in
  select_best_option progressive_streams video_streams audio_streams prefer_progressive.

End SmartSelection.

(* ====================================================================== *)
(** ** utils/cache.py *)
(* ====================================================================== *)

Module Cache.

Record Stats := {
  hits : Z;
  misses : Z;
  stores : Z;
  cleanups : Z;
  evictions : Z
}.

Definition incr_hits (s : Stats) : Stats :=
  {| hits := hits s + 1; misses := misses s; stores := stores s;
     cleanups := cleanups s; evictions := evictions s |}.
Definition incr_misses (s : Stats) : Stats :=
  {| hits := hits s; misses := misses s + 1; stores := stores s;
     cleanups := cleanups s; evictions := evictions s |}.
Definition incr_stores (s : Stats) : Stats :=
  {| hits := hits s; misses := misses s; stores := stores s + 1;
     cleanups := cleanups s; evictions := evictions s |}.
Definition incr_cleanups (s : Stats) : Stats :=
  {| hits := hits s; misses := misses s; stores := stores s;
     cleanups := cleanups s + 1; evictions := evictions s |}.
Definition incr_evictions (s : Stats) : Stats :=
  {| hits := hits s; misses := misses s; stores := stores s;
     cleanups := cleanups s; evictions := evictions s + 1 |}.

Section WithValue.
Context {V : Type}.

(** One value of [self._cache]: [{'timestamp': ..., 'data': ...}]. *)
Record CacheEntry := {
  timestamp : Z;
  data : V
}.

(** The [dict] behind the cache, in Python's iteration order: a key
    keeps its position when its value is replaced, a new key goes last. *)
Definition Store := list (string * CacheEntry).

Fixpoint dict_lookup (d : Store) (key : string) : option CacheEntry :=
  match d with
  | [] => None
  | (k, e) :: rest => if String.eqb k key then Some e else dict_lookup rest key
  end.

Definition dict_contains (d : Store) (key : string) : bool :=
  match dict_lookup d key with Some _ => true | None => false end.

(** [d[key] = e] *)
Fixpoint dict_store (d : Store) (key : string) (e : CacheEntry) : Store :=
  match d with
  | [] => [(key, e)]
  | (k, e') :: rest =>
      if String.eqb k key then (k, e) :: rest
      else (k, e') :: dict_store rest key e
  end.

(** [del d[key]]: a dictionary holds a key at most once, so this drops the
    one item stored under [key]. *)
Definition dict_del (d : Store) (key : string) : Store :=
  List.filter (fun kv => negb (String.eqb kv.1 key)) d.

Definition dict_keys (d : Store) : list string := map fst d.

(** [min(d.keys(), key=lambda k: d[k]['timestamp'])] continued from a
    current best: a later key wins only with a strictly smaller
    timestamp. *)
Fixpoint min_from (best : string * CacheEntry) (rest : Store) : string :=
  match rest with
  | [] => fst best
  | x :: rest' =>
      if timestamp (snd x) <? timestamp (snd best) then min_from x rest'
      else min_from best rest'
  end.

Record CacheManager := {
  ttl : Z;
  max_size : Z;
  _cache : Store;
  _stats : Stats
}.

(** [CacheManager.__init__] *)
Definition init (ttl max_size : Z) : CacheManager :=
  {| ttl := ttl; max_size := max_size; _cache := [];
     _stats := {| hits := 0; misses := 0; stores := 0; cleanups := 0;
                  evictions := 0 |} |}.

Definition with_cache (c : CacheManager) (d : Store) : CacheManager :=
  {| ttl := ttl c; max_size := max_size c; _cache := d; _stats := _stats c |}.

Definition with_stats (c : CacheManager) (s : Stats) : CacheManager :=
  {| ttl := ttl c; max_size := max_size c; _cache := _cache c; _stats := s |}.

(** [get]; [now] is the reading of [time.time()] in the validity test. *)
Definition get (now : Z) (key : string) (c : CacheManager)
  : CacheManager * option V :=
  match dict_lookup (_cache c) key with
  | Some cache_entry =>
      if now - timestamp cache_entry <? ttl c then
        (with_stats c (incr_hits (_stats c)), Some (data cache_entry))
      else
        let c := with_cache c (dict_del (_cache c) key) in
        (with_stats c (incr_misses (_stats c)), None)
  | None =>
      (with_stats c (incr_misses (_stats c)), None)
  end.

Definition _evict_oldest (c : CacheManager) : CacheManager :=
  match _cache c with
  | [] => c
  | first :: rest =>
      let oldest_key := min_from first rest in
      let c := with_cache c (dict_del (_cache c) oldest_key) in
      with_stats c (incr_evictions (_stats c))
  end.

(** [set]; [now] is the reading of [time.time()] stored in the entry. *)
Definition set (now : Z) (key : string) (v : V) (c : CacheManager)
  : CacheManager :=
  let c :=
    if Z.of_nat (length (_cache c)) >=? max_size c then _evict_oldest c else c in
  let c :=
    with_cache c (dict_store (_cache c) key {| timestamp := now; data := v |}) in
  with_stats c (incr_stores (_stats c)).

Definition delete (key : string) (c : CacheManager) : CacheManager * bool :=
  if dict_contains (_cache c) key
  then (with_cache c (dict_del (_cache c) key), true)
  else (c, false).

Definition clear (c : CacheManager) : CacheManager := with_cache c [].

Definition is_expired (current_time ttl : Z) (kv : string * CacheEntry) : bool :=
  current_time - timestamp (snd kv) >? ttl.

(** [cleanup_expired]; [current_time] is its one reading of the clock. *)
Definition cleanup_expired (current_time : Z) (c : CacheManager)
  : CacheManager * Z :=
  let expired_keys :=
    dict_keys (List.filter (is_expired current_time (ttl c)) (_cache c)) in
  let c := with_cache c (fold_left dict_del expired_keys (_cache c)) in
  let c :=
    match expired_keys with
    | [] => c
    | _ :: _ => with_stats c (incr_cleanups (_stats c))
    end in
  (c, Z.of_nat (length expired_keys)).

(** The ['size'] entry of [get_stats]. *)
Definition size (c : CacheManager) : Z := Z.of_nat (length (_cache c)).

(** A call [set(key, v)] made when the clock reads [now]. *)
Definition SetCall : Type := Z * string * V.
Definition call_time (op : SetCall) : Z := op.1.1.
Definition call_key (op : SetCall) : string := op.1.2.
Definition call_value (op : SetCall) : V := op.2.

(** The entry such a call stores. *)
Definition call_entry (op : SetCall) : CacheEntry :=
  {| timestamp := call_time op; data := call_value op |}.

(** The item such a call adds to the dictionary. *)
Definition call_item (op : SetCall) : string * CacheEntry :=
  (call_key op, call_entry op).

(** A run of [set] calls in order. *)
Definition set_all (ops : list SetCall) (c : CacheManager) : CacheManager :=
  fold_left (fun c op => set (call_time op) (call_key op) (call_value op) c) ops c.

End WithValue.

Arguments CacheEntry : clear implicits.
Arguments Store : clear implicits.
Arguments CacheManager : clear implicits.
Arguments SetCall : clear implicits.

End Cache.

(* ====================================================================== *)
(** ** The operating system as the services see it *)
(* ====================================================================== *)

Module OS.
Import SmartSelection.

(** External effects worth observing afterwards. *)
Inductive Event :=
| EvMergeCalled (video_path audio_path output_path : string)
| EvSpawn (cmd : list string)
| EvKill (cmd : list string).

(** Directories, regular files with their sizes in bytes, and the trace
    of events so far (most recent last). *)
Record World := {
  dirs : gset string;
  files : gmap string Z;
  trace : list Event
}.

Definition with_files (w : World) (f : gmap string Z) : World :=
  {| dirs := dirs w; files := f; trace := trace w |}.

Definition log (ev : Event) (w : World) : World :=
  {| dirs := dirs w; files := files w; trace := trace w ++ [ev] |}.

(** [os.path.join] of a directory and a relative file name. *)
Definition path_join (dir name : string) : string := dir +:+ "/" +:+ name.

(** [os.path.exists] *)
Definition path_exists (w : World) (p : string) : bool :=
  bool_decide (p ∈ dirs w) || bool_decide (is_Some (files w !! p)).

(** [os.path.getsize] of an existing file. *)
Definition getsize (w : World) (p : string) : Z := default 0 (files w !! p).

Definition beneath (dir p : string) : bool := String.prefix (dir +:+ "/") p.

(** What [shutil.rmtree] leaves when it succeeds. *)
Definition without_tree (dir : string) (w : World) : World :=
  {| dirs := filter (fun d => d ≠ dir ∧ beneath dir d = false) (dirs w);
     files := filter (fun kv => beneath dir kv.1 = false) (files w);
     trace := trace w |}.

(** What [os.remove] leaves when it succeeds. *)
Definition without_file (p : string) (w : World) : World :=
  with_files w (delete p (files w)).

(** What [tempfile.mkdtemp] leaves: the directory it names exists. *)
Definition with_dir (dir : string) (w : World) : World :=
  {| dirs := {[dir]} ∪ dirs w; files := files w; trace := trace w |}.

(** How a call of [stream.download] ends: with an exception, or having
    stored [Some n] bytes under the requested path ([None]: it returned
    without creating the file). *)
Inductive TransferOutcome :=
| TransferRaises (text : string)
| TransferStores (bytes : option Z).

(** How [subprocess.run(cmd, timeout=...)] ends: the child exited; the
    timeout expired (the child is then killed and reaped before
    [TimeoutExpired] is raised); or the call raised something else. In
    the first two cases the child may have changed the files. *)
Inductive RunOutcome :=
| Completed (returncode : Z) (stderr : string) (files_after : gmap string Z)
| TimedOut (files_after : gmap string Z)
| RunRaises (text : string).

(** The collaborators outside the repository. *)
Record Env := {
  transfer : Stream -> string -> TransferOutcome;
  run_tool : list string -> World -> RunOutcome;
  rmtree_raises : string -> World -> bool;
  remove_raises : string -> World -> bool
}.

Inductive Exn :=
| FFmpegNotFoundError (message : string)
| MergeError (message : string)
| DownloadError (message : string)
| HTTPException (status_code : Z) (detail : string)
| TimeoutExpired (cmd : list string) (timeout : Z)
| OtherException (text : string).

(** [str(e)] *)
Definition exn_str (e : Exn) : string :=
  match e with
  | FFmpegNotFoundError m | MergeError m | DownloadError m => m
  | HTTPException code detail => Py.str code +:+ ": " +:+ detail
  | TimeoutExpired _ t => "Command timed out after " +:+ Py.str t +:+ " seconds"
  | OtherException t => t
  end.

Record CompletedProcess := {
  returncode : Z;
  stderr : string
}.

(** [subprocess.run(cmd, capture_output=True, text=True, timeout=t)] *)
Definition subprocess_run (env : Env) (cmd : list string) (t : Z) (w : World)
  : World * (Exn + CompletedProcess) :=
  let w := log (EvSpawn cmd) w in
  match run_tool env cmd w with
  | Completed code err fs =>
      (with_files w fs, inr {| returncode := code; stderr := err |})
  | TimedOut fs =>
      (log (EvKill cmd) (with_files w fs), inl (TimeoutExpired cmd t))
  | RunRaises text => (w, inl (OtherException text))
  end.

End OS.

(* ====================================================================== *)
(** ** services/ffmpeg_service.py *)
(* ====================================================================== *)

Module FFmpegService.
Import OS.

Record FFmpegService := {
  timeout : Z;
  _ffmpeg_executable : option string
}.

Definition is_available (self : FFmpegService) : bool :=
  match _ffmpeg_executable self with Some _ => true | None => false end.

Definition default_not_found : string :=
  "FFmpeg is not installed or not found in PATH".

(** The command line [merge_video_audio] builds. *)
Definition merge_command (executable video_path audio_path
    video_codec audio_codec output_path : string) : list string :=
  [executable; "-i"; video_path; "-i"; audio_path;
   "-c:v"; video_codec; "-c:a"; audio_codec;
   "-shortest"; "-y"; output_path]%string.

Section WithEnv.
Variable env : Env.

(** [_cleanup_files]: each removal is attempted on an existing path and
    a failure of it is logged and skipped. *)
Fixpoint _cleanup_files (file_paths : list string) (w : World) : World :=
  match file_paths with
  | [] => w
  | file_path :: rest =>
      let w :=
        if path_exists w file_path then
          if remove_raises env file_path w then w else without_file file_path w
        else w in
      _cleanup_files rest w
  end.

Definition merge_video_audio (self : FFmpegService)
    (video_path audio_path output_path : string) (cleanup_temp : bool)
    (video_codec audio_codec : string) (w : World) : World * (Exn + string) :=
  let w := log (EvMergeCalled video_path audio_path output_path) w in
  match _ffmpeg_executable self with
  | None => (w, inl (FFmpegNotFoundError default_not_found))
  | Some executable =>
  if negb (path_exists w video_path) then
    (w, inl (MergeError ("Video file not found: " +:+ video_path)))
  else if negb (path_exists w audio_path) then
    (w, inl (MergeError ("Audio file not found: " +:+ audio_path)))
  else
    let cmd := merge_command executable video_path audio_path
                             video_codec audio_codec output_path in
    match subprocess_run env cmd (timeout self) w with
    | (w, inl (TimeoutExpired _ _)) =>
        (w, inl (MergeError ("FFmpeg merge timed out after " +:+
                             Py.str (timeout self) +:+ " seconds")))
    | (w, inl e) =>
        (w, inl (MergeError ("Merge failed: " +:+ exn_str e)))
    | (w, inr result) =>
        if negb (returncode result =? 0) then
          (* raised inside the [try], wrapped again by [except Exception] *)
          (w, inl (MergeError ("Merge failed: " +:+
                               ("FFmpeg merge failed: " +:+ stderr result))))
        else if negb (path_exists w output_path) || (getsize w output_path =? 0) then
          (w, inl (MergeError ("Merge failed: " +:+
                               "Output file was not created or is empty")))
        else
          let w := if cleanup_temp
                   then _cleanup_files [video_path; audio_path] w else w in
          (w, inr output_path)
    end
  end.

(** [create_temp_merge_dir]; [temp_dir] is the path [mkdtemp] chose. *)
Definition create_temp_merge_dir (temp_dir : string) (w : World) : World :=
  with_dir temp_dir w.

(** [cleanup_merge_dir]: a failure of the removal is logged and
    swallowed. *)
Definition cleanup_merge_dir (temp_dir : string) (w : World) : World :=
  if path_exists w temp_dir then
    if rmtree_raises env temp_dir w then w else without_tree temp_dir w
  else w.

End WithEnv.

End FFmpegService.

(* ====================================================================== *)
(** ** services/youtube_service.py *)
(* ====================================================================== *)

Module YouTubeService.
Import SmartSelection OS.

(** [c.isalnum()] on ASCII text. Beyond ASCII, [str.isalnum] consults
    the Unicode database, which is outside the embedding: what is stated
    of the characters kept is stated of ASCII titles. *)
Definition isalnum (c : ascii) : bool :=
  let n := nat_of_ascii c in
  (((48 <=? n) && (n <=? 57)) || ((65 <=? n) && (n <=? 90))
   || ((97 <=? n) && (n <=? 122)))%nat.

Definition safe_char (c : ascii) : bool :=
  isalnum c || Ascii.eqb c " " || Ascii.eqb c "-" || Ascii.eqb c "_".

Fixpoint keep_safe (s : string) : string :=
  match s with
  | EmptyString => EmptyString
  | String c rest => if safe_char c then String c (keep_safe rest) else keep_safe rest
  end.

(** [str.rstrip()] on text whose only white space is the blank. *)
Fixpoint rstrip (s : string) : string :=
  match s with
  | EmptyString => EmptyString
  | String c rest =>
      match rstrip rest with
      | EmptyString => if Ascii.eqb c " " then EmptyString else String c EmptyString
      | r => String c r
      end
  end.

Definition create_safe_filename (title : string) (stream_id : option string)
    (max_length : nat) : string :=
  let safe_title := rstrip (keep_safe title) in
  let safe_title := String.substring 0 max_length safe_title in
  if Py.truthy_str stream_id then safe_title +:+ "_" +:+ Py.fmt stream_id
  else safe_title.

(** A call of [download_stream] runs on a worker thread in two steps that
    other threads can interleave with: the transfer, then the check of
    what it left on disk. *)
Inductive Future :=
| Submitted
| Transferred
| Finished (result : Exn + string).

Section WithEnv.
Variable env : Env.

Definition download_step (s : Stream) (output_dir filename : string)
    (f : Future) (w : World) : World * Future :=
  let output_path := path_join output_dir filename in
  match f with
  | Submitted =>
      match transfer env s output_path with
      | TransferRaises text =>
          (w, Finished (inl (DownloadError ("Failed to download stream: " +:+ text))))
      | TransferStores None => (w, Transferred)
      | TransferStores (Some n) =>
          (with_files w (<[output_path := n]> (files w)), Transferred)
      end
  | Transferred =>
      if negb (path_exists w output_path) || (getsize w output_path =? 0) then
        (* raised inside the [try], wrapped again by [except Exception] *)
        (w, Finished (inl (DownloadError
             ("Failed to download stream: " +:+
              ("Download failed - file not created or empty: " +:+ filename)))))
      else (w, Finished (inr output_path))
  | Finished r => (w, Finished r)
  end.

(** [download_stream] called directly: both steps in a row. *)
Definition download_stream (s : Stream) (output_dir filename : string)
    (w : World) : World * (Exn + string) :=
  let '(w, f) := download_step s output_dir filename Submitted w in
  let '(w, f) := download_step s output_dir filename f w in
  match f with
  | Finished r => (w, r)
  | _ => (w, inl (OtherException "unreachable"))
  end.

End WithEnv.

End YouTubeService.

(* ====================================================================== *)
(** ** main.py: smart_download *)
(* ====================================================================== *)

Module Main.
Import SmartSelection OS FFmpegService YouTubeService.

(** What the endpoint hands back on success: a streaming response over
    the file at [path]; the workspace is removed by [iterfile] once the
    body has been streamed. *)
Inductive Response :=
| StreamingResponse (path : string).

Definition is_done (f : Future) : bool :=
  match f with Finished _ => true | _ => false end.

(** [create_safe_filename(yt.title or "smart_download")] *)
Definition safe_title_of (title : option string) : string :=
  create_safe_filename (Py.or_else title "smart_download") None 50.

(** The names of the two transient files of a merge. *)
Definition video_temp_filename (safe_title : string) (video_stream : Stream) : string :=
  safe_title +:+ "_video_temp." +:+ subtype video_stream.

Definition audio_temp_filename (safe_title : string) (audio_stream : Stream) : string :=
  safe_title +:+ "_audio_temp." +:+ subtype audio_stream.

Section WithEnv.
Variable env : Env.
Variable ffmpeg_service : FFmpegService.

(** The two submitted downloads under a schedule: [true] lets the video
    worker take its next step, [false] the audio worker; a worker that
    has finished yields the turn to the other. Leaving the [with] block
    waits for both workers, whatever the schedule was. *)
Section Pool.
Variables (video_stream audio_stream : Stream).
Variables (temp_dir video_filename audio_filename : string).

Definition step_video (st : World * Future * Future) : World * Future * Future :=
  let '(w, fv, fa) := st in
  let '(w, fv) := download_step env video_stream temp_dir video_filename fv w in
  (w, fv, fa).

Definition step_audio (st : World * Future * Future) : World * Future * Future :=
  let '(w, fv, fa) := st in
  let '(w, fa) := download_step env audio_stream temp_dir audio_filename fa w in
  (w, fv, fa).

Definition turn (video_first : bool) (st : World * Future * Future)
  : World * Future * Future :=
  let '(_, fv, fa) := st in
  if video_first then (if is_done fv then step_audio st else step_video st)
  else (if is_done fa then step_video st else step_audio st).

Definition join_all (st : World * Future * Future) : World * Future * Future :=
  step_audio (step_audio (step_video (step_video st))).

Definition run_pool (schedule : list bool) (w : World) : World * Future * Future :=
  join_all (fold_left (fun st b => turn b st) schedule (w, Submitted, Submitted)).
End Pool.

(** [future.result()] once the pool has been joined. *)
Definition future_result (f : Future) : Exn + string :=
  match f with
  | Finished r => r
  | _ => inl (OtherException "future not finished")
  end.

(** The three [except] clauses of [smart_download]. *)
Definition on_exception (temp_dir : option string) (e : Exn) (w : World)
  : World * (Exn + Response) :=
  let w := if Py.truthy_str temp_dir
           then cleanup_merge_dir env (Py.fmt temp_dir) w else w in
  match e with
  | FFmpegNotFoundError m | MergeError m => (w, inl (HTTPException 500 m))
  | DownloadError m => (w, inl (HTTPException 500 m))
  | _ => (w, inl (HTTPException 500 ("Smart download failed: " +:+ exn_str e)))
  end.

(** The [elif smart_option['type'] == 'merge'] branch. *)
Definition merge_branch (smart_option : SmartOption) (safe_title temp_dir : string)
    (schedule : list bool) (w : World) : World * (Exn + string) :=
  if negb (is_available ffmpeg_service) then
    (w, inl (HTTPException 500 "FFmpeg not available for merging"))
  else
    match audio_stream smart_option with
    | None => (w, inl (OtherException "'NoneType' object has no attribute 'subtype'"))
    | Some audio_stream =>
        let video_stream := video_stream smart_option in
        let video_filename := video_temp_filename safe_title video_stream in
        let audio_filename := audio_temp_filename safe_title audio_stream in
        let '(w, video_future, audio_future) :=
          run_pool video_stream audio_stream temp_dir video_filename audio_filename
                   schedule w in
        match future_result video_future with
        | inl e => (w, inl e)
        | inr video_path =>
            match future_result audio_future with
            | inl e => (w, inl e)
            | inr audio_path =>
                let output_filename := safe_title +:+ "_Smart.mp4" in
                let output_path := path_join temp_dir output_filename in
                match merge_video_audio env ffmpeg_service video_path audio_path
                        output_path true "copy" "aac" w with
                | (w, inl e) => (w, inl e)
                | (w, inr _) => (w, inr output_path)
                end
            end
        end
    end.

(** [smart_download]: [smart_option] is what [get_fast_smart_selection]
    returned, [title] is [yt.title], [temp_dir] the path [mkdtemp] will
    choose and [schedule] the interleaving of the two workers. *)
Definition smart_download (smart_option : option SmartOption)
    (title : option string) (temp_dir : string) (schedule : list bool)
    (w : World) : World * (Exn + Response) :=
  match smart_option with
  | None =>
      on_exception None
        (HTTPException 404 "No suitable streams found for smart download") w
  | Some smart_option =>
      let safe_title := safe_title_of title in
      let w := create_temp_merge_dir temp_dir w in
      let '(w, r) :=
        if String.eqb (type smart_option) "progressive" then
          download_stream env (video_stream smart_option) temp_dir
                          (safe_title +:+ "_Smart.mp4") w
        else if String.eqb (type smart_option) "merge" then
          merge_branch smart_option safe_title temp_dir schedule w
        else (w, inl (HTTPException 500 "Unknown smart download type")) in
      match r with
      | inl e => on_exception (Some temp_dir) e w
      | inr output_path => (w, inr (StreamingResponse output_path))
      end
  end.

(** The [finally] of [iterfile], run when the response has been sent. *)
Definition iterfile_finally (temp_dir : string) (w : World) : World :=
  cleanup_merge_dir env temp_dir w.

End WithEnv.

End Main.

(* ====================================================================== *)
(** ** Vocabulary of the properties *)
(* ====================================================================== *)

Module Props.
Import SmartSelection.

(** The resolution bins of the video score: 5 for 2160 lines and more
    down to 1 for 480 and more, 0 below. *)
Definition resolution_tier (res_num : Z) : Z :=
  if res_num >=? 2160 then 5
  else if res_num >=? 1440 then 4
  else if res_num >=? 1080 then 3
  else if res_num >=? 720 then 2
  else if res_num >=? 480 then 1
  else 0.

(** The bitrate bins of the audio score: 5 for 320 kbps and more down to
    1 for 96 and more, 0 below. *)
Definition bitrate_tier (bitrate : Z) : Z :=
  if bitrate >=? 320 then 5
  else if bitrate >=? 256 then 4
  else if bitrate >=? 192 then 3
  else if bitrate >=? 128 then 2
  else if bitrate >=? 96 then 1
  else 0.

(** The resolution of the head of a ranked list, 0 for an empty list. *)
Definition best_resolution (l : list StreamAnalysis) : Z :=
  match l with
  | best :: _ => extract_resolution_number (resolution (stream best))
  | [] => 0
  end.

(** Reading the resolution of the head of a ranked list raises. *)
Definition head_unreadable (l : list StreamAnalysis) : bool :=
  match l with
  | best :: _ => extraction_raises (resolution (stream best))
  | [] => false
  end.





Definition no_streams : YouTube :=
  {| streams_progressive := EnumEnd;
     streams_only_video := EnumEnd;
     streams_only_audio := EnumEnd |}.

End Props.

(* ====================================================================== *)
(** ** Sample data *)
(* ====================================================================== *)

Module Samples.
Import SmartSelection.

Definition video_stream_of (tag : Z) (res : string) (rate : Z) (codec : string)
    (bytes : Z) : Stream :=
  {| itag := tag; resolution := Some res; fps := Some rate;
     video_codec := Some codec; abr := None; audio_codec := None;
     filesize := Some bytes; subtype := "mp4" |}.

Definition audio_stream_of (tag : Z) (rate codec : string) (bytes : Z) : Stream :=
  {| itag := tag; resolution := None; fps := None; video_codec := None;
     abr := Some rate; audio_codec := Some codec;
     filesize := Some bytes; subtype := "webm" |}.

Definition progressive_480p : Stream := video_stream_of 18 "480p" 30 "avc1.42001E" 31457280.
Definition progressive_720p : Stream := video_stream_of 22 "720p" 30 "avc1.64001F" 52428800.
Definition video_480p : Stream := video_stream_of 135 "480p" 30 "avc1.4d401e" 20971520.
Definition video_720p : Stream := video_stream_of 136 "720p" 30 "avc1.4d401e" 41943040.
Definition video_1080p : Stream := video_stream_of 137 "1080p" 30 "avc1.640028" 104857600.
Definition audio_96k : Stream := audio_stream_of 250 "96kbps" "opus" 3145728.
Definition audio_128k : Stream := audio_stream_of 251 "128kbps" "opus" 5242880.



(** Collaborators on a good day, except that audio transfers raise: a
    video transfer stores 1000 bytes, the merge tool exits with 0 having
    written 5000 bytes to the last argument of its command line, and
    removals succeed. *)
Definition audio_transfer_fails : OS.Env :=
  {| OS.transfer := fun s _ =>
       if Py.truthy_str (abr s) then OS.TransferRaises "connection reset"
       else OS.TransferStores (Some 1000);
     OS.run_tool := fun cmd w =>
       OS.Completed 0 "" (<[List.last cmd ""%string := 5000]> (OS.files w));
     OS.rmtree_raises := fun _ _ => false;
     OS.remove_raises := fun _ _ => false |}.

(** The same collaborators when the workspace cannot be removed. *)
Definition removal_fails : OS.Env :=
  {| OS.transfer := OS.transfer audio_transfer_fails;
     OS.run_tool := OS.run_tool audio_transfer_fails;
     OS.rmtree_raises := fun _ _ => true;
     OS.remove_raises := fun _ _ => false |}.

(** The plan pairing the 1080p video-only and the 128 kbps audio-only
    stream. *)
Definition merge_option : SmartOption :=
  {| type := "merge";
     video_stream := video_1080p;
     audio_stream := Some audio_128k;
     video_itag := "137";
     audio_itag := Some "251"%string;
     estimated_size_mb := Float.Finite 105 0;
     quality_description := "1080p + 128kbps";
     merge_required := true |}.

Definition workspace : string := "/tmp/ytdl_merge_x".

Definition ffmpeg_on_path : FFmpegService.FFmpegService :=
  {| FFmpegService.timeout := 300;
     FFmpegService._ffmpeg_executable := Some "ffmpeg"%string |}.

Definition empty_world : OS.World :=
  {| OS.dirs := ∅; OS.files := ∅; OS.trace := [] |}.

(** A workspace holding both downloaded inputs. *)
Definition inputs_ready : OS.World :=
  {| OS.dirs := {["/tmp/ytdl_merge_x"%string]};
     OS.files := {["/tmp/ytdl_merge_x/v.mp4"%string := 1000;
                   "/tmp/ytdl_merge_x/a.webm"%string := 200]};
     OS.trace := [] |}.

(** A cache of capacity 2 holding ["a"] (stored at time 1) and ["b"]
    (stored at time 2), with a time-to-live of 300. *)
Definition two_entries : Cache.CacheManager Z :=
  Cache.set 2 "b" 20 (Cache.set 1 "a" 10 (Cache.init 300 2)).

Definition entry_a : Cache.CacheEntry Z :=
  {| Cache.timestamp := 1; Cache.data := 10 |}.

Definition ranked_progressive_480p : list StreamAnalysis :=
  [analyse_progressive progressive_480p].
Definition ranked_video_1080p : list StreamAnalysis := [analyse_video video_1080p].
Definition ranked_audio_128k : list StreamAnalysis := [analyse_audio audio_128k].

End Samples.

(* ====================================================================== *)
(** ** utils/cache.py: statistics, runs of operations, the video cache *)
(* ====================================================================== *)

Module CacheOps.
Import Cache.

(** The dictionary [get_stats] returns: the counters, the current size,
    the configuration and the hit rate. *)
Record CacheStatistics := {
  counters : Stats;
  stat_size : Z;
  stat_max_size : Z;
  stat_ttl : Z;
  hit_rate : Float.float
}.

Section WithValue.
Context {V : Type}.

(** [get_stats]. The counters start at 0 and only grow, so the quotient
    lies between 0 and 1 and the division cannot raise; [NaN] stands for
    a raised division on counters no run of the cache produces. *)
Definition get_stats (c : CacheManager V) : CacheStatistics :=
  let total_requests := hits (_stats c) + misses (_stats c) in
  let hit_rate :=
    if total_requests >? 0
    then default Float.NaN (Float.truediv (hits (_stats c)) total_requests)
    else Float.zero in
  {| counters := _stats c;
     stat_size := Z.of_nat (length (_cache c));
     stat_max_size := max_size c;
     stat_ttl := ttl c;
     hit_rate := hit_rate |}.

(** One call on a cache manager, with the clock reading it makes. *)
Inductive Op :=
| OpGet (now : Z) (key : string)
| OpSet (now : Z) (key : string) (v : V)
| OpDelete (key : string)
| OpClear
| OpCleanup (now : Z).

Definition apply_op (op : Op) (c : CacheManager V) : CacheManager V :=
  match op with
  | OpGet now key => (get now key c).1
  | OpSet now key v => set now key v c
  | OpDelete key => (delete key c).1
  | OpClear => clear c
  | OpCleanup now => (cleanup_expired now c).1
  end.

(** A sequence of calls, in order. *)
Definition run (ops : list Op) (c : CacheManager V) : CacheManager V :=
  fold_left (fun c op => apply_op op c) ops c.

Definition is_get (op : Op) : bool :=
  match op with OpGet _ _ => true | _ => false end.

Definition is_set (op : Op) : bool :=
  match op with OpSet _ _ _ => true | _ => false end.

Definition count_gets (ops : list Op) : Z := Z.of_nat (length (List.filter is_get ops)).
Definition count_sets (ops : list Op) : Z := Z.of_nat (length (List.filter is_set ops)).

End WithValue.

Arguments Op : clear implicits.

End CacheOps.

Module VideoAnalysisCache.
Import Cache.

Section WithPayload.
Context {D : Type}.

(** The specialised cache: a cache manager whose values are analysis
    bundles, dictionaries from sub-key to payload. *)
Record VideoAnalysisCache := {
  cache_manager : CacheManager (gmap string D)
}.

(** [VideoAnalysisCache.__init__] *)
Definition init (ttl : Z) : VideoAnalysisCache :=
  {| cache_manager := Cache.init ttl 500 |}.

Definition analysis_key (video_id : string) : string := "analysis:" +:+ video_id.

Definition get_analysis (now : Z) (video_id : string) (self : VideoAnalysisCache)
  : VideoAnalysisCache * option (gmap string D) :=
  let '(c, r) := get now (analysis_key video_id) (cache_manager self) in
  ({| cache_manager := c |}, r).

Definition cache_analysis (now : Z) (video_id : string)
    (analysis_data : gmap string D) (self : VideoAnalysisCache) : VideoAnalysisCache :=
  {| cache_manager := set now (analysis_key video_id) analysis_data (cache_manager self) |}.

(** Truthiness of an optional dictionary: [None] and [{}] are falsy. *)
Definition truthy_dict (o : option (gmap string D)) : bool :=
  match o with
  | Some m => negb (base.size m =? 0)%nat
  | None => false
  end.

Definition get_smart_selection (now : Z) (video_id : string)
    (self : VideoAnalysisCache) : VideoAnalysisCache * option D :=
  let '(self, analysis) := get_analysis now video_id self in
  (self, if truthy_dict analysis
         then default ∅ analysis !! "smart_selection"%string
         else None).

(** [cache_smart_selection]: a read ([now_read]), an update of the bundle
    read (or of a new one), and a store of the whole bundle
    ([now_store]). *)
Definition cache_smart_selection (now_read now_store : Z) (video_id : string)
    (smart_selection_data : D) (self : VideoAnalysisCache) : VideoAnalysisCache :=
  let '(self, found) := get_analysis now_read video_id self in
  let analysis := if truthy_dict found then default ∅ found else ∅ in
  let analysis := <["smart_selection"%string := smart_selection_data]> analysis in
  cache_analysis now_store video_id analysis self.

End WithPayload.

Arguments VideoAnalysisCache : clear implicits.

End VideoAnalysisCache.

(* ====================================================================== *)
(** ** main.py: get_fast_smart_selection *)
(* ====================================================================== *)

Module FastSelection.
Import SmartSelection VideoAnalysisCache.

(** What [create_youtube_object] hands back on success: the video's
    identifier and its stream queries. *)
Record Video := {
  video_id : string;
  source : YouTube
}.

(** [get_fast_smart_selection]: [created] is the outcome of
    [create_youtube_object]; the three clock readings are those of the
    cache lookup and of the read and the store inside
    [cache_smart_selection]. *)
Definition get_fast_smart_selection (created : OS.Exn + Video)
    (prefer_progressive : bool) (now_lookup now_read now_store : Z)
    (video_cache : VideoAnalysisCache SmartOption)
  : VideoAnalysisCache SmartOption * option SmartOption :=
  match created with
  | inl _ => (video_cache, None)
  | inr yt =>
      let '(video_cache, cached_data) :=
        get_analysis now_lookup (video_id yt) video_cache in
      match (if truthy_dict cached_data
             then default ∅ cached_data !! "smart_selection"%string
             else None) with
      | Some cached => (video_cache, Some cached)
      | None =>
          match smart_select_best_option (source yt) prefer_progressive with
          | Some smart_selection =>
              (cache_smart_selection now_read now_store (video_id yt)
                 smart_selection video_cache,
               Some smart_selection)
          | None => (video_cache, None)
          end
      end
  end.

End FastSelection.

(* ====================================================================== *)
(** ** services/ffmpeg_service.py: convert_audio_format *)
(* ====================================================================== *)

Module FFmpegAudio.
Import OS FFmpegService.

Inductive ConvertExn :=
| ConvertNotFound (message : string)
| FFmpegError (message : string).

(** The command line [convert_audio_format] builds. *)
Definition convert_command (executable input_path format bitrate output_path : string)
  : list string :=
  [executable; "-i"; input_path;
   "-acodec"; if String.eqb format "mp3" then "libmp3lame" else "aac";
   "-ab"; bitrate; "-y"; output_path]%string.

Definition convert_audio_format (env : Env) (self : FFmpegService)
    (input_path output_path format bitrate : string) (w : World)
  : World * (ConvertExn + string) :=
  match _ffmpeg_executable self with
  | None => (w, inl (ConvertNotFound default_not_found))
  | Some executable =>
  if negb (path_exists w input_path) then
    (w, inl (FFmpegError ("Input audio file not found: " +:+ input_path)))
  else
    let cmd := convert_command executable input_path format bitrate output_path in
    match subprocess_run env cmd (timeout self) w with
    | (w, inl (TimeoutExpired _ _)) =>
        (w, inl (FFmpegError ("Audio conversion timed out after " +:+
                              Py.str (timeout self) +:+ " seconds")))
    | (w, inl e) =>
        (w, inl (FFmpegError ("Audio conversion failed: " +:+ exn_str e)))
    | (w, inr result) =>
        if negb (returncode result =? 0) then
          (w, inl (FFmpegError ("Audio conversion failed: " +:+
                                ("Audio conversion failed: " +:+ stderr result))))
        else if negb (path_exists w output_path) then
          (w, inl (FFmpegError ("Audio conversion failed: " +:+
                                "Audio conversion output file not created")))
        else (w, inr output_path)
    end
  end.

End FFmpegAudio.

(* ====================================================================== *)
(** ** utils/helpers.py *)
(* ====================================================================== *)

Module Helpers.
Import Py OS.

(** *** QualityHelper *)

Definition extract_resolution_number (resolution_str : option string) : Z :=
  if negb (truthy_str resolution_str) then 0
  else match re_search_digits (fmt resolution_str) with
       | Some digits => int digits
       | None => 0
       end.

Definition extract_audio_bitrate (abr_str : option string) : Z :=
  if negb (truthy_str abr_str) then 0
  else match re_search_digits (fmt abr_str) with
       | Some digits => int digits
       | None => 0
       end.

Definition calculate_quick_video_score (resolution_str : option string) (fps : Z) : Z :=
  let score := 0 in
  let res_num := extract_resolution_number resolution_str in
  let score :=
    if res_num >=? 2160 then score + 1000
    else if res_num >=? 1440 then score + 800
    else if res_num >=? 1080 then score + 600
    else if res_num >=? 720 then score + 400
    else if res_num >=? 480 then score + 200
    else score + res_num / 10 in
  let score :=
    if fps >=? 60 then score + 50
    else if fps >=? 30 then score + 25
    else score in
  score.

Definition calculate_quick_audio_score (abr_str : option string) : Z :=
  let score := 0 in
  let bitrate := extract_audio_bitrate abr_str in
  if bitrate >=? 320 then score + 300
  else if bitrate >=? 256 then score + 250
  else if bitrate >=? 192 then score + 200
  else if bitrate >=? 128 then score + 150
  else score + bitrate.

(** *** ValidationHelper *)

(** The nine characters that are replaced (less-than, greater-than,
    colon, double quote, slash, backslash, bar, question mark, star), by
    code. *)
Definition invalid_chars : list ascii :=
  map ascii_of_nat [60; 62; 58; 34; 47; 92; 124; 63; 42]%nat.

(** [s.replace(old, new)] for single characters. *)
Fixpoint replace_char (old new : ascii) (s : string) : string :=
  match s with
  | EmptyString => EmptyString
  | String c rest =>
      String (if Ascii.eqb c old then new else c) (replace_char old new rest)
  end.

(** [''.join(c for c in s if keep(c))] *)
Fixpoint keep_chars (keep : ascii -> bool) (s : string) : string :=
  match s with
  | EmptyString => EmptyString
  | String c rest =>
      if keep c then String c (keep_chars keep rest) else keep_chars keep rest
  end.

Definition printable (c : ascii) : bool := (32 <=? nat_of_ascii c)%nat.

(** [str.lstrip()] and [str.strip()] on text whose only white space is
    the blank (control characters have been removed by then). *)
Fixpoint lstrip (s : string) : string :=
  match s with
  | EmptyString => EmptyString
  | String c rest => if Ascii.eqb c " " then lstrip rest else s
  end.

Definition strip (s : string) : string := YouTubeService.rstrip (lstrip s).

Definition sanitize_filename (filename : string) : string :=
  let filename :=
    fold_left (fun name char => replace_char char "_" name) invalid_chars filename in
  let filename := keep_chars printable filename in
  let filename := String.substring 0 100 (strip filename) in
  match filename with
  | EmptyString => "download"
  | _ => filename
  end.

(** *** Module-level functions *)

(** What [shutil.rmtree] leaves when it raises part-way: the entries
    beneath the directory that it had deleted by then are gone, the
    directory itself and everything else are still there. *)
Definition partly_removed (deleted : string -> bool) (dir : string) (w : World)
  : World :=
  {| dirs := filter (fun d => ~ (beneath dir d = true /\ deleted d = true)) (dirs w);
     files := filter (fun kv => negb (beneath dir kv.1 && deleted kv.1) = true)
                     (files w);
     trace := trace w |}.

(** [cleanup_temp_directory]: whether the directory was there and has
    been removed. [deleted] tells which entries a removal that fails had
    already deleted when it raised. *)
Definition cleanup_temp_directory (env : Env) (deleted : string -> bool)
    (temp_dir : string) (w : World) : World * bool :=
  if path_exists w temp_dir then
    if rmtree_raises env temp_dir w then (partly_removed deleted temp_dir w, false)
    else (without_tree temp_dir w, true)
  else (w, false).

End Helpers.

(* ====================================================================== *)
(** ** More sample data *)
(* ====================================================================== *)

(* ====================================================================== *)
(** ** main.py: the [try] block of smart_download *)
(* ====================================================================== *)

Module SmartDownloadBody.
Import SmartSelection OS FFmpegService YouTubeService Main.

Section WithEnv.
Variable env : Env.
Variable ffmpeg_service : FFmpegService.

(** The [try] block of [smart_download] for a plan, up to the point where
    the response is built: the world it leaves and the path it computed
    or the exception it raised. *)
Definition body_of (smart_option : SmartOption) (title : option string)
    (temp_dir : string) (schedule : list bool) (w : World) : World * (Exn + string) :=
  if String.eqb (type smart_option) "progressive" then
    download_stream env (video_stream smart_option) temp_dir
                    (safe_title_of title +:+ "_Smart.mp4")
                    (create_temp_merge_dir temp_dir w)
  else if String.eqb (type smart_option) "merge" then
    merge_branch env ffmpeg_service smart_option (safe_title_of title) temp_dir schedule
                 (create_temp_merge_dir temp_dir w)
  else (create_temp_merge_dir temp_dir w,
        inl (HTTPException 500 "Unknown smart download type")).

End WithEnv.

End SmartDownloadBody.

Module MoreSamples.
Import SmartSelection Samples.

(** A second 480p video-only stream, scored like [video_480p]. *)
Definition video_480p_alt : Stream := video_stream_of 244 "480p" 30 "avc1.4d401f" 18874368.

(** A source answering all three queries: the video-only query yields two
    streams of equal score around a better one. *)
Definition healthy_source : YouTube :=
  {| streams_progressive :=
       EnumNext progressive_480p (EnumNext progressive_720p EnumEnd);
     streams_only_video :=
       EnumNext video_480p (EnumNext video_1080p (EnumNext video_480p_alt EnumEnd));
     streams_only_audio :=
       EnumNext audio_96k (EnumNext audio_128k EnumEnd) |}.

(** The same video at two moments: first with its streams, later with a
    source that offers nothing any more. *)
Definition video_at_first : FastSelection.Video :=
  {| FastSelection.video_id := "dQw4w9WgXcQ"; FastSelection.source := healthy_source |}.

Definition video_later : FastSelection.Video :=
  {| FastSelection.video_id := "dQw4w9WgXcQ"; FastSelection.source := Props.no_streams |}.

(** Collaborators on a good day: every transfer stores 1000 bytes, the
    tool exits with 0 having written 5000 bytes to the last argument of
    its command line, and removals succeed. *)
Definition downloads_succeed : OS.Env :=
  {| OS.transfer := fun _ _ => OS.TransferStores (Some 1000);
     OS.run_tool := fun cmd w =>
       OS.Completed 0 "" (<[List.last cmd ""%string := 5000]> (OS.files w));
     OS.rmtree_raises := fun _ _ => false;
     OS.remove_raises := fun _ _ => false |}.

(** Two streams whose resolutions lie beyond 2^53 / 1.5, where the
    product by 1.5 is rounded. *)
Definition progressive_beyond_2_53 : Stream :=
  video_stream_of 18 "6004799503160666p" 30 "avc1.42001E" 31457280.

Definition video_beyond_2_53 : Stream :=
  video_stream_of 137 "9007199254741000p" 30 "avc1.640028" 104857600.

(** A single-file stream whose resolution, 10^309, is too large to be
    converted to a float. *)
Definition progressive_beyond_float : Stream :=
  video_stream_of 18 "1000000000000000000000000000000000000000000000000000000000000000000000000000000000000000000000000000000000000000000000000000000000000000000000000000000000000000000000000000000000000000000000000000000000000000000000000000000000000000000000000000000000000000000000000000000000000000000000000000000000000000000000p"
                  30 "avc1.42001E" 31457280.

End MoreSamples.

(* ====================================================================== *)
(** * Properties of the stream scorer, analyzer and selection *)
(* ====================================================================== *)

(** Case analysis on the integer comparisons of a goal. *)
Ltac case_cmp :=
  repeat match goal with
         | |- context [?a >=? ?b] => destruct (Z.geb_spec a b)
         | |- context [?a >? ?b] => destruct (Z.gtb_spec a b)
         | |- context [?a <? ?b] => destruct (Z.ltb_spec a b)
         | |- context [?a <=? ?b] => destruct (Z.leb_spec a b)
         end.

Section SelectionProperties.
Import Py SmartSelection Props.

(** The cases of the repository's unit tests. *)
Example extract_resolution_number_cases :
  extract_resolution_number (Some "1080p"%string) = 1080
  /\ extract_resolution_number (Some "720p60"%string) = 720
  /\ extract_resolution_number (Some "2160p"%string) = 2160
  /\ extract_resolution_number (Some "unknown"%string) = 0
  /\ extract_resolution_number None = 0
  /\ extract_resolution_number (Some ""%string) = 0.
Proof. repeat split. Qed.

Example extract_audio_bitrate_cases :
  extract_audio_bitrate (Some "128kbps"%string) = 128
  /\ extract_audio_bitrate (Some "320kbps"%string) = 320
  /\ extract_audio_bitrate (Some "unknown"%string) = 0
  /\ extract_audio_bitrate None = 0.
Proof. repeat split. Qed.

Example quality_score_cases :
  calculate_video_quality_score Samples.video_1080p = 625
  /\ calculate_video_quality_score Samples.video_480p = 225
  /\ calculate_audio_quality_score Samples.audio_128k = 175
  /\ calculate_audio_quality_score Samples.audio_96k = 125.
Proof. repeat split. Qed.

(** At the boundary 1080 = 720 x 1.5 the first rule does not fire: with a
    720p single-file candidate the preference decides between the
    single-file plan and the fallback merge. *)
Example selection_at_the_boundary :
  option_map type
    (select_best_option [analyse_progressive Samples.progressive_720p]
       Samples.ranked_video_1080p Samples.ranked_audio_128k true)
    = Some "progressive"%string
  /\ option_map type
       (select_best_option [analyse_progressive Samples.progressive_720p]
          Samples.ranked_video_1080p Samples.ranked_audio_128k false)
     = Some "merge"%string
  /\ option_map type
       (select_best_option [analyse_progressive Samples.progressive_720p] [] [] true)
     = Some "progressive"%string.
Proof. repeat split. Qed.

Lemma video_scores_table :
  dict_get QualityScores.VIDEO_SCORES 2160 1000 = 1000 /\
  dict_get QualityScores.VIDEO_SCORES 1440 800 = 800 /\
  dict_get QualityScores.VIDEO_SCORES 1080 600 = 600 /\
  dict_get QualityScores.VIDEO_SCORES 720 400 = 400 /\
  dict_get QualityScores.VIDEO_SCORES 480 200 = 200.
Proof. repeat split; reflexivity. Qed.

Lemma audio_scores_table :
  dict_get QualityScores.AUDIO_SCORES 320 300 = 300 /\
  dict_get QualityScores.AUDIO_SCORES 256 250 = 250 /\
  dict_get QualityScores.AUDIO_SCORES 192 200 = 200 /\
  dict_get QualityScores.AUDIO_SCORES 128 150 = 150 /\
  dict_get QualityScores.AUDIO_SCORES 96 100 = 100.
Proof. repeat split; reflexivity. Qed.

(** A stream without a usable resolution attribute counts as 0 lines. *)
Lemma extract_resolution_falsy r :
  truthy_str r = false -> extract_resolution_number r = 0.
Proof. intros H. unfold extract_resolution_number. now rewrite H. Qed.

Lemma extract_bitrate_falsy r :
  truthy_str r = false -> extract_audio_bitrate r = 0.
Proof. intros H. unfold extract_audio_bitrate. now rewrite H. Qed.

(** The resolution part of the score as a function of the tier. *)
Lemma resolution_score_by_tier s :
  480 <= extract_resolution_number (resolution s) ->
  resolution_score s =
    match resolution_tier (extract_resolution_number (resolution s)) with
    | 5 => 1000 | 4 => 800 | 3 => 600 | 2 => 400 | _ => 200
    end.
Proof.
  intros Hres. unfold resolution_score, resolution_tier.
  destruct (truthy_str (resolution s)) eqn:Ht.
  - destruct video_scores_table as (-> & -> & -> & -> & ->).
    cbv zeta. case_cmp; solve [reflexivity | lia].
  - rewrite (extract_resolution_falsy _ Ht) in Hres. lia.
Qed.

Lemma bitrate_score_by_tier s :
  96 <= extract_audio_bitrate (abr s) ->
  bitrate_score s =
    match bitrate_tier (extract_audio_bitrate (abr s)) with
    | 5 => 300 | 4 => 250 | 3 => 200 | 2 => 150 | _ => 100
    end.
Proof.
  intros Hres. unfold bitrate_score, bitrate_tier.
  destruct (truthy_str (abr s)) eqn:Ht.
  - destruct audio_scores_table as (-> & -> & -> & -> & ->).
    cbv zeta. case_cmp; solve [reflexivity | lia].
  - rewrite (extract_bitrate_falsy _ Ht) in Hres. lia.
Qed.

(** Below the lowest bin the bitrate part of the score stays under 96. *)
Lemma bitrate_score_below s :
  extract_audio_bitrate (abr s) < 96 -> bitrate_score s < 96.
Proof.
  intros Hlt. unfold bitrate_score.
  destruct (truthy_str (abr s)) eqn:Ht; [|lia].
  cbv zeta. case_cmp; lia.
Qed.

Lemma tier_range n : 0 <= resolution_tier n <= 5.
Proof. unfold resolution_tier. case_cmp; lia. Qed.

Lemma bitrate_tier_range n : 0 <= bitrate_tier n <= 5.
Proof. unfold bitrate_tier. case_cmp; lia. Qed.

Lemma resolution_tier_mono a b : a <= b -> resolution_tier a <= resolution_tier b.
Proof.
  intros Hab. unfold resolution_tier. case_cmp; lia.
Qed.

Lemma bitrate_tier_mono a b : a <= b -> bitrate_tier a <= bitrate_tier b.
Proof.
  intros Hab. unfold bitrate_tier. case_cmp; lia.
Qed.

Lemma bitrate_tier_pos n : 0 < bitrate_tier n -> 96 <= n.
Proof. unfold bitrate_tier. case_cmp; lia. Qed.

(** C8. The quality score is strictly monotonic across tiers, the other
    inputs held fixed: two video streams with the same fps and codec whose
    resolutions lie in distinct tiers, the lower at 480 lines or more, are
    ranked by resolution; two audio streams with the same codec whose
    bitrates lie in distinct tiers are ranked by bitrate. *)
Theorem score_strictly_monotonic_across_tiers (s1 s2 : Stream) :
  (fps s1 = fps s2 ->
   video_codec s1 = video_codec s2 ->
   480 <= extract_resolution_number (resolution s1) ->
   extract_resolution_number (resolution s1)
     < extract_resolution_number (resolution s2) ->
   resolution_tier (extract_resolution_number (resolution s1))
     <> resolution_tier (extract_resolution_number (resolution s2)) ->
   calculate_video_quality_score s1 < calculate_video_quality_score s2)
  /\
  (audio_codec s1 = audio_codec s2 ->
   extract_audio_bitrate (abr s1) < extract_audio_bitrate (abr s2) ->
   bitrate_tier (extract_audio_bitrate (abr s1))
     <> bitrate_tier (extract_audio_bitrate (abr s2)) ->
   calculate_audio_quality_score s1 < calculate_audio_quality_score s2).
Proof.
  split.
  - intros Hfps Hcodec Hlow Hlt Hne.
    unfold calculate_video_quality_score, fps_bonus, video_codec_bonus.
    rewrite Hfps, Hcodec.
    rewrite !resolution_score_by_tier by lia.
    revert Hne. unfold resolution_tier. case_cmp; lia.
  - intros Hcodec Hlt Hne.
    unfold calculate_audio_quality_score, audio_codec_bonus.
    rewrite Hcodec.
    assert (Htier : bitrate_tier (extract_audio_bitrate (abr s1))
                    < bitrate_tier (extract_audio_bitrate (abr s2))).
    { pose proof (bitrate_tier_mono _ _ (Z.lt_le_incl _ _ Hlt)). lia. }
    assert (Hhigh : 96 <= extract_audio_bitrate (abr s2)).
    { apply bitrate_tier_pos. pose proof (bitrate_tier_range
        (extract_audio_bitrate (abr s1))). lia. }
    destruct (Z.le_gt_cases 96 (extract_audio_bitrate (abr s1))) as [Hge|Hbelow].
    + rewrite !bitrate_score_by_tier by lia.
      revert Htier. unfold bitrate_tier. case_cmp; lia.
    + pose proof (bitrate_score_below s1 Hbelow).
      rewrite (bitrate_score_by_tier s2) by lia.
      unfold bitrate_tier. case_cmp; lia.
Qed.

Lemma score_strictly_monotonic_across_tiers_witness :
  calculate_video_quality_score Samples.video_480p
    < calculate_video_quality_score Samples.video_720p
  /\ calculate_audio_quality_score Samples.audio_96k
    < calculate_audio_quality_score Samples.audio_128k.
Proof.
  split.
  - apply (proj1 (score_strictly_monotonic_across_tiers
                    Samples.video_480p Samples.video_720p));
      vm_compute; congruence.
  - apply (proj2 (score_strictly_monotonic_across_tiers
                    Samples.audio_96k Samples.audio_128k));
      vm_compute; congruence.
Defined.

Lemma digit_value_range c : is_digit c = true -> 0 <= digit_value c <= 9.
Proof.
  unfold is_digit, digit_value. intros H.
  apply andb_true_iff in H. destruct H as [H1 H2].
  apply Z.leb_le in H1, H2. lia.
Qed.

Lemma int_of_digits_nonneg s acc :
  Forall (fun c => is_digit c = true) (list_ascii_of_string s) ->
  0 <= acc -> 0 <= int_of_digits acc s.
Proof.
  revert acc. induction s as [|c s IH]; simpl; intros acc Hall Hacc; [exact Hacc|].
  apply Forall_cons in Hall. destruct Hall as [Hc Hall].
  apply IH; [exact Hall|]. pose proof (digit_value_range c Hc). lia.
Qed.

Lemma take_digits_all s :
  Forall (fun c => is_digit c = true) (list_ascii_of_string (take_digits s)).
Proof.
  induction s as [|c s IH]; simpl; [constructor|].
  destruct (is_digit c) eqn:Hc; simpl; [|constructor].
  constructor; assumption.
Qed.

Lemma re_search_digits_all s d :
  re_search_digits s = Some d ->
  Forall (fun c => is_digit c = true) (list_ascii_of_string d).
Proof.
  induction s as [|c s IH]; simpl; [discriminate|].
  destruct (is_digit c) eqn:Hc.
  - intros [= <-]. constructor; [exact Hc|apply take_digits_all].
  - exact IH.
Qed.

(** The number read off an attribute is never negative. *)
Lemma extract_resolution_number_nonneg r : 0 <= extract_resolution_number r.
Proof.
  unfold extract_resolution_number.
  destruct (negb (truthy_str r)); [lia|].
  destruct (re_search_digits (fmt r)) as [d|] eqn:Hd; [|lia].
  apply int_of_digits_nonneg; [|lia]. exact (re_search_digits_all _ _ Hd).
Qed.

Lemma extract_audio_bitrate_nonneg r : 0 <= extract_audio_bitrate r.
Proof. exact (extract_resolution_number_nonneg r). Qed.

(** A positive value of at most 53 bits within the exponent range is
    a float as it stands. *)
Lemma round_exact (m e : Z) :
  0 < m < 2 ^ 53 -> -1074 <= e -> Z.log2 m + 1 + e <= 1024 ->
  Float.round m e = Float.Finite m e.
Proof.
  intros [Hpos Hsmall] He Hmax. unfold Float.round.
  rewrite (Z.abs_eq m) by lia.
  assert (Hlog : Z.log2 m < 53) by (apply Z.log2_lt_pow2; lia).
  destruct (Z.leb_spec (Z.max (Z.log2 m + 1 - 53) (-1074 - e)) 0) as [_|Hbad]; [|lia].
  destruct (Z.eqb_spec m 0) as [|_]; [lia|].
  destruct (Z.gtb_spec (Z.log2 m + 1 + e) 1024) as [|_]; [lia|].
  rewrite (Z.sgn_pos m) by lia. f_equal. lia.
Qed.

(** Below [2^53] the conversion of an [int] to a float is exact. *)
Lemma of_int_exact (n : Z) :
  0 <= n < 2 ^ 53 -> Float.of_int n = Some (Float.Finite n 0).
Proof.
  intros [Hnn Hsmall]. unfold Float.of_int.
  destruct (Z.eq_dec n 0) as [->|Hne]; [reflexivity|].
  rewrite round_exact; [reflexivity|lia|lia|].
  assert (Z.log2 n < 53) by (apply Z.log2_lt_pow2; lia). lia.
Qed.

Lemma log2_le_exponent (a b : Z) : 0 <= b -> a <= 2 ^ b -> Z.log2 a <= b.
Proof.
  intros Hb Ha. rewrite <- (Z.log2_pow2 b Hb). now apply Z.log2_le_mono.
Qed.

(** A quotient by [2^s] of a value of at most [2^k] stays at most
    [2^(k-s)] when it is rounded to nearest. *)
Lemma rounded_quotient_bound (m k s : Z) :
  0 <= m <= 2 ^ k -> 0 < s <= k ->
  (if (m mod 2 ^ s >? 2 ^ (s - 1))
      || ((m mod 2 ^ s =? 2 ^ (s - 1)) && Z.odd (m / 2 ^ s))
   then m / 2 ^ s + 1 else m / 2 ^ s) <= 2 ^ (k - s)
  /\ 0 <= m / 2 ^ s.
Proof.
  intros [Hnn Hle] [Hs Hsk].
  assert (HP : 0 < 2 ^ s) by (apply Z.pow_pos_nonneg; lia).
  assert (HT : 0 < 2 ^ (k - s)) by (apply Z.pow_pos_nonneg; lia).
  assert (Hhalf : 0 < 2 ^ (s - 1)) by (apply Z.pow_pos_nonneg; lia).
  assert (Hsplit : 2 ^ k = 2 ^ (k - s) * 2 ^ s).
  { rewrite <- Z.pow_add_r by lia. f_equal. lia. }
  pose proof (Z.div_mod m (2 ^ s) ltac:(lia)) as Hdm.
  pose proof (Z.mod_pos_bound m (2 ^ s) HP) as Hr.
  set (q := m / 2 ^ s) in *. set (r := m mod 2 ^ s) in *.
  set (P := 2 ^ s) in *. set (T := 2 ^ (k - s)) in *.
  assert (Hq : 0 <= q) by nia.
  split; [|exact Hq].
  assert (HqT : q <= T) by nia.
  destruct (Z.eq_dec q T) as [HeqT|HneT].
  - assert (r = 0) by nia. subst r.
    replace (m mod P) with 0 in * by (symmetry; assumption).
    destruct (Z.gtb_spec 0 (2 ^ (s - 1))) as [|_]; [lia|].
    destruct (Z.eqb_spec 0 (2 ^ (s - 1))) as [|_]; [lia|].
    cbn [orb andb]. lia.
  - destruct (_ || _); lia.
Qed.

(** Rounding never carries a value between 0 and 1 outside that range. *)
Lemma round_at_most_one (m k : Z) :
  0 <= m <= 2 ^ k -> 0 <= k ->
  exists m' e', Float.round m (- k) = Float.Finite m' e'
    /\ Float.int_lt 1 (Float.Finite m' e') = false
    /\ Float.int_gt 0 (Float.Finite m' e') = false.
Proof.
  intros [Hnn Hle] Hk.
  unfold Float.round. rewrite (Z.abs_eq m) by lia.
  set (s := Z.max (Z.log2 m + 1 - 53) (-1074 - - k)).
  destruct (Z.eq_dec m 0) as [Hzero|Hne].
  { subst m. exists 0, 0. split; [|split; reflexivity].
    destruct (Z.leb_spec s 0) as [Hs|Hs]; [reflexivity|].
    assert (Hhalf : 0 < 2 ^ (s - 1)) by (apply Z.pow_pos_nonneg; lia).
    rewrite Z.div_0_l, Zmod_0_l by (apply Z.pow_nonzero; lia).
    destruct (Z.gtb_spec 0 (2 ^ (s - 1))) as [|_]; [lia|].
    destruct (Z.eqb_spec 0 (2 ^ (s - 1))) as [|_]; [lia|].
    reflexivity. }
  assert (Hfin : forall a e,
            0 <= a -> e <= 0 -> a <= 2 ^ (- e) ->
            exists m' e',
              (if a =? 0 then Float.zero
               else if Z.log2 a + 1 + e >? 1024 then Float.Infinity (m <? 0)
               else Float.Finite (Z.sgn m * a) e) = Float.Finite m' e'
              /\ Float.int_lt 1 (Float.Finite m' e') = false
              /\ Float.int_gt 0 (Float.Finite m' e') = false).
  { intros a e Ha He Hae.
    destruct (Z.eqb_spec a 0) as [->|Hane].
    - eexists _, _. split; [reflexivity|]. split; reflexivity.
    - assert (Hla : Z.log2 a <= - e) by (apply log2_le_exponent; lia).
      destruct (Z.gtb_spec (Z.log2 a + 1 + e) 1024) as [|_]; [lia|].
      rewrite (Z.sgn_pos m) by lia. rewrite Z.mul_1_l.
      eexists _, _. split; [reflexivity|]. unfold Float.int_lt, Float.int_gt.
      destruct (Z.leb_spec 0 e) as [He0|He0].
      + assert (e = 0) by lia. subst e. cbn [Z.opp] in Hae.
        change (2 ^ 0) with 1 in *. rewrite Z.mul_1_r.
        split.
        * apply Z.ltb_ge. lia.
        * destruct (Z.gtb_spec 0 a); [lia|reflexivity].
      + rewrite Z.mul_1_l, Z.mul_0_l. split.
        * apply Z.ltb_ge. lia.
        * destruct (Z.gtb_spec 0 a); [lia|reflexivity]. }
  assert (Hsk : s <= k).
  { pose proof (log2_le_exponent m k Hk Hle). unfold s. lia. }
  destruct (Z.leb_spec s 0) as [Hs|Hs].
  - apply Hfin; try lia. now rewrite Z.opp_involutive.
  - destruct (rounded_quotient_bound m k s ltac:(lia) ltac:(lia)) as [Hq Hq0].
    apply Hfin.
    + destruct (_ || _); lia.
    + lia.
    + replace (- (- k + s)) with (k - s) by lia. exact Hq.
Qed.

(** The quotient of two non-negative integers, the first at most the
    second, is a float between 0 and 1; the division does not raise. *)
Lemma truediv_at_most_one (a b : Z) :
  0 <= a <= b -> 0 < b ->
  exists m e, Float.truediv a b = Some (Float.Finite m e)
    /\ Float.int_lt 1 (Float.Finite m e) = false
    /\ Float.int_gt 0 (Float.Finite m e) = false.
Proof.
  intros [Hnn Hle] Hb. unfold Float.truediv.
  destruct (Z.eqb_spec b 0) as [|_]; [lia|].
  rewrite (Z.abs_eq a), (Z.abs_eq b) by lia.
  set (k := Z.max 0 (Z.log2 b + 56 - Z.log2 a)).
  assert (Hk : 0 <= k) by (unfold k; lia).
  assert (HK : 0 < 2 ^ k) by (apply Z.pow_pos_nonneg; lia).
  pose proof (Z.div_mod (a * 2 ^ k) b ltac:(lia)) as Hdm.
  pose proof (Z.mod_pos_bound (a * 2 ^ k) b Hb) as Hr.
  set (q := a * 2 ^ k / b) in *. set (r := (a * 2 ^ k) mod b) in *.
  assert (Hq0 : 0 <= q) by nia.
  assert (Hq : q <= 2 ^ k) by nia.
  assert (Hm : 0 <= 2 * q + (if r =? 0 then 0 else 1) <= 2 ^ (k + 1)).
  { rewrite Z.pow_add_r by lia. change (2 ^ 1) with 2.
    destruct (Z.eqb_spec r 0) as [|Hr0]; [lia|].
    assert (q <> 2 ^ k) by nia. lia. }
  set (M := Z.sgn a * Z.sgn b * (2 * q + (if r =? 0 then 0 else 1))).
  assert (HM : 0 <= M <= 2 ^ (k + 1)).
  { unfold M. rewrite (Z.sgn_pos b) by lia.
    destruct (Z.eq_dec a 0) as [->|Ha0].
    - cbn [Z.sgn]. assert (0 < 2 ^ (k + 1)) by (apply Z.pow_pos_nonneg; lia). lia.
    - rewrite (Z.sgn_pos a) by lia. lia. }
  replace (- k - 1) with (- (k + 1)) by lia.
  destruct (round_at_most_one M (k + 1) HM ltac:(lia)) as (m' & e' & -> & H1 & H0).
  eauto.
Qed.

(** The conversion of a non-negative [int] to a float raises exactly
    from [2^1024 - 2^970] on, the least integer that rounds to [2^1024]. *)
Lemma of_int_overflow (n : Z) :
  0 <= n -> (Float.of_int n = None <-> 2 ^ 1024 - 2 ^ 970 <= n).
Proof.
  intros Hnn. unfold Float.of_int, Float.round. rewrite (Z.abs_eq n) by lia.
  destruct (Z.eq_dec n 0) as [->|Hne].
  { split; [intros Hnone; vm_compute in Hnone; discriminate Hnone|]. intros H. exfalso. revert H.
    apply Z.lt_nge. vm_compute. reflexivity. }
  assert (Hpos : 0 < n) by lia.
  destruct (Z.log2_spec n Hpos) as [Hlo Hhi].
  pose proof (Z.log2_nonneg n) as HL.
  remember (Z.log2 n) as L eqn:HLdef.
  replace (Z.max (L + 1 - 53) (-1074 - 0)) with (L - 52) by lia.
  rewrite (Z.sgn_pos n) by lia.
  destruct (Z.leb_spec (L - 52) 0) as [Hs|Hs].
  - cbv beta iota zeta. rewrite <- HLdef.
    destruct (Z.eqb_spec n 0) as [|_]; [lia|].
    destruct (Z.gtb_spec (L + 1 + 0) 1024) as [|_]; [lia|].
    cbv beta iota.
    split; [intros Hnone; discriminate Hnone|]. intros Hbig. exfalso.
    assert (2 ^ Z.succ L <= 2 ^ 53) by (apply Z.pow_le_mono_r; lia).
    assert (2 ^ 53 < 2 ^ 1024 - 2 ^ 970) by (vm_compute; reflexivity). lia.
  - cbv beta iota zeta. remember (L - 52) as s eqn:Hsdef.
    assert (HP : 0 < 2 ^ s) by (apply Z.pow_pos_nonneg; lia).
    assert (Hhalf : 2 ^ s = 2 * 2 ^ (s - 1)).
    { replace s with (1 + (s - 1)) at 1 by lia. rewrite Z.pow_add_r by lia. reflexivity. }
    assert (HL2 : 2 ^ L = 2 ^ 52 * 2 ^ s).
    { rewrite <- Z.pow_add_r by lia. f_equal. lia. }
    assert (HL3 : 2 ^ Z.succ L = 2 ^ 53 * 2 ^ s).
    { rewrite <- Z.pow_add_r by lia. f_equal. lia. }
    assert (Hmono : 971 <= s -> 2 ^ 970 <= 2 ^ (s - 1)).
    { intros H. apply Z.pow_le_mono_r; lia. }
    assert (Hlow : L <= 1022 -> 2 ^ Z.succ L <= 2 ^ 1023).
    { intros H. apply Z.pow_le_mono_r; lia. }
    assert (Hhigh : 1024 <= L -> 2 ^ 1024 <= 2 ^ L).
    { intros H. apply Z.pow_le_mono_r; lia. }
    assert (H971 : s = 971 -> 2 ^ s = 2 ^ 971 /\ 2 ^ (s - 1) = 2 ^ 970).
    { intros ->. split; reflexivity. }
    pose proof (Z.div_mod n (2 ^ s) ltac:(lia)) as Hdm.
    pose proof (Z.mod_pos_bound n (2 ^ s) HP) as Hr.
    remember (n / 2 ^ s) as q eqn:Hqdef. remember (n mod 2 ^ s) as r eqn:Hrdef.
    clear Hqdef Hrdef.
    remember (2 ^ (s - 1)) as h eqn:Hhdef. remember (2 ^ s) as P eqn:HPdef.
    clear Hhdef HPdef.
    assert (E52 : 2 ^ 52 = 4503599627370496) by reflexivity.
    assert (E53 : 2 ^ 53 = 9007199254740992) by reflexivity.
    rewrite E52, E53 in *.
    assert (Hq : 4503599627370496 <= q < 9007199254740992) by nia.
    remember ((r >? h) || ((r =? h) && Z.odd q)) as up eqn:Hupdef.
    assert (Hup : up = true -> h <= r).
    { rewrite Hupdef. intros H. apply orb_true_iff in H. destruct H as [H|H].
      - apply Z.gtb_lt in H. lia.
      - apply andb_true_iff in H. destruct H as [H _]. apply Z.eqb_eq in H. lia. }
    assert (Hup' : q = 9007199254740991 -> h <= r -> up = true).
    { intros Hq1 Hhr. rewrite Hupdef.
      destruct (Z.gtb_spec r h) as [|Hle]; [reflexivity|].
      assert (r = h) by lia. subst r. rewrite Z.eqb_refl, Hq1. reflexivity. }
    clear Hupdef.
    remember (if up then q + 1 else q) as a eqn:Hadef.
    assert (Ha : 4503599627370496 <= a <= 9007199254740992)
      by (rewrite Hadef; destruct up; lia).
    destruct (Z.eqb_spec a 0) as [|_]; [lia|].
    assert (Big : 2 ^ 1024 - 2 ^ 970 = 18014398509481983 * 2 ^ 970
                  /\ 2 ^ 1023 = 9007199254740992 * 2 ^ 970
                  /\ 2 ^ 1024 = 18014398509481984 * 2 ^ 970
                  /\ 2 ^ 971 = 2 * 2 ^ 970
                  /\ 0 < 2 ^ 970).
    { repeat split; vm_compute; reflexivity. }
    destruct Big as (Ethr & E1023 & E1024 & E971 & HB).
    rewrite Ethr. rewrite E1023 in Hlow. rewrite E1024 in Hhigh.
    rewrite E971 in H971. clear Ethr E1023 E1024 E971.
    remember (2 ^ 970) as B eqn:HBdef. clear HBdef.
    destruct (Z.eq_dec a 9007199254740992) as [Ha53|Ha53].
    + rewrite Ha53.
      replace (Z.log2 9007199254740992) with 53 by reflexivity.
      assert (Hupt : up = true /\ q = 9007199254740991).
      { rewrite Hadef in Ha53. destruct up; [split; [reflexivity|lia]|lia]. }
      destruct Hupt as [Hupt Hq1]. specialize (Hup Hupt).
      destruct (Z.gtb_spec (53 + 1 + (0 + s)) 1024) as [Hov|Hnov]; cbv beta iota.
      * split; [intros _|reflexivity].
        specialize (Hmono ltac:(lia)). nia.
      * split; [intros Hnone; discriminate Hnone|]. intros Hbig. exfalso.
        specialize (Hlow ltac:(lia)). nia.
    + assert (Hlog : Z.log2 a = 52).
      { apply Z.log2_unique; [lia|]. change (2 ^ 52) with 4503599627370496.
        change (2 ^ Z.succ 52) with 9007199254740992. lia. }
      rewrite Hlog.
      destruct (Z.gtb_spec (52 + 1 + (0 + s)) 1024) as [Hov|Hnov]; cbv beta iota.
      * split; [intros _|reflexivity].
        specialize (Hhigh ltac:(lia)). nia.
      * split; [intros Hnone; discriminate Hnone|]. intros Hbig. exfalso.
        destruct (Z.eq_dec L 1023) as [HL1023|HLlow].
        -- destruct (H971 ltac:(lia)) as [HP971 Hh970].
           rewrite HP971 in *. rewrite Hh970 in *.
           assert (Hq1 : q = 9007199254740991) by nia.
           assert (Hhr : B <= r) by nia.
           specialize (Hup' Hq1 Hhr). rewrite Hup' in Hadef. lia.
        -- specialize (Hlow ltac:(lia)). nia.
Qed.

(** The values CPython computes at the edges of the format: the least
    integer whose conversion overflows and the one before it, whose
    product by 1.5 is infinite; a quotient that is rounded and one that
    underflows to zero; a product by 1.5 that is rounded up to the number
    it is compared with. *)
Example binary64_cases :
  Float.of_int (2 ^ 1024 - 2 ^ 970) = None
  /\ (exists x, Float.of_int (2 ^ 1024 - 2 ^ 970 - 1) = Some x
               /\ Float.mul x Float.one_and_a_half = Float.Infinity false)
  /\ Float.truediv 2 3 = Some (Float.Finite 6004799503160661 (-53))
  /\ Float.truediv 1 (2 ^ 1075) = Some Float.zero
  /\ Float.mul (Float.Finite 6004799503160666 0) Float.one_and_a_half
     = Float.Finite 4503599627370500 1
  /\ Float.int_gt 9007199254741000 (Float.Finite 4503599627370500 1) = false.
Proof.
  split; [vm_compute; reflexivity|].
  split; [eexists; split; vm_compute; reflexivity|].
  repeat split; vm_compute; reflexivity.
Qed.

(** The comparison of the policy on the integers themselves: below
    [2^51] the product by 1.5 is exact, so [v > p * 1.5] is the test
    [2 * v > 3 * p]. *)
Lemma exceeds_one_and_a_half (v p : Z) :
  0 <= p < 2 ^ 51 ->
  exists as_float,
    Float.of_int p = Some as_float
    /\ Float.int_gt v (Float.mul as_float Float.one_and_a_half) = (2 * v >? 3 * p).
Proof.
  intros [Hnn Hsmall]. exists (Float.Finite p 0).
  split; [apply of_int_exact; lia|].
  unfold Float.mul, Float.one_and_a_half.
  destruct (Z.eq_dec p 0) as [->|Hne].
  - replace (Float.round (0 * 3) (0 + -1)) with (Float.Finite 0 0) by reflexivity.
    unfold Float.int_gt. change (0 <=? 0) with true. cbv iota.
    replace (0 * 2 ^ 0) with 0 by reflexivity. replace (3 * 0) with 0 by reflexivity.
    destruct (Z.gtb_spec v 0), (Z.gtb_spec (2 * v) 0); try reflexivity; lia.
  - rewrite round_exact; [|lia|lia|].
    + replace (0 + -1) with (-1) by reflexivity.
      unfold Float.int_gt. change (0 <=? -1) with false. cbv iota.
      replace (- -1) with 1 by reflexivity.
      replace (v * 2 ^ 1) with (2 * v) by lia.
      replace (p * 3) with (3 * p) by lia. reflexivity.
    + assert (Z.log2 (p * 3) < 53) by (apply Z.log2_lt_pow2; lia). lia.
Qed.

(** The decision when nothing is raised and the product is exact. *)
Lemma select_best_option_in_range
    (p vs az : list StreamAnalysis) (bv ba : StreamAnalysis) (prefer : bool) :
  head_unreadable p = false ->
  head_unreadable (bv :: vs) = false ->
  best_resolution p < 2 ^ 51 ->
  select_best_option p (bv :: vs) (ba :: az) prefer =
    let merge description :=
      {| type := "merge";
         video_stream := stream bv;
         audio_stream := Some (stream ba);
         video_itag := sa_itag bv;
         audio_itag := Some (sa_itag ba);
         estimated_size_mb := Float.add (size_mb bv) (size_mb ba);
         quality_description :=
           fmt (resolution (stream bv)) +:+ " + " +:+
           or_else (abr (stream ba)) description;
         merge_required := true |} in
    if (2 * best_resolution (bv :: vs) >? 3 * best_resolution p)
       || (best_resolution p <? 720)
    then Some (merge "High Quality Audio"%string)
    else
      match prefer, p with
      | true, bp :: _ =>
          Some {| type := "progressive";
                  video_stream := stream bp;
                  audio_stream := None;
                  video_itag := sa_itag bp;
                  audio_itag := None;
                  estimated_size_mb := size_mb bp;
                  quality_description :=
                    fmt (resolution (stream bp)) +:+ " (Progressive)";
                  merge_required := false |}
      | _, _ => Some (merge "Audio"%string)
      end.
Proof.
  intros Hp Hv Hsmall.
  assert (Hnn : 0 <= best_resolution p).
  { unfold best_resolution. destruct p; [lia|apply extract_resolution_number_nonneg]. }
  destruct (exceeds_one_and_a_half (best_resolution (bv :: vs)) (best_resolution p)
              ltac:(lia)) as (as_float & Hconv & Hcmp).
  unfold select_best_option, select_best_option_try, resolution_of.
  cbn [head_unreadable] in Hv. rewrite Hv.
  cbn [best_resolution] in Hcmp |- *. cbv zeta.
  destruct p as [|bp ps].
  - cbn [best_resolution] in Hconv, Hcmp |- *.
    rewrite Hconv, Hcmp. replace (0 <? 720) with true by reflexivity.
    rewrite orb_true_r. reflexivity.
  - cbn [head_unreadable] in Hp. cbn [best_resolution] in Hconv, Hcmp, Hsmall |- *.
    rewrite Hp, Hconv, Hcmp.
    destruct ((2 * extract_resolution_number (resolution (stream bv))
               >? 3 * extract_resolution_number (resolution (stream bp)))
              || (extract_resolution_number (resolution (stream bp)) <? 720)) eqn:Hcond;
      [reflexivity|].
    apply orb_false_iff in Hcond. destruct Hcond as [_ Hlow].
    apply Z.ltb_ge in Hlow.
    destruct prefer; [|reflexivity].
    destruct (Z.geb_spec (extract_resolution_number (resolution (stream bp))) 720)
      as [_|Hbad]; [reflexivity|lia].
Qed.

(** C1, as stated, fails where the product by 1.5 is rounded: with a
    best single-file resolution of 6004799503160666 and a best video-only
    resolution of 9007199254741000 the latter exceeds 1.5 times the
    former, yet the binary64 product equals it, the test fails, and with
    the single-file preference set the single-file plan is returned. *)
Lemma merge_not_selected_where_product_rounds :
  3 * best_resolution [analyse_progressive MoreSamples.progressive_beyond_2_53]
    < 2 * best_resolution [analyse_video MoreSamples.video_beyond_2_53]
  /\ exists plan,
       select_best_option [analyse_progressive MoreSamples.progressive_beyond_2_53]
                          [analyse_video MoreSamples.video_beyond_2_53]
                          Samples.ranked_audio_128k true = Some plan
       /\ type plan = "progressive"%string.
Proof.
  split; [vm_compute; reflexivity|].
  eexists. split; [vm_compute; reflexivity|reflexivity].
Qed.

(** C1, amended. With a top video-only and a top audio-only candidate
    whose resolution texts can be read (no run of more than 4300 digits),
    when the best video-only resolution exceeds 1.5 times the best
    single-file resolution (0 without a single-file candidate) and the
    latter is below 2^51, or the best single-file resolution is below 720,
    the selection is the merge plan pairing the two, its estimated size
    the float sum of their sizes, marked as requiring a merge. *)
Theorem merge_selected_when_clearly_better
    (progressive_streams video_rest audio_rest : list StreamAnalysis)
    (best_video best_audio : StreamAnalysis) (prefer_progressive : bool) :
  head_unreadable progressive_streams = false ->
  head_unreadable (best_video :: video_rest) = false ->
  (3 * best_resolution progressive_streams
     < 2 * best_resolution (best_video :: video_rest)
   /\ best_resolution progressive_streams < 2 ^ 51)
  \/ best_resolution progressive_streams < 720 ->
  exists plan,
    select_best_option progressive_streams (best_video :: video_rest)
                       (best_audio :: audio_rest) prefer_progressive = Some plan
    /\ type plan = "merge"%string
    /\ video_stream plan = stream best_video
    /\ audio_stream plan = Some (stream best_audio)
    /\ video_itag plan = sa_itag best_video
    /\ audio_itag plan = Some (sa_itag best_audio)
    /\ estimated_size_mb plan
       = Float.add (size_mb best_video) (size_mb best_audio)
    /\ merge_required plan = true.
Proof.
  intros Hp Hv Hbetter.
  rewrite select_best_option_in_range by (try assumption; lia).
  cbv zeta.
  assert (Hcond :
    (2 * best_resolution (best_video :: video_rest)
       >? 3 * best_resolution progressive_streams)
    || (best_resolution progressive_streams <? 720) = true).
  { apply orb_true_iff. destruct Hbetter as [[Hq _]|Hlow].
    - left. apply Z.gtb_lt. lia.
    - right. now apply Z.ltb_lt. }
  rewrite Hcond. eexists. repeat split.
Qed.

Lemma merge_selected_when_clearly_better_witness :
  exists plan,
    select_best_option Samples.ranked_progressive_480p Samples.ranked_video_1080p
                       Samples.ranked_audio_128k false = Some plan
    /\ type plan = "merge"%string.
Proof.
  destruct (merge_selected_when_clearly_better
              Samples.ranked_progressive_480p [] []
              (analyse_video Samples.video_1080p)
              (analyse_audio Samples.audio_128k) false)
    as (plan & Hsel & Hty & _).
  - reflexivity.
  - reflexivity.
  - right. vm_compute. reflexivity.
  - exists plan. split; assumption.
Defined.

(** C2, as stated, fails: with a video-only candidate but neither an
    audio-only nor a single-file one, nothing is selected although one of
    the three lists is non-empty. *)
Lemma not_found_with_nonempty_list :
  select_best_option [] Samples.ranked_video_1080p [] false = None
  /\ Samples.ranked_video_1080p <> [].
Proof. split; [reflexivity | discriminate]. Qed.

(** An overflow inside the [try] ends in [None] although all three lists
    hold a candidate. *)
Example selection_finds_nothing_on_overflow :
  select_best_option [analyse_progressive MoreSamples.progressive_beyond_float]
                     Samples.ranked_video_1080p Samples.ranked_audio_128k false
  = None
  /\ Float.of_int
       (best_resolution [analyse_progressive MoreSamples.progressive_beyond_float])
     = None.
Proof. split; vm_compute; reflexivity. Qed.

(** When the selection finds nothing: for want of candidates, or
    because something was raised inside its [try]. *)
Lemma select_best_option_none
    (progressive_streams video_streams audio_streams : list StreamAnalysis)
    (prefer_progressive : bool) :
  select_best_option progressive_streams video_streams audio_streams
                     prefer_progressive = None
  <-> (progressive_streams = [] /\ (video_streams = [] \/ audio_streams = []))
      \/ (video_streams <> [] /\ audio_streams <> []
          /\ (head_unreadable progressive_streams = true
              \/ head_unreadable video_streams = true
              \/ Float.of_int (best_resolution progressive_streams) = None))
      \/ ((video_streams = [] \/ audio_streams = [])
          /\ prefer_progressive = true
          /\ head_unreadable progressive_streams = true).
Proof.
  unfold select_best_option, select_best_option_try, resolution_of,
    head_unreadable, best_resolution.
  destruct progressive_streams as [|p ps], video_streams as [|v vs],
           audio_streams as [|a az], prefer_progressive;
    repeat match goal with
           | |- context [if ?c then _ else _] => destruct c eqn:?
           | |- context [match Float.of_int ?n with _ => _ end] =>
               destruct (Float.of_int n) eqn:?
           end;
    split; try discriminate; try tauto; intros; try reflexivity;
    repeat match goal with
           | H : _ \/ _ |- _ => destruct H
           | H : _ /\ _ |- _ => destruct H
           end;
    try discriminate; try congruence;
    try (right; left; repeat split; try discriminate; tauto);
    try (right; right; repeat split; tauto).
Qed.

(** C2, amended. The selection finds nothing exactly when there is no
    single-file candidate and the video-only or the audio-only list is
    empty, or when an exception is raised inside its [try], which the
    handler turns into [None]: with both a video-only and an audio-only
    candidate, when the resolution text of the best single-file or of the
    best video-only stream cannot be read (a run of more than 4300
    digits) or the best single-file resolution is [2^1024 - 2^970] or
    more, too large to become a float; without such a pair, when the
    single-file preference is set and the resolution text of the best
    single-file stream cannot be read. In every other case it returns a
    plan. *)
Theorem not_found_iff_no_candidates_or_exception
    (progressive_streams video_streams audio_streams : list StreamAnalysis)
    (prefer_progressive : bool) :
  select_best_option progressive_streams video_streams audio_streams
                     prefer_progressive = None
  <-> (progressive_streams = [] /\ (video_streams = [] \/ audio_streams = []))
      \/ (video_streams <> [] /\ audio_streams <> []
          /\ (head_unreadable progressive_streams = true
              \/ head_unreadable video_streams = true
              \/ 2 ^ 1024 - 2 ^ 970 <= best_resolution progressive_streams))
      \/ ((video_streams = [] \/ audio_streams = [])
          /\ prefer_progressive = true
          /\ head_unreadable progressive_streams = true).
Proof.
  rewrite select_best_option_none.
  assert (Hnn : 0 <= best_resolution progressive_streams).
  { unfold best_resolution.
    destruct progressive_streams; [lia|apply extract_resolution_number_nonneg]. }
  rewrite (of_int_overflow _ Hnn). reflexivity.
Qed.






End SelectionProperties.

(* ====================================================================== *)
(** * Properties of the bounded TTL cache *)
(* ====================================================================== *)

Section CacheProperties.
Import Cache.
Context {V : Type}.
Implicit Types (d : Store V) (c : CacheManager V) (e : CacheEntry V).
Implicit Types (key k : string).

Lemma dict_lookup_del d key k :
  dict_lookup (dict_del d key) k =
    if String.eqb key k then None else dict_lookup d k.
Proof.
  unfold dict_del.
  induction d as [|[k0 e0] rest IH]; simpl.
  - now destruct (String.eqb key k).
  - destruct (String.eqb_spec k0 key) as [->|Hne]; simpl.
    + rewrite IH. destruct (String.eqb_spec key k) as [->|Hk]; [reflexivity|].
      reflexivity.
    + rewrite IH. destruct (String.eqb_spec k0 k) as [->|Hk0].
      * destruct (String.eqb_spec key k) as [->|_]; [congruence|reflexivity].
      * reflexivity.
Qed.

Lemma dict_lookup_del_same d key : dict_lookup (dict_del d key) key = None.
Proof. rewrite dict_lookup_del. now rewrite String.eqb_refl. Qed.

Lemma dict_lookup_del_other d key k :
  key <> k -> dict_lookup (dict_del d key) k = dict_lookup d k.
Proof.
  intros Hne. rewrite dict_lookup_del.
  destruct (String.eqb_spec key k); [contradiction|reflexivity].
Qed.

(** The three branches of [get], as equations. *)
Lemma get_hit (now : Z) key c e :
  dict_lookup (_cache c) key = Some e ->
  now - timestamp e < ttl c ->
  get now key c = (with_stats c (incr_hits (_stats c)), Some (data e)).
Proof.
  intros He Hage. unfold get. rewrite He.
  destruct (Z.ltb_spec (now - timestamp e) (ttl c)); [reflexivity|lia].
Qed.

Lemma get_expired (now : Z) key c e :
  dict_lookup (_cache c) key = Some e ->
  ttl c <= now - timestamp e ->
  get now key c =
    (with_stats (with_cache c (dict_del (_cache c) key)) (incr_misses (_stats c)),
     None).
Proof.
  intros He Hage. unfold get. rewrite He.
  destruct (Z.ltb_spec (now - timestamp e) (ttl c)); [lia|reflexivity].
Qed.

Lemma get_absent (now : Z) key c :
  dict_lookup (_cache c) key = None ->
  get now key c = (with_stats c (incr_misses (_stats c)), None).
Proof. intros He. unfold get. now rewrite He. Qed.

(** C6. [get] on a present key younger than [ttl] returns the stored
    value, counts one hit and changes nothing else; on a present key of
    age [ttl] or more it removes the entry, counts one miss and returns
    a miss; on an absent key it counts one miss and returns a miss. *)
Theorem get_hit_expired_or_absent (now : Z) key c :
  (forall e, dict_lookup (_cache c) key = Some e ->
             now - timestamp e < ttl c ->
     (get now key c).2 = Some (data e)
     /\ hits (_stats (get now key c).1) = hits (_stats c) + 1
     /\ misses (_stats (get now key c).1) = misses (_stats c)
     /\ _cache (get now key c).1 = _cache c)
  /\
  (forall e, dict_lookup (_cache c) key = Some e ->
             ttl c <= now - timestamp e ->
     (get now key c).2 = None
     /\ misses (_stats (get now key c).1) = misses (_stats c) + 1
     /\ hits (_stats (get now key c).1) = hits (_stats c)
     /\ dict_lookup (_cache (get now key c).1) key = None
     /\ forall k, k <> key ->
          dict_lookup (_cache (get now key c).1) k = dict_lookup (_cache c) k)
  /\
  (dict_lookup (_cache c) key = None ->
     (get now key c).2 = None
     /\ misses (_stats (get now key c).1) = misses (_stats c) + 1
     /\ hits (_stats (get now key c).1) = hits (_stats c)
     /\ _cache (get now key c).1 = _cache c).
Proof.
  split; [|split].
  - intros e He Hage. rewrite (get_hit now key c e He Hage). repeat split.
  - intros e He Hage. rewrite (get_expired now key c e He Hage). simpl.
    repeat split.
    + apply dict_lookup_del_same.
    + intros k Hk. apply dict_lookup_del_other. congruence.
  - intros He. rewrite (get_absent now key c He). repeat split.
Qed.

Lemma dict_lookup_In d key e : dict_lookup d key = Some e -> In (key, e) d.
Proof.
  induction d as [|[k0 e0] rest IH]; simpl; [discriminate|].
  destruct (String.eqb_spec k0 key) as [->|Hne].
  - intros [= ->]. now left.
  - intros H. right. now apply IH.
Qed.

Lemma dict_lookup_None d key : dict_lookup d key = None <-> ~ In key (dict_keys d).
Proof.
  induction d as [|[k0 e0] rest IH]; simpl; [tauto|].
  destruct (String.eqb_spec k0 key) as [->|Hne].
  - split; [discriminate|]. intros H. exfalso. apply H. now left.
  - rewrite IH. tauto.
Qed.

Lemma In_dict_lookup d key e :
  NoDup (dict_keys d) -> In (key, e) d -> dict_lookup d key = Some e.
Proof.
  induction d as [|[k0 e0] rest IH]; simpl; [tauto|].
  intros Hnd Hin. inversion Hnd as [|? ? Hfresh Hrest]; subst.
  destruct Hin as [[= -> ->]|Hin].
  - now rewrite String.eqb_refl.
  - destruct (String.eqb_spec k0 key) as [->|Hne]; [|now apply IH].
    exfalso. apply Hfresh. apply list_elem_of_In.
    apply (in_map fst) in Hin. exact Hin.
Qed.

Lemma fold_dict_del_lookup (keys : list string) d k :
  dict_lookup (fold_left dict_del keys d) k =
    if existsb (fun key => String.eqb key k) keys then None else dict_lookup d k.
Proof.
  revert d. induction keys as [|key keys IH]; intros d; simpl; [reflexivity|].
  rewrite IH, dict_lookup_del.
  destruct (String.eqb key k); simpl; [|reflexivity].
  now destruct (existsb _ keys).
Qed.

Lemma cleanup_expired_cache (now : Z) c :
  _cache (cleanup_expired now c).1 =
    fold_left dict_del
      (dict_keys (List.filter (is_expired now (ttl c)) (_cache c))) (_cache c)
  /\ ttl (cleanup_expired now c).1 = ttl c
  /\ misses (_stats (cleanup_expired now c).1) = misses (_stats c)
  /\ hits (_stats (cleanup_expired now c).1) = hits (_stats c).
Proof.
  unfold cleanup_expired.
  destruct (dict_keys (List.filter (is_expired now (ttl c)) (_cache c)));
    repeat split.
Qed.

(** An entry survives the sweep exactly when its age is at most [ttl]. *)
Lemma cleanup_expired_keeps (now : Z) c key e :
  NoDup (dict_keys (_cache c)) ->
  dict_lookup (_cache c) key = Some e ->
  now - timestamp e <= ttl c ->
  dict_lookup (_cache (cleanup_expired now c).1) key = Some e.
Proof.
  intros Hnd He Hage.
  destruct (cleanup_expired_cache now c) as (-> & _).
  rewrite fold_dict_del_lookup.
  destruct (existsb _ _) eqn:Hex; [exfalso|exact He].
  apply existsb_exists in Hex. destruct Hex as (k' & Hin & Hk').
  apply String.eqb_eq in Hk'. subst k'.
  unfold dict_keys in Hin. apply in_map_iff in Hin.
  destruct Hin as ([k0 e0] & Hk0 & Hin0). simpl in Hk0. subst k0.
  apply filter_In in Hin0. destruct Hin0 as [Hin0 Hexp].
  rewrite (In_dict_lookup _ _ _ Hnd Hin0) in He. injection He as ->.
  unfold is_expired in Hexp. simpl in Hexp.
  apply Z.gtb_lt in Hexp. lia.
Qed.

(** C10. The two expiry paths disagree at the boundary: an entry whose
    age equals [ttl] survives [cleanup_expired], yet the next [get] on its
    key at that same instant removes it and counts a miss. *)
Theorem expiry_boundary_disagrees (now : Z) c key e :
  NoDup (dict_keys (_cache c)) ->
  dict_lookup (_cache c) key = Some e ->
  now - timestamp e = ttl c ->
  let swept := (cleanup_expired now c).1 in
  dict_lookup (_cache swept) key = Some e
  /\ (get now key swept).2 = None
  /\ misses (_stats (get now key swept).1) = misses (_stats swept) + 1
  /\ hits (_stats (get now key swept).1) = hits (_stats swept)
  /\ dict_lookup (_cache (get now key swept).1) key = None.
Proof.
  intros Hnd He Hage swept.
  assert (Hkept : dict_lookup (_cache swept) key = Some e).
  { apply cleanup_expired_keeps; [assumption..|lia]. }
  split; [exact Hkept|].
  assert (Httl : ttl swept = ttl c) by apply cleanup_expired_cache.
  rewrite (get_expired now key swept e Hkept) by lia. simpl.
  repeat split. apply dict_lookup_del_same.
Qed.

Lemma dict_lookup_app d1 d2 key :
  dict_lookup (d1 ++ d2) key =
    match dict_lookup d1 key with
    | Some e => Some e
    | None => dict_lookup d2 key
    end.
Proof.
  induction d1 as [|[k0 e0] rest IH]; simpl; [reflexivity|].
  now destruct (String.eqb k0 key).
Qed.

(** Storing under a key the dictionary does not hold appends the entry. *)
Lemma dict_store_fresh d key e :
  dict_lookup d key = None -> dict_store d key e = d ++ [(key, e)].
Proof.
  induction d as [|[k0 e0] rest IH]; simpl; [reflexivity|].
  destruct (String.eqb k0 key); [discriminate|].
  intros H. now rewrite IH.
Qed.

Lemma dict_store_length d key e :
  (length (dict_store d key e) <= S (length d))%nat.
Proof.
  induction d as [|[k0 e0] rest IH]; simpl; [lia|].
  destruct (String.eqb k0 key); simpl; lia.
Qed.

Lemma dict_del_length_lt d key :
  In key (dict_keys d) -> (length (dict_del d key) < length d)%nat.
Proof.
  unfold dict_del.
  induction d as [|[k0 e0] rest IH]; simpl; [tauto|].
  intros [->|Hin].
  - rewrite String.eqb_refl. simpl.
    pose proof (List.filter_length_le
                  (fun kv : string * CacheEntry V => negb (String.eqb kv.1 key)) rest).
    lia.
  - specialize (IH Hin). destruct (String.eqb k0 key); simpl; lia.
Qed.

Lemma dict_del_absent d key :
  ~ In key (dict_keys d) -> dict_del d key = d.
Proof.
  unfold dict_del.
  induction d as [|[k0 e0] rest IH]; simpl; [reflexivity|].
  intros Hnot. destruct (String.eqb_spec k0 key) as [->|Hne]; simpl.
  - exfalso. apply Hnot. now left.
  - rewrite IH; [reflexivity|]. intros Hin. apply Hnot. now right.
Qed.

(** Deleting a key of a well-formed dictionary removes exactly one entry. *)
Lemma dict_del_length d key :
  NoDup (dict_keys d) -> In key (dict_keys d) ->
  S (length (dict_del d key)) = length d.
Proof.
  induction d as [|[k0 e0] rest IH]; simpl; [tauto|].
  intros Hnd Hin. apply NoDup_cons in Hnd. destruct Hnd as [Hfresh Hnd].
  unfold dict_del. simpl.
  destruct (String.eqb_spec k0 key) as [->|Hne]; simpl.
  - fold (dict_del rest key). rewrite dict_del_absent; [reflexivity|].
    intros H. apply Hfresh. now apply list_elem_of_In.
  - fold (dict_del rest key). f_equal. apply IH; [assumption|].
    destruct Hin as [Heq|Hin]; [contradiction|assumption].
Qed.

(** [min] returns the key of an entry of the dictionary whose timestamp
    no other entry undercuts. *)
Lemma min_from_spec (best : string * CacheEntry V) (rest : Store V) :
  exists x, In x (best :: rest) /\ x.1 = min_from best rest
            /\ forall y, In y (best :: rest) -> timestamp x.2 <= timestamp y.2.
Proof.
  revert best. induction rest as [|a rest IH]; intros best; simpl.
  - exists best. repeat split; [now left|]. intros y [<-|[]]. lia.
  - destruct (Z.ltb_spec (timestamp a.2) (timestamp best.2)) as [Hlt|Hge].
    + destruct (IH a) as (x & Hin & Hkey & Hmin).
      exists x. split; [now right|]. split; [exact Hkey|].
      intros y [<-|Hy]; [|now apply Hmin].
      specialize (Hmin a (or_introl eq_refl)). lia.
    + destruct (IH best) as (x & Hin & Hkey & Hmin).
      exists x. split.
      { destruct Hin as [<-|Hin]; [now left|right; now right]. }
      split; [exact Hkey|].
      intros y [<-|[<-|Hy]].
      * apply Hmin. now left.
      * specialize (Hmin best (or_introl eq_refl)). lia.
      * apply Hmin. now right.
Qed.

(** One [set] keeps a cache of positive capacity within its capacity. *)
Lemma set_within_capacity (now : Z) key (v : V) c :
  1 <= max_size c -> size c <= max_size c ->
  size (set now key v c) <= max_size c
  /\ max_size (set now key v c) = max_size c
  /\ ttl (set now key v c) = ttl c.
Proof.
  unfold size, set. intros Hpos Hsize.
  destruct (Z.geb_spec (Z.of_nat (length (_cache c))) (max_size c)) as [Hfull|Hroom].
  - unfold _evict_oldest.
    destruct (_cache c) as [|first rest] eqn:Hd; simpl in *; [lia|].
    repeat split.
    destruct (min_from_spec first rest) as (x & Hin & Hkey & _).
    pose proof (dict_del_length_lt (first :: rest) (min_from first rest)) as Hlt.
    rewrite <- Hkey in Hlt. specialize (Hlt (in_map fst _ _ Hin)).
    rewrite Hkey in Hlt.
    pose proof (dict_store_length
                  (dict_del (first :: rest) (min_from first rest)) key
                  {| timestamp := now; data := v |}).
    simpl in *. lia.
  - simpl. repeat split.
    pose proof (dict_store_length (_cache c) key {| timestamp := now; data := v |}).
    lia.
Qed.

(** Every run of [set] from a fresh cache of positive capacity stays
    within the capacity. *)
Lemma set_all_within_capacity (ops : list (SetCall V)) c :
  1 <= max_size c -> size c <= max_size c ->
  size (set_all ops c) <= max_size c /\ max_size (set_all ops c) = max_size c.
Proof.
  revert c. induction ops as [|op ops IH]; intros c Hpos Hsize; simpl.
  - split; [assumption|reflexivity].
  - destruct (set_within_capacity (call_time op) (call_key op) (call_value op)
                c Hpos Hsize) as (Hs & Hm & _).
    destruct (IH (set (call_time op) (call_key op) (call_value op) c))
      as (Hs' & Hm'); [lia..|].
    unfold set_all in *. split; lia.
Qed.

Lemma dict_keys_items (ops : list (SetCall V)) :
  dict_keys (map call_item ops) = map call_key ops.
Proof. unfold dict_keys. rewrite map_map. reflexivity. Qed.

(** While there is room, a run of [set] calls on distinct new keys
    appends its entries in order and evicts nothing. *)
Lemma set_all_below_capacity (ops : list (SetCall V)) c :
  NoDup (dict_keys (_cache c) ++ map call_key ops) ->
  Z.of_nat (length (_cache c) + length ops) <= max_size c ->
  _cache (set_all ops c) = _cache c ++ map call_item ops
  /\ max_size (set_all ops c) = max_size c
  /\ ttl (set_all ops c) = ttl c
  /\ hits (_stats (set_all ops c)) = hits (_stats c)
  /\ misses (_stats (set_all ops c)) = misses (_stats c)
  /\ evictions (_stats (set_all ops c)) = evictions (_stats c).
Proof.
  revert c. induction ops as [|op ops IH]; intros c Hnd Hlen.
  - simpl. rewrite app_nil_r. repeat split.
  - cbn [set_all fold_left].
    set (c' := set (call_time op) (call_key op) (call_value op) c).
    assert (Hfresh : dict_lookup (_cache c) (call_key op) = None).
    { apply dict_lookup_None. intros Hin.
      apply NoDup_app in Hnd. destruct Hnd as (_ & Hdisj & _).
      apply (Hdisj (call_key op)); [now apply list_elem_of_In|].
      simpl. apply list_elem_of_here. }
    assert (Hc' : _cache c' = _cache c ++ [call_item op]
                  /\ max_size c' = max_size c /\ ttl c' = ttl c
                  /\ hits (_stats c') = hits (_stats c)
                  /\ misses (_stats c') = misses (_stats c)
                  /\ evictions (_stats c') = evictions (_stats c)).
    { unfold c', set.
      destruct (Z.geb_spec (Z.of_nat (length (_cache c))) (max_size c)) as [Hfull|_].
      - simpl in Hlen. lia.
      - simpl. rewrite (dict_store_fresh _ _ _ Hfresh). repeat split. }
    destruct Hc' as (Hcache & Hmax & Httl & Hh & Hm & Hev).
    destruct (IH c') as (IHc & IHm & IHt & IHh & IHmi & IHe).
    + rewrite Hcache. unfold dict_keys. rewrite map_app. simpl.
      rewrite <- app_assoc. exact Hnd.
    + rewrite Hcache, Hmax, length_app. simpl in *. lia.
    + fold (set_all ops c'). rewrite IHc, Hcache, <- app_assoc. simpl.
      repeat split; congruence.
Qed.

(** [set] never touches the hit and miss counters. *)
Lemma set_keeps_hits_and_misses (now : Z) key (v : V) c :
  hits (_stats (set now key v c)) = hits (_stats c)
  /\ misses (_stats (set now key v c)) = misses (_stats c).
Proof.
  unfold set, _evict_oldest.
  destruct (_ >=? _); [destruct (_cache c)|]; split; reflexivity.
Qed.

Lemma dict_lookup_store d key e k :
  dict_lookup (dict_store d key e) k =
    if String.eqb key k then Some e else dict_lookup d k.
Proof.
  induction d as [|[k0 e0] rest IH]; simpl.
  - reflexivity.
  - destruct (String.eqb_spec k0 key) as [->|Hne]; simpl.
    + now destruct (String.eqb key k).
    + rewrite IH. destruct (String.eqb_spec k0 k) as [->|Hk0]; [|reflexivity].
      destruct (String.eqb_spec key k); [congruence|reflexivity].
Qed.

(** Below capacity, overwriting replaces the entry of the key and leaves
    every other key as it was. *)
Lemma overwrite_below_capacity_keeps_others (now : Z) key (v : V) c :
  size c < max_size c ->
  dict_lookup (_cache (set now key v c)) key = Some {| timestamp := now; data := v |}
  /\ forall k, k <> key ->
       dict_lookup (_cache (set now key v c)) k = dict_lookup (_cache c) k.
Proof.
  intros Hroom. unfold set, size in *.
  destruct (Z.geb_spec (Z.of_nat (length (_cache c))) (max_size c)); [lia|].
  simpl. split.
  - rewrite dict_lookup_store. now rewrite String.eqb_refl.
  - intros k Hk. rewrite dict_lookup_store.
    destruct (String.eqb_spec key k); [congruence|reflexivity].
Qed.

(** C5, amended. On a cache of capacity [max_size >= 1], storing
    [max_size + 1] distinct keys leaves exactly [max_size] entries: every
    key is present with its own entry except one, and the evicted one had
    the smallest insertion timestamp among the [max_size] entries stored
    when the last key arrived (the smallest of all when the last reading
    of the clock is not behind the earlier ones). No run of [set] on such
    a cache ever leaves more than [max_size] entries. *)
Theorem capacity_eviction_removes_oldest
    (ttl0 max_size0 : Z) (ops : list (SetCall V)) (last : SetCall V) :
  1 <= max_size0 ->
  Z.of_nat (length ops) = max_size0 ->
  NoDup (map call_key (ops ++ [last])) ->
  let c := set_all (ops ++ [last]) (init ttl0 max_size0) in
  size c = max_size0
  /\ (exists oldest,
        In oldest ops
        /\ (forall op, In op ops -> call_time oldest <= call_time op)
        /\ ((forall op, In op ops -> call_time op <= call_time last) ->
            call_time oldest <= call_time last)
        /\ dict_lookup (_cache c) (call_key oldest) = None
        /\ forall op, In op (ops ++ [last]) -> call_key op <> call_key oldest ->
             dict_lookup (_cache c) (call_key op) = Some (call_entry op))
  /\ (forall calls : list (SetCall V),
        size (set_all calls (init ttl0 max_size0)) <= max_size0).
Proof.
  intros Hpos Hlen Hnd c.
  rewrite map_app in Hnd. simpl in Hnd.
  apply NoDup_app in Hnd. destruct Hnd as (Hnd_ops & Hdisj & _).
  assert (Hlast_fresh : ~ In (call_key last) (map call_key ops)).
  { intros Hin. apply (Hdisj (call_key last)).
    - now apply list_elem_of_In.
    - apply list_elem_of_here. }
  destruct (set_all_below_capacity ops (init ttl0 max_size0))
    as (Hcache & Hmax & _); simpl; [assumption|lia|].
  simpl in Hcache.
  remember (map call_item ops) as d eqn:Hdef.
  assert (Hlen_d : length d = length ops) by (rewrite Hdef; apply length_map).
  assert (Hkeys_d : dict_keys d = map call_key ops).
  { rewrite Hdef. apply dict_keys_items. }
  assert (Hnd_d : NoDup (dict_keys d)) by now rewrite Hkeys_d.
  (* the last call finds the cache full and evicts *)
  assert (Hc : c = set (call_time last) (call_key last) (call_value last)
                       (set_all ops (init ttl0 max_size0))).
  { unfold c, set_all. now rewrite fold_left_app. }
  assert (Hd : exists first rest, d = first :: rest).
  { destruct d as [|first rest]; [simpl in Hlen_d; lia|eauto]. }
  destruct Hd as (first & rest & Hd).
  destruct (min_from_spec first rest) as (x & Hin & Hkey & Hmin).
  rewrite <- Hd in Hin, Hmin.
  assert (Hx : exists oldest, In oldest ops /\ call_item oldest = x).
  { rewrite Hdef in Hin. apply in_map_iff in Hin.
    destruct Hin as (o & Ho & Hino). eauto. }
  destruct Hx as (oldest & Hold_in & Hold).
  assert (Hxkey : call_key oldest = min_from first rest).
  { rewrite <- Hkey, <- Hold. reflexivity. }
  assert (Hlast_none : dict_lookup d (call_key last) = None).
  { apply dict_lookup_None. now rewrite Hkeys_d. }
  assert (Hfinal : _cache c =
                   dict_del d (call_key oldest) ++ [call_item last]).
  { rewrite Hc. unfold set at 1. simpl in Hmax. rewrite Hmax, Hcache, Hlen_d.
    destruct (Z.geb_spec (Z.of_nat (length ops)) max_size0) as [_|Hlt]; [|lia].
    unfold _evict_oldest. rewrite Hcache, Hd.
    cbn [_cache with_cache with_stats].
    rewrite <- Hd, <- Hxkey.
    apply dict_store_fresh.
    rewrite dict_lookup_del.
    now destruct (String.eqb (call_key oldest) (call_key last)). }
  split; [|split].
  - unfold size. rewrite Hfinal, length_app. simpl.
    pose proof (dict_del_length d (call_key oldest) Hnd_d) as Hdel.
    assert (Hink : In (call_key oldest) (dict_keys d)).
    { rewrite Hkeys_d. now apply in_map. }
    specialize (Hdel Hink). lia.
  - exists oldest. split; [exact Hold_in|]. split; [|split; [|split]].
    + intros op Hop.
      specialize (Hmin (call_item op)).
      rewrite <- Hold in Hmin. simpl in Hmin. apply Hmin.
      rewrite Hdef. now apply in_map.
    + intros Hclock. now apply Hclock.
    + rewrite Hfinal, dict_lookup_app, dict_lookup_del_same. simpl.
      destruct (String.eqb_spec (call_key last) (call_key oldest)) as [Heq|_];
        [|reflexivity].
      exfalso. apply Hlast_fresh. rewrite Heq. now apply in_map.
    + intros op Hop Hne.
      rewrite Hfinal, dict_lookup_app.
      apply in_app_iff in Hop. destruct Hop as [Hop|[<-|[]]].
      * rewrite dict_lookup_del_other by congruence.
        rewrite (In_dict_lookup d (call_key op) (call_entry op) Hnd_d);
          [reflexivity|].
        rewrite Hdef. apply in_map_iff. exists op. split; [reflexivity|assumption].
      * rewrite dict_lookup_del_other by congruence.
        rewrite Hlast_none. simpl. now rewrite String.eqb_refl.
  - intros calls.
    destruct (set_all_within_capacity calls (init ttl0 max_size0)) as (Hs & _);
      simpl; [assumption| unfold size; simpl; lia |].
    exact Hs.
Qed.

End CacheProperties.

Section CacheExamples.
Import Cache.

Lemma capacity_eviction_removes_oldest_witness :
  size (set_all [(1, "a"%string, 10); (2, "b"%string, 20); (3, "c"%string, 30)]
                (init 300 2)) = 2.
Proof.
  apply (proj1 (capacity_eviction_removes_oldest 300 2
                  [(1, "a"%string, 10); (2, "b"%string, 20)]
                  (3, "c"%string, 30)
                  ltac:(lia) eq_refl ltac:(compute_done))).
Defined.

(** C5, as stated, fails for a cache of capacity 0: [_evict_oldest] finds
    nothing to evict, the entry is stored all the same, and one distinct
    key leaves one entry, more than the capacity. *)
Lemma zero_capacity_cache_exceeds_capacity :
  let calls : list (SetCall Z) := [(1, "a"%string, 10)] in
  let c := set_all calls (init 300 0) in
  Z.of_nat (length calls) = max_size c + 1
  /\ size c = 1
  /\ max_size c < size c.
Proof. vm_compute. repeat split. Qed.

Lemma get_hit_expired_or_absent_witness :
  (get 100 "a" Samples.two_entries).2 = Some 10
  /\ (get 301 "a" Samples.two_entries).2 = None
  /\ (get 100 "zz" Samples.two_entries).2 = None.
Proof.
  destruct (get_hit_expired_or_absent 100 "a" Samples.two_entries)
    as (Hhit & _ & _).
  destruct (get_hit_expired_or_absent 301 "a" Samples.two_entries)
    as (_ & Hexpired & _).
  destruct (get_hit_expired_or_absent 100 "zz" Samples.two_entries)
    as (_ & _ & Habsent).
  split; [|split].
  - apply (Hhit Samples.entry_a); vm_compute; reflexivity.
  - apply (Hexpired Samples.entry_a); vm_compute; [reflexivity|discriminate].
  - apply Habsent. reflexivity.
Defined.

Lemma expiry_boundary_disagrees_witness :
  dict_lookup (_cache (cleanup_expired 301 Samples.two_entries).1) "a"
    = Some Samples.entry_a
  /\ (get 301 "a" (cleanup_expired 301 Samples.two_entries).1).2 = None.
Proof.
  destruct (expiry_boundary_disagrees 301 Samples.two_entries "a" Samples.entry_a)
    as (Hkept & Hmiss & _).
  - compute_done.
  - reflexivity.
  - reflexivity.
  - split; assumption.
Defined.

(** C4. Overwriting a key the cache already holds must not evict any
    other entry, also at capacity. The code does evict: [set] tests only
    [len(self._cache) >= self.max_size], not whether the key is present,
    so on the full cache holding ["a"] and ["b"], [set("b", 21)] removes
    ["a"] and leaves one entry. The hit and miss counters stay as they
    were. *)
Theorem overwrite_at_capacity_evicts_another_entry :
  let c := Samples.two_entries in
  let c' := set 3 "b" 21 c in
  size c = max_size c
  /\ dict_lookup (_cache c) "a" = Some Samples.entry_a
  /\ dict_contains (_cache c) "b" = true
  /\ dict_lookup (_cache c') "a" = None
  /\ dict_lookup (_cache c') "b" = Some {| timestamp := 3; data := 21 |}
  /\ size c' = 1
  /\ evictions (_stats c') = evictions (_stats c) + 1
  /\ hits (_stats c') = hits (_stats c)
  /\ misses (_stats c') = misses (_stats c).
Proof. vm_compute. repeat split. Qed.

End CacheExamples.

(* ====================================================================== *)
(** * Properties of the merge service and of the download pipeline *)
(* ====================================================================== *)

Section MergeProperties.
Import OS FFmpegService.
Variable env : Env.

(** C7. Once the tool can be started (an executable is known and both
    inputs exist), [merge_video_audio] returns the output path exactly
    when the tool exits with code zero and the output file exists and is
    not empty; a non-zero exit code, a missing or empty output, an
    expired timeout or a tool that cannot be run each raise [MergeError];
    on timeout the tool process has been killed and no path is returned. *)
Theorem merge_returns_iff_tool_succeeds
    (self : FFmpegService) (executable video_path audio_path output_path : string)
    (cleanup_temp : bool) (video_codec audio_codec : string) (w : World) :
  _ffmpeg_executable self = Some executable ->
  path_exists w video_path = true ->
  path_exists w audio_path = true ->
  let cmd := merge_command executable video_path audio_path
                           video_codec audio_codec output_path in
  let started := log (EvSpawn cmd)
                     (log (EvMergeCalled video_path audio_path output_path) w) in
  let outcome := run_tool env cmd started in
  let result := merge_video_audio env self video_path audio_path output_path
                                  cleanup_temp video_codec audio_codec w in
  (forall p, result.2 = inr p <->
     p = output_path
     /\ exists err fs, outcome = Completed 0 err fs
          /\ path_exists (with_files w fs) output_path = true
          /\ getsize (with_files w fs) output_path <> 0)
  /\ (forall code err fs, outcome = Completed code err fs ->
        code <> 0
        \/ path_exists (with_files w fs) output_path = false
        \/ getsize (with_files w fs) output_path = 0 ->
        exists m, result.2 = inl (MergeError m))
  /\ (forall fs, outcome = TimedOut fs ->
        (exists m, result.2 = inl (MergeError m))
        /\ In (EvKill cmd) (trace result.1)
        /\ forall p, result.2 <> inr p)
  /\ (forall text, outcome = RunRaises text ->
        exists m, result.2 = inl (MergeError m)).
Proof.
  intros Hexe Hvideo Haudio cmd started outcome result.
  assert (Hres : result =
    match outcome with
    | Completed code err fs =>
        if negb (code =? 0) then
          (with_files started fs,
           inl (MergeError ("Merge failed: " +:+ ("FFmpeg merge failed: " +:+ err))))
        else if negb (path_exists (with_files w fs) output_path)
                || (getsize (with_files w fs) output_path =? 0) then
          (with_files started fs,
           inl (MergeError ("Merge failed: " +:+
                            "Output file was not created or is empty")))
        else
          ((if cleanup_temp
            then _cleanup_files env [video_path; audio_path] (with_files started fs)
            else with_files started fs), inr output_path)
    | TimedOut fs =>
        (log (EvKill cmd) (with_files started fs),
         inl (MergeError ("FFmpeg merge timed out after " +:+
                          Py.str (timeout self) +:+ " seconds")))
    | RunRaises text =>
        (started, inl (MergeError ("Merge failed: " +:+ text)))
    end).
  { unfold result, merge_video_audio. rewrite Hexe.
    change (path_exists (log (EvMergeCalled video_path audio_path output_path) w)
              video_path) with (path_exists w video_path).
    change (path_exists (log (EvMergeCalled video_path audio_path output_path) w)
              audio_path) with (path_exists w audio_path).
    rewrite Hvideo, Haudio. cbn [negb].
    unfold subprocess_run. fold cmd. fold started. fold outcome.
    destruct outcome as [code err fs|fs|text]; reflexivity. }
  rewrite Hres. clear Hres.
  split; [|split; [|split]].
  - intros p. destruct outcome as [code err fs|fs|text].
    + destruct (Z.eqb_spec code 0) as [->|Hcode]; cbn [negb].
      * destruct (path_exists (with_files w fs) output_path) eqn:Hex; cbn [negb orb].
        -- destruct (Z.eqb_spec (getsize (with_files w fs) output_path) 0)
             as [Hsz|Hsz]; cbn [snd].
           ++ split; [discriminate|].
              intros (_ & err' & fs' & [= <- <-] & _ & Hne). contradiction.
           ++ split.
              ** intros [= <-]. split; [reflexivity|]. eauto.
              ** intros (-> & _). reflexivity.
        -- cbn [snd]. split; [discriminate|].
           intros (_ & err' & fs' & [= <- <-] & Hex' & _). congruence.
      * cbn [snd]. split; [discriminate|].
        intros (_ & err' & fs' & [= Hc _ _] & _). contradiction.
    + cbn [snd]. split; [discriminate|].
      intros (_ & err' & fs' & Hbad & _). discriminate.
    + cbn [snd]. split; [discriminate|].
      intros (_ & err' & fs' & Hbad & _). discriminate.
  - intros code err fs Hout Hbad. rewrite Hout.
    destruct (Z.eqb_spec code 0) as [->|Hcode]; cbn [negb]; [|eauto].
    destruct Hbad as [Hbad|[Hbad|Hbad]]; [contradiction| |].
    + rewrite Hbad. cbn [negb orb]. eauto.
    + rewrite Hbad. rewrite orb_true_r. eauto.
  - intros fs Hout. rewrite Hout. cbn [fst snd]. split; [eauto|]. split.
    + unfold log at 1. cbn [trace]. apply in_or_app. right. now left.
    + discriminate.
  - intros text Hout. rewrite Hout. eauto.
Qed.

End MergeProperties.

Lemma merge_returns_iff_tool_succeeds_witness :
  (FFmpegService.merge_video_audio Samples.audio_transfer_fails
     Samples.ffmpeg_on_path "/tmp/ytdl_merge_x/v.mp4" "/tmp/ytdl_merge_x/a.webm"
     "/tmp/ytdl_merge_x/out.mp4" true "copy" "aac" Samples.inputs_ready).2
  = inr "/tmp/ytdl_merge_x/out.mp4"%string.
Proof.
  apply (proj1 (merge_returns_iff_tool_succeeds Samples.audio_transfer_fails
                  Samples.ffmpeg_on_path "ffmpeg" "/tmp/ytdl_merge_x/v.mp4"
                  "/tmp/ytdl_merge_x/a.webm" "/tmp/ytdl_merge_x/out.mp4"
                  true "copy" "aac" Samples.inputs_ready
                  eq_refl ltac:(vm_compute; reflexivity)
                  ltac:(vm_compute; reflexivity))).
  split; [reflexivity|].
  eexists _, _. split; [reflexivity|].
  split; vm_compute; [reflexivity|discriminate].
Defined.

Section PipelineProperties.
Import SmartSelection OS FFmpegService YouTubeService Main.
Variable env : Env.

Lemma append_cancel_l (s a b : string) : s +:+ a = s +:+ b -> a = b.
Proof. induction s as [|c s IH]; simpl; [tauto|]. intros [= H]. auto. Qed.

Lemma append_eq_self (s a : string) : s +:+ a = s -> a = EmptyString.
Proof. induction s as [|c s IH]; simpl; [tauto|]. intros [= H]. auto. Qed.

Lemma temp_paths_differ (dir safe_title : string) (v a : Stream) :
  path_join dir (video_temp_filename safe_title v)
  <> path_join dir (audio_temp_filename safe_title a).
Proof.
  unfold path_join, video_temp_filename, audio_temp_filename. intros H.
  apply (append_cancel_l dir) in H. simpl in H. injection H as H.
  apply (append_cancel_l safe_title) in H. cbv [append] in H. congruence.
Qed.

Lemma path_join_not_dir (dir name : string) : path_join dir name <> dir.
Proof.
  unfold path_join. intros H. apply (append_eq_self dir) in H.
  cbv [append] in H. congruence.
Qed.

Lemma path_exists_insert_eq (w : World) (p : string) (n : Z) :
  path_exists (with_files w (<[p := n]> (files w))) p = true.
Proof.
  unfold path_exists. cbn [dirs files with_files].
  rewrite lookup_insert_eq.
  rewrite (bool_decide_eq_true_2 (is_Some (Some n))) by eauto.
  apply orb_true_r.
Qed.

Lemma getsize_insert_eq (w : World) (p : string) (n : Z) :
  getsize (with_files w (<[p := n]> (files w))) p = n.
Proof. unfold getsize. cbn [files with_files]. now rewrite lookup_insert_eq. Qed.

Lemma path_exists_false (w : World) (p : string) :
  path_exists w p = false -> (p ∉ dirs w) /\ files w !! p = None.
Proof.
  unfold path_exists. intros H. apply orb_false_iff in H. destruct H as [Hd Hf].
  apply bool_decide_eq_false in Hd, Hf. split; [exact Hd|].
  destruct (files w !! p) eqn:E; [|reflexivity]. exfalso. apply Hf. eauto.
Qed.

(** After a successful [rmtree] the directory is gone, provided no
    regular file bears its very name. *)
Lemma path_exists_without_tree (w : World) (dir : string) :
  files w !! dir = None -> path_exists (without_tree dir w) dir = false.
Proof.
  intros Hfile. unfold path_exists, without_tree. cbn [dirs files].
  apply orb_false_iff. split; apply bool_decide_eq_false.
  - rewrite elem_of_filter. tauto.
  - rewrite map_lookup_filter, Hfile. simpl. intros [x Hx]. discriminate.
Qed.

Section Pool.
Variables (video_stream audio_stream : Stream).
Variables (temp_dir video_filename audio_filename : string).
Hypothesis paths_differ :
  path_join temp_dir video_filename <> path_join temp_dir audio_filename.

Local Abbreviation sv := (step_video env video_stream temp_dir video_filename)
  (only parsing).
Local Abbreviation sa := (step_audio env audio_stream temp_dir audio_filename)
  (only parsing).

Lemma path_exists_insert_ne (w : World) (p q : string) (n : Z) :
  p <> q ->
  path_exists (with_files w (<[p := n]> (files w))) q = path_exists w q.
Proof.
  intros Hne. unfold path_exists. cbn [dirs files with_files].
  now rewrite lookup_insert_ne.
Qed.

Lemma getsize_insert_ne (w : World) (p q : string) (n : Z) :
  p <> q ->
  getsize (with_files w (<[p := n]> (files w))) q = getsize w q.
Proof.
  intros Hne. unfold getsize. cbn [files with_files].
  now rewrite lookup_insert_ne.
Qed.

(** The two workers write and check different paths, so their steps
    commute. *)
Lemma steps_commute (st : World * Future * Future) : sv (sa st) = sa (sv st).
Proof.
  destruct st as [[w fv] fa].
  unfold step_video, step_audio, download_step.
  destruct fv as [| |rv], fa as [| |ra];
    repeat first
      [ reflexivity
      | match goal with
        | |- context [transfer env ?s ?p] =>
            destruct (transfer env s p) as [?|[?|]]
        end
      | rewrite path_exists_insert_ne by congruence
      | rewrite getsize_insert_ne by congruence
      | match goal with
        | |- context [if ?c then _ else _] => destruct c eqn:?
        end
      | progress cbn [with_files files dirs trace] ].
  all: try congruence.
  f_equal. f_equal. unfold with_files. cbn [dirs files trace].
  f_equal. apply insert_insert_ne. congruence.
Qed.

(** A worker has finished after two steps; further steps change
    nothing. *)
Lemma video_settles (st : World * Future * Future) : sv (sv (sv st)) = sv (sv st).
Proof.
  destruct st as [[w fv] fa].
  unfold step_video, download_step.
  destruct fv as [| |rv];
    repeat first
      [ reflexivity
      | match goal with
        | |- context [transfer env ?s ?p] =>
            destruct (transfer env s p) as [?|[?|]]
        end
      | match goal with
        | |- context [if ?c then _ else _] => destruct c eqn:?
        end ].
Qed.

Lemma audio_settles (st : World * Future * Future) : sa (sa (sa st)) = sa (sa st).
Proof.
  destruct st as [[w fv] fa].
  unfold step_audio, download_step.
  destruct fa as [| |ra];
    repeat first
      [ reflexivity
      | match goal with
        | |- context [transfer env ?s ?p] =>
            destruct (transfer env s p) as [?|[?|]]
        end
      | match goal with
        | |- context [if ?c then _ else _] => destruct c eqn:?
        end ].
Qed.

Lemma join_all_after_video (st : World * Future * Future) :
  join_all env video_stream audio_stream temp_dir video_filename audio_filename
           (sv st)
  = join_all env video_stream audio_stream temp_dir video_filename audio_filename st.
Proof.
  pose proof (video_settles st) as H.
  unfold join_all. congruence.
Qed.

Lemma join_all_after_audio (st : World * Future * Future) :
  join_all env video_stream audio_stream temp_dir video_filename audio_filename
           (sa st)
  = join_all env video_stream audio_stream temp_dir video_filename audio_filename st.
Proof.
  pose proof (steps_commute st) as H1.
  pose proof (steps_commute (sv st)) as H2.
  pose proof (audio_settles (sv (sv st))) as H3.
  unfold join_all. congruence.
Qed.

(** The outcome of the pool does not depend on the schedule: whatever
    the interleaving, it is that of running the video worker and then
    the audio worker to completion. *)
Lemma run_pool_any_schedule (schedule : list bool) (w : World) :
  run_pool env video_stream audio_stream temp_dir video_filename audio_filename
           schedule w
  = join_all env video_stream audio_stream temp_dir video_filename audio_filename
             (w, Submitted, Submitted).
Proof.
  unfold run_pool. generalize (w, Submitted, Submitted) as st.
  induction schedule as [|b schedule IH]; intros st; [reflexivity|].
  cbn [fold_left]. rewrite IH.
  unfold turn. destruct st as [[w0 fv] fa].
  destruct b, (is_done fv), (is_done fa);
    first [apply join_all_after_video | apply join_all_after_audio].
Qed.

(** What the joined pool holds when the video transfer stores [n > 0]
    bytes and the audio transfer raises or stores nothing. *)
Lemma pool_outcome_audio_fails (w : World) (n : Z) :
  transfer env video_stream (path_join temp_dir video_filename)
    = TransferStores (Some n) ->
  n <> 0 ->
  (exists text, transfer env audio_stream (path_join temp_dir audio_filename)
                = TransferRaises text)
  \/ transfer env audio_stream (path_join temp_dir audio_filename)
     = TransferStores (Some 0) ->
  exists w' m,
    join_all env video_stream audio_stream temp_dir video_filename audio_filename
             (w, Submitted, Submitted)
    = (w', Finished (inr (path_join temp_dir video_filename)),
           Finished (inl (DownloadError ("Failed to download stream: " +:+ m))))
    /\ dirs w' = dirs w /\ trace w' = trace w
    /\ files w' !! temp_dir = files w !! temp_dir.
Proof.
  intros Hvideo Hn Haudio.
  unfold join_all, step_video, step_audio, download_step.
  rewrite Hvideo.
  rewrite path_exists_insert_eq, getsize_insert_eq.
  destruct (Z.eqb_spec n 0) as [|_]; [contradiction|]. cbn [negb orb].
  destruct Haudio as [[text Haudio]|Haudio]; rewrite Haudio.
  - eexists _, _. split; [reflexivity|]. cbn [dirs trace files with_files].
    repeat split. apply lookup_insert_ne. apply path_join_not_dir.
  - rewrite getsize_insert_eq. cbn [Z.eqb]. rewrite orb_true_r.
    eexists _, _. split; [reflexivity|]. cbn [dirs trace files with_files].
    repeat split.
    rewrite !lookup_insert_ne by apply path_join_not_dir. reflexivity.
Qed.

End Pool.

Variable ffmpeg_service : FFmpegService.

(** C3, amended. When the audio transfer fails (it raises or leaves an
    empty file) while the video transfer succeeds, then under every
    schedule of the two workers the request fails with the download
    error's message, neither the merge nor any tool is started, and the
    workspace directory is gone when the call returns, provided its
    removal does not itself fail (a failed removal is only logged). *)
Theorem audio_failure_aborts_and_cleans_up
    (smart_option : SmartOption) (audio : Stream) (title : option string)
    (temp_dir : string) (schedule : list bool) (w : World) (n : Z) :
  type smart_option = "merge"%string ->
  audio_stream smart_option = Some audio ->
  is_available ffmpeg_service = true ->
  temp_dir <> EmptyString ->
  path_exists w temp_dir = false ->
  let safe_title := safe_title_of title in
  let video_path :=
    path_join temp_dir (video_temp_filename safe_title (video_stream smart_option)) in
  let audio_path :=
    path_join temp_dir (audio_temp_filename safe_title audio) in
  transfer env (video_stream smart_option) video_path = TransferStores (Some n) ->
  0 < n ->
  (exists text, transfer env audio audio_path = TransferRaises text)
  \/ transfer env audio audio_path = TransferStores (Some 0) ->
  (forall w', rmtree_raises env temp_dir w' = false) ->
  let result := smart_download env ffmpeg_service (Some smart_option) title
                               temp_dir schedule w in
  (exists m, result.2 = inl (HTTPException 500 ("Failed to download stream: " +:+ m)))
  /\ trace result.1 = trace w
  /\ path_exists result.1 temp_dir = false.
Proof.
  intros Hty Haud Havail Htmp Hfresh safe_title video_path audio_path
         Hvideo Hn Haudio Hrm result.
  apply path_exists_false in Hfresh. destruct Hfresh as [Hnodir Hnofile].
  destruct (pool_outcome_audio_fails (video_stream smart_option) audio temp_dir
              (video_temp_filename safe_title (video_stream smart_option))
              (audio_temp_filename safe_title audio)
              (create_temp_merge_dir temp_dir w) n Hvideo ltac:(lia) Haudio)
    as (w' & m & Hjoin & Hdirs & Htrace & Hfiles).
  assert (Hres : result =
            (without_tree temp_dir w',
             inl (HTTPException 500 ("Failed to download stream: " +:+ m)))).
  { unfold result, smart_download. rewrite Hty. cbn [String.eqb Ascii.eqb Bool.eqb].
    unfold merge_branch. rewrite Havail, Haud. cbn [negb].
    rewrite run_pool_any_schedule by apply temp_paths_differ.
    fold safe_title. rewrite Hjoin. cbn [future_result].
    unfold on_exception.
    assert (Htruthy : Py.truthy_str (Some temp_dir) = true).
    { destruct temp_dir; [contradiction|reflexivity]. }
    rewrite Htruthy. cbn [Py.fmt]. unfold cleanup_merge_dir.
    assert (Hexists : path_exists w' temp_dir = true).
    { unfold path_exists. rewrite Hdirs. cbn [dirs create_temp_merge_dir with_dir].
      rewrite bool_decide_eq_true_2; [reflexivity|].
      apply elem_of_union. left. now apply elem_of_singleton. }
    rewrite Hexists, Hrm. reflexivity. }
  rewrite Hres. cbn [fst snd]. split; [eauto|]. split.
  - cbn [trace without_tree]. exact Htrace.
  - apply path_exists_without_tree. rewrite Hfiles. exact Hnofile.
Qed.

End PipelineProperties.

Lemma audio_failure_aborts_and_cleans_up_witness :
  let result :=
    Main.smart_download Samples.audio_transfer_fails Samples.ffmpeg_on_path
      (Some Samples.merge_option) (Some "My Video"%string) Samples.workspace
      [false; true; true; false] Samples.empty_world in
  OS.trace result.1 = [] /\ OS.path_exists result.1 Samples.workspace = false.
Proof.
  destruct (audio_failure_aborts_and_cleans_up Samples.audio_transfer_fails
              Samples.ffmpeg_on_path Samples.merge_option Samples.audio_128k
              (Some "My Video"%string) Samples.workspace
              [false; true; true; false] Samples.empty_world 1000)
    as (_ & Htrace & Hgone).
  - reflexivity.
  - reflexivity.
  - reflexivity.
  - discriminate.
  - vm_compute. reflexivity.
  - reflexivity.
  - lia.
  - left. exists "connection reset"%string. reflexivity.
  - intros w'. reflexivity.
  - split; assumption.
Defined.

(** C3, as stated, fails: when the removal of the workspace raises,
    [cleanup_merge_dir] logs a warning and returns, so after an audio
    failure the request fails as it should, nothing is merged, but the
    workspace directory is still there. *)
Lemma workspace_survives_failed_removal :
  let result :=
    Main.smart_download Samples.removal_fails Samples.ffmpeg_on_path
      (Some Samples.merge_option) (Some "My Video"%string) Samples.workspace
      [false; true; true; false] Samples.empty_world in
  OS.transfer Samples.removal_fails Samples.video_1080p
    "/tmp/ytdl_merge_x/My Video_video_temp.mp4" = OS.TransferStores (Some 1000)
  /\ OS.transfer Samples.removal_fails Samples.audio_128k
       "/tmp/ytdl_merge_x/My Video_audio_temp.webm" = OS.TransferRaises "connection reset"
  /\ result.2 = inl (OS.HTTPException 500 "Failed to download stream: connection reset")
  /\ OS.trace result.1 = []
  /\ OS.path_exists result.1 Samples.workspace = true.
Proof. vm_compute. repeat split. Qed.

(* ====================================================================== *)
(** * Further properties of the analyzer and of the selection *)
(* ====================================================================== *)

Section RankingProperties.
Import Py SmartSelection Props.










End RankingProperties.



Section SelectionShape.
Import Py SmartSelection Props.

(** The two kinds of plan the selection builds. *)
Lemma select_best_option_cases p v a prefer plan :
  select_best_option p v a prefer = Some plan ->
  (exists bv vs ba az,
      v = bv :: vs /\ a = ba :: az
      /\ type plan = "merge"%string
      /\ video_stream plan = stream bv
      /\ audio_stream plan = Some (stream ba)
      /\ video_itag plan = sa_itag bv
      /\ audio_itag plan = Some (sa_itag ba)
      /\ estimated_size_mb plan = Float.add (size_mb bv) (size_mb ba)
      /\ merge_required plan = true)
  \/ (exists bp ps,
      p = bp :: ps
      /\ type plan = "progressive"%string
      /\ video_stream plan = stream bp
      /\ audio_stream plan = None
      /\ video_itag plan = sa_itag bp
      /\ audio_itag plan = None
      /\ estimated_size_mb plan = size_mb bp
      /\ merge_required plan = false).
Proof.
  unfold select_best_option, select_best_option_try, resolution_of.
  destruct p as [|bp ps], v as [|bv vs], a as [|ba az], prefer;
    repeat match goal with
           | |- context [if ?c then _ else _] => destruct c
           | |- context [match Float.of_int ?n with _ => _ end] =>
               destruct (Float.of_int n)
           end;
    intros [= <-];
    first [ left; eexists _, _, _, _; repeat split; reflexivity
          | right; eexists _, _; repeat split; reflexivity ].
Qed.

(** X3. Every plan the selection returns is well formed: it is a merge
    plan or a single-file plan; it requires a merge, carries an audio stream
    and an audio itag exactly when it is a merge plan; a merge plan pairs
    the heads of the video-only and audio-only lists and a single-file plan
    uses the head of the single-file list. *)
Theorem selected_plan_is_well_formed p v a prefer plan :
  select_best_option p v a prefer = Some plan ->
  (type plan = "merge"%string \/ type plan = "progressive"%string)
  /\ (merge_required plan = true <-> type plan = "merge"%string)
  /\ (is_Some (audio_stream plan) <-> type plan = "merge"%string)
  /\ (is_Some (audio_itag plan) <-> type plan = "merge"%string)
  /\ (type plan = "merge"%string ->
      Some (video_stream plan) = stream <$> head v
      /\ audio_stream plan = stream <$> head a)
  /\ (type plan = "progressive"%string ->
      Some (video_stream plan) = stream <$> head p).
Proof.
  intros Hsel.
  destruct (select_best_option_cases _ _ _ _ _ Hsel)
    as [(bv & vs & ba & az & -> & -> & Hty & Hv & Ha & _ & Hai & _ & Hm)
       |(bp & ps & -> & Hty & Hv & Ha & _ & Hai & _ & Hm)];
    rewrite Hty, Hm, Ha, Hai, Hv; simpl.
  - repeat split; try tauto; try discriminate; eauto.
  - repeat split; try tauto; try discriminate; try (intros [x Hx]; discriminate).
Qed.

Lemma selected_plan_is_well_formed_witness :
  exists plan,
    select_best_option Samples.ranked_progressive_480p Samples.ranked_video_1080p
                       Samples.ranked_audio_128k false = Some plan
    /\ (is_Some (audio_stream plan) <-> type plan = "merge"%string).
Proof.
  eexists. split; [reflexivity|].
  exact (proj1 (proj2 (proj2
           (selected_plan_is_well_formed
              Samples.ranked_progressive_480p Samples.ranked_video_1080p
              Samples.ranked_audio_128k false _ eq_refl)))).
Defined.

(** X4. With a video-only and an audio-only candidate at hand whose
    resolution texts can be read, and a best single-file resolution below
    2^51 (where the product by 1.5 is exact), a plan is always returned,
    and the single-file plan is chosen over the pair only when the caller
    prefers it, the best single-file resolution is at least 720 and the
    best video-only resolution is at most 1.5 times it; in every other
    case the pair is chosen. *)
Theorem single_file_beats_pair_only_on_preference
    (p vs az : list StreamAnalysis) (bv ba : StreamAnalysis) (prefer : bool) :
  head_unreadable p = false ->
  head_unreadable (bv :: vs) = false ->
  best_resolution p < 2 ^ 51 ->
  exists plan,
    select_best_option p (bv :: vs) (ba :: az) prefer = Some plan
    /\ (type plan = "progressive"%string
        <-> prefer = true
            /\ 720 <= best_resolution p
            /\ 2 * best_resolution (bv :: vs) <= 3 * best_resolution p)
    /\ (type plan = "merge"%string
        <-> ~ (prefer = true
               /\ 720 <= best_resolution p
               /\ 2 * best_resolution (bv :: vs) <= 3 * best_resolution p)).
Proof.
  intros Hp Hv Hsmall.
  rewrite select_best_option_in_range by assumption. cbv zeta.
  cbn [best_resolution]. fold (best_resolution p).
  set (rv := extract_resolution_number (resolution (stream bv))).
  destruct (Z.gtb_spec (2 * rv) (3 * best_resolution p)) as [Hgt|Hle]; cbn [orb].
  - eexists. split; [reflexivity|]. cbn [type].
    split; split; try discriminate; intros; try reflexivity; lia.
  - destruct (Z.ltb_spec (best_resolution p) 720) as [Hlow|Hhigh].
    + eexists. split; [reflexivity|]. cbn [type].
      split; split; try discriminate; intros; try reflexivity; lia.
    + destruct prefer, p as [|bp ps].
      * cbn [best_resolution] in Hhigh. lia.
      * eexists. split; [reflexivity|]. cbn [type].
        split; split; try discriminate; intros; try reflexivity; tauto.
      * cbn [best_resolution] in Hhigh. lia.
      * eexists. split; [reflexivity|]. cbn [type].
        split; split; try discriminate; try reflexivity.
        -- intros [Hpref _]. discriminate Hpref.
        -- intros _ [Hpref _]. discriminate Hpref.
Qed.

Lemma single_file_beats_pair_only_on_preference_witness :
  exists plan,
    select_best_option Samples.ranked_progressive_480p Samples.ranked_video_1080p
                       Samples.ranked_audio_128k true = Some plan
    /\ ~ type plan = "progressive"%string.
Proof.
  destruct (single_file_beats_pair_only_on_preference
              Samples.ranked_progressive_480p [] []
              (analyse_video Samples.video_1080p)
              (analyse_audio Samples.audio_128k) true)
    as (plan & Hsel & Hprog & _).
  - reflexivity.
  - reflexivity.
  - vm_compute. reflexivity.
  - exists plan. split; [exact Hsel|].
    intros Hty. apply Hprog in Hty. destruct Hty as (_ & Hres & _).
    vm_compute in Hres. apply Hres. reflexivity.
Defined.

End SelectionShape.

Section BestOfSource.
Import Py SmartSelection Props.





End BestOfSource.

Section DigitExtraction.
Import Py SmartSelection.

Lemma take_digits_run (digits rest : string) :
  Forall (fun c => is_digit c = true) (list_ascii_of_string digits) ->
  match rest with
  | EmptyString => True
  | String c _ => is_digit c = false
  end ->
  take_digits (digits +:+ rest) = digits.
Proof.
  intros Hall Hrest. induction digits as [|c d IH]; simpl.
  - destruct rest as [|c r]; [reflexivity|]. simpl. now rewrite Hrest.
  - simpl in Hall. apply Forall_cons in Hall. destruct Hall as [Hc Hall].
    rewrite Hc. f_equal. now apply IH.
Qed.

Lemma re_search_digits_skips (before rest : string) :
  Forall (fun c => is_digit c = false) (list_ascii_of_string before) ->
  re_search_digits (before +:+ rest) = re_search_digits rest.
Proof.
  intros Hall. induction before as [|c b IH]; simpl; [reflexivity|].
  simpl in Hall. apply Forall_cons in Hall. destruct Hall as [Hc Hall].
  rewrite Hc. now apply IH.
Qed.

(** X6. On ASCII text the extractors read the leftmost maximal run of
    digits, whatever surrounds it: for a text made of a digit-free part, a
    non-empty run of digits and a rest that does not start with a digit,
    the extraction raises ([ValueError] of [int]) exactly when the run has
    more than 4300 digits, and otherwise both extractors return the run
    read as a decimal number, which is never negative. *)
Theorem extractors_read_the_leftmost_digit_run (before digits rest : string) :
  Forall (fun c => (nat_of_ascii c < 128)%nat) (list_ascii_of_string before) ->
  Forall (fun c => (nat_of_ascii c < 128)%nat) (list_ascii_of_string rest) ->
  Forall (fun c => is_digit c = false) (list_ascii_of_string before) ->
  Forall (fun c => is_digit c = true) (list_ascii_of_string digits) ->
  digits <> EmptyString ->
  match rest with
  | EmptyString => True
  | String c _ => is_digit c = false
  end ->
  extraction_raises (Some (before +:+ digits +:+ rest))
    = (4300 <? String.length digits)%nat
  /\ ((String.length digits <= 4300)%nat ->
      extract_resolution_number (Some (before +:+ digits +:+ rest)) = int digits
      /\ extract_audio_bitrate (Some (before +:+ digits +:+ rest)) = int digits
      /\ 0 <= int digits).
Proof.
  intros _ _ Hbefore Hdigits Hne Hrest.
  assert (Hfound : re_search_digits (before +:+ digits +:+ rest) = Some digits).
  { rewrite re_search_digits_skips by exact Hbefore.
    destruct digits as [|c d]; [contradiction|].
    pose proof (take_digits_run _ _ Hdigits Hrest) as Hrun.
    simpl in Hdigits. apply Forall_cons in Hdigits. destruct Hdigits as [Hc _].
    simpl in *. rewrite Hc in *. now rewrite Hrun. }
  assert (Htruthy : truthy_str (Some (before +:+ digits +:+ rest)) = true).
  { destruct before as [|b0 b]; [|reflexivity].
    destruct digits as [|c d]; [contradiction|reflexivity]. }
  unfold extraction_raises, extract_resolution_number, extract_audio_bitrate.
  rewrite Htruthy. cbn [negb fmt andb]. rewrite Hfound.
  split; [reflexivity|]. intros _.
  repeat split. apply int_of_digits_nonneg; [assumption|lia].
Qed.

Lemma extractors_read_the_leftmost_digit_run_witness :
  extract_resolution_number (Some "hd720p60"%string) = 720.
Proof.
  refine (proj1 (proj2 (extractors_read_the_leftmost_digit_run "hd" "720" "p60"
                          _ _ ltac:(repeat constructor) ltac:(repeat constructor)
                          ltac:(discriminate) eq_refl) _)).
  - repeat constructor.
  - repeat constructor.
  - vm_compute. lia.
Defined.

(** X7. Quality scores are bounded on both sides: a video score lies
    between 0 and 1080 (1000 for the resolution, 50 for the frame rate, 30
    for the codec), an audio score between 0 and 325. *)
Theorem quality_scores_are_bounded (s : Stream) :
  0 <= calculate_video_quality_score s <= 1080
  /\ 0 <= calculate_audio_quality_score s <= 325.
Proof.
  pose proof (extract_resolution_number_nonneg (resolution s)) as Hres.
  pose proof (extract_audio_bitrate_nonneg (abr s)) as Habr.
  assert (Hr : 0 <= resolution_score s <= 1000).
  { unfold resolution_score. destruct (truthy_str (resolution s)); [|lia].
    destruct video_scores_table as (-> & -> & -> & -> & ->). cbv zeta.
    case_cmp; try lia.
    split; [apply Z.div_pos; lia|].
    assert (extract_resolution_number (resolution s) / 10 < 48)
      by (apply Z.div_lt_upper_bound; lia).
    lia. }
  assert (Hf : 0 <= fps_bonus s <= 50).
  { unfold fps_bonus. destruct (truthy_int (fps s)); [|lia].
    replace (dict_get QualityScores.FPS_BONUS 60 50) with 50 by reflexivity.
    replace (dict_get QualityScores.FPS_BONUS 30 25) with 25 by reflexivity.
    cbv zeta. case_cmp; lia. }
  assert (Hc : 0 <= video_codec_bonus s <= 30).
  { unfold video_codec_bonus. destruct (truthy_str (video_codec s)); [|lia].
    replace (dict_get QualityScores.VIDEO_CODEC_BONUS "av01"%string 30)
      with 30 by reflexivity.
    replace (dict_get QualityScores.VIDEO_CODEC_BONUS "vp9"%string 20)
      with 20 by reflexivity.
    replace (dict_get QualityScores.VIDEO_CODEC_BONUS "h264"%string 10)
      with 10 by reflexivity.
    cbv zeta. repeat (destruct (contains _ _)); lia. }
  assert (Hb : 0 <= bitrate_score s <= 300).
  { unfold bitrate_score. destruct (truthy_str (abr s)); [|lia].
    destruct audio_scores_table as (-> & -> & -> & -> & ->). cbv zeta.
    case_cmp; lia. }
  assert (Ha : 0 <= audio_codec_bonus s <= 25).
  { unfold audio_codec_bonus. destruct (truthy_str (audio_codec s)); [|lia].
    replace (dict_get QualityScores.AUDIO_CODEC_BONUS "opus"%string 25)
      with 25 by reflexivity.
    replace (dict_get QualityScores.AUDIO_CODEC_BONUS "aac"%string 20)
      with 20 by reflexivity.
    replace (dict_get QualityScores.AUDIO_CODEC_BONUS "mp3"%string 10)
      with 10 by reflexivity.
    cbv zeta. repeat (destruct (contains _ _)); lia. }
  unfold calculate_video_quality_score, calculate_audio_quality_score. lia.
Qed.

End DigitExtraction.

(* ====================================================================== *)
(** * Further properties of the cache *)
(* ====================================================================== *)

Section CacheOperations.
Import Cache CacheOps.
Context {V : Type}.
Implicit Types (d : Store V) (c : CacheManager V) (e : CacheEntry V).
Implicit Types (key k : string).

Lemma dict_contains_lookup d key :
  dict_contains d key = true <-> is_Some (dict_lookup d key).
Proof.
  unfold dict_contains. destruct (dict_lookup d key); split; eauto; try discriminate.
  intros [x Hx]. discriminate.
Qed.

(** X8. [delete] reports whether the key was present; afterwards the key
    is absent, every other key is as before and the statistics are
    untouched; deleting an absent key changes nothing at all. *)
Theorem delete_removes_only_its_key key c :
  (delete key c).2 = dict_contains (_cache c) key
  /\ dict_lookup (_cache (delete key c).1) key = None
  /\ (forall k, k <> key ->
        dict_lookup (_cache (delete key c).1) k = dict_lookup (_cache c) k)
  /\ _stats (delete key c).1 = _stats c
  /\ ((delete key c).2 = false -> (delete key c).1 = c).
Proof.
  unfold delete. destruct (dict_contains (_cache c) key) eqn:Hc; simpl.
  - repeat split; try discriminate.
    + apply dict_lookup_del_same.
    + intros k Hk. apply dict_lookup_del_other. congruence.
  - repeat split. unfold dict_contains in Hc.
    destruct (dict_lookup (_cache c) key); [discriminate|reflexivity].
Qed.

(** What [set] leaves under its key, and that it keeps [ttl]. *)
Lemma set_stores_entry (now : Z) key (v : V) c :
  dict_lookup (_cache (set now key v c)) key = Some {| timestamp := now; data := v |}
  /\ ttl (set now key v c) = ttl c.
Proof.
  split.
  - unfold set. cbn [_cache with_cache with_stats].
    rewrite dict_lookup_store. now rewrite String.eqb_refl.
  - unfold set, _evict_oldest.
    destruct (_ >=? _); [destruct (_cache c)|]; reflexivity.
Qed.

(** X9. A value stored with [set] is returned by [get] under the same key
    exactly while its age is below [ttl]: whatever the cache held and
    whatever its capacity, [get] at time [now'] after [set] at time [now]
    returns the value if [now' - now < ttl] and a miss otherwise. *)
Theorem get_after_set (now now' : Z) key (v : V) c :
  (get now' key (set now key v c)).2 =
    if now' - now <? ttl c then Some v else None.
Proof.
  destruct (set_stores_entry now key v c) as [Hlook Httl].
  destruct (Z.ltb_spec (now' - now) (ttl c)) as [Hyoung|Hold].
  - rewrite (get_hit now' key _ _ Hlook); [reflexivity|]. rewrite Httl. simpl. lia.
  - rewrite (get_expired now' key _ _ Hlook); [reflexivity|]. rewrite Httl. simpl. lia.
Qed.

Lemma keys_filter_NoDup (f : string * CacheEntry V -> bool) d :
  NoDup (dict_keys d) -> NoDup (dict_keys (List.filter f d)).
Proof.
  induction d as [|[k0 e0] rest IH]; simpl; [constructor|].
  intros Hnd. apply NoDup_cons in Hnd. destruct Hnd as [Hfresh Hnd].
  destruct (f (k0, e0)); simpl; [|now apply IH].
  apply NoDup_cons. split; [|now apply IH].
  intros Hin. apply Hfresh.
  apply list_elem_of_In in Hin. apply list_elem_of_In.
  unfold dict_keys in *. apply in_map_iff in Hin.
  destruct Hin as (x & Hx & Hin). apply filter_In in Hin.
  apply in_map_iff. exists x. tauto.
Qed.

Lemma dict_del_NoDup d key : NoDup (dict_keys d) -> NoDup (dict_keys (dict_del d key)).
Proof. apply keys_filter_NoDup. Qed.

Lemma fold_dict_del_NoDup (keys : list string) d :
  NoDup (dict_keys d) -> NoDup (dict_keys (fold_left dict_del keys d)).
Proof.
  revert d. induction keys as [|k keys IH]; intros d Hnd; simpl; [exact Hnd|].
  apply IH. now apply dict_del_NoDup.
Qed.

Lemma dict_store_keys d key e :
  dict_keys (dict_store d key e) =
    if dict_contains d key then dict_keys d else dict_keys d ++ [key].
Proof.
  unfold dict_contains.
  induction d as [|[k0 e0] rest IH]; simpl; [reflexivity|].
  destruct (String.eqb_spec k0 key) as [->|Hne]; simpl; [reflexivity|].
  rewrite IH. now destruct (dict_lookup rest key).
Qed.

Lemma dict_store_NoDup d key e :
  NoDup (dict_keys d) -> NoDup (dict_keys (dict_store d key e)).
Proof.
  intros Hnd. rewrite dict_store_keys.
  destruct (dict_contains d key) eqn:Hc; [exact Hnd|].
  apply NoDup_app. split; [exact Hnd|]. split; [|apply NoDup_singleton].
  intros x Hx Hx'. apply list_elem_of_singleton in Hx'. subst x.
  unfold dict_contains in Hc.
  destruct (dict_lookup d key) eqn:Hl; [discriminate|].
  apply dict_lookup_None in Hl. apply Hl. now apply list_elem_of_In.
Qed.

Lemma cache_of_evict_oldest c :
  exists keys : list string, _cache (_evict_oldest c) = fold_left dict_del keys (_cache c).
Proof.
  unfold _evict_oldest. destruct (_cache c) as [|first rest] eqn:Hd.
  - exists []. now rewrite Hd.
  - exists [min_from first rest]. reflexivity.
Qed.

(** Every operation keeps the keys of the dictionary distinct. *)
Lemma apply_op_NoDup (op : Op V) c :
  NoDup (dict_keys (_cache c)) -> NoDup (dict_keys (_cache (apply_op op c))).
Proof.
  intros Hnd. destruct op as [now key|now key v|key| |now]; cbn [apply_op].
  - unfold get. destruct (dict_lookup (_cache c) key) as [e|]; [|exact Hnd].
    destruct (_ <? _); simpl; [exact Hnd|]. now apply dict_del_NoDup.
  - unfold set. cbn [_cache with_cache with_stats].
    apply dict_store_NoDup.
    destruct (_ >=? _); [|exact Hnd].
    destruct (cache_of_evict_oldest c) as (keys & ->).
    now apply fold_dict_del_NoDup.
  - unfold delete. destruct (dict_contains _ _); simpl; [|exact Hnd].
    now apply dict_del_NoDup.
  - constructor.
  - destruct (cleanup_expired_cache now c) as (-> & _).
    now apply fold_dict_del_NoDup.
Qed.

(** The association list standing for the dictionary never holds a key
    twice, whatever sequence of calls a fresh cache manager receives: the
    distinctness that the theorems on a cache take as a hypothesis is an
    invariant of the embedding. *)
Lemma cache_keys_stay_distinct (ttl0 max_size0 : Z) (ops : list (Op V)) :
  NoDup (dict_keys (_cache (run ops (Cache.init ttl0 max_size0)))).
Proof.
  unfold run.
  assert (Hinit : NoDup (dict_keys (_cache (@Cache.init V ttl0 max_size0))))
    by constructor.
  revert Hinit. generalize (@Cache.init V ttl0 max_size0) as c.
  induction ops as [|op ops IH]; intros c Hnd; simpl; [exact Hnd|].
  apply IH. now apply apply_op_NoDup.
Qed.

Lemma fold_dict_del_filter (keys : list string) d :
  fold_left dict_del keys d =
    List.filter (fun kv => negb (existsb (String.eqb kv.1) keys)) d.
Proof.
  revert d. induction keys as [|k keys IH]; intros d; simpl.
  - induction d as [|x d IHd]; simpl; [reflexivity|]. now rewrite <- IHd.
  - rewrite IH. unfold dict_del.
    induction d as [|x d IHd]; simpl; [reflexivity|].
    destruct (String.eqb x.1 k); simpl; rewrite IHd; reflexivity.
Qed.

Lemma filter_length_split {A} (f : A -> bool) (l : list A) :
  (length (List.filter f l) + length (List.filter (fun x => negb (f x)) l)
   = length l)%nat.
Proof.
  induction l as [|x l IH]; simpl; [reflexivity|].
  destruct (f x); simpl; lia.
Qed.

(** On a well-formed dictionary the sweep keeps exactly the items that are
    not expired. *)
Lemma sweep_is_a_filter (now : Z) c :
  NoDup (dict_keys (_cache c)) ->
  _cache (cleanup_expired now c).1 =
    List.filter (fun kv => negb (is_expired now (ttl c) kv)) (_cache c).
Proof.
  intros Hnd. destruct (cleanup_expired_cache now c) as (-> & _).
  rewrite fold_dict_del_filter. apply filter_ext_in.
  intros [k e] Hin. f_equal. simpl.
  destruct (is_expired now (ttl c) (k, e)) eqn:Hexp.
  - apply existsb_exists. exists k. split; [|apply String.eqb_refl].
    unfold dict_keys. apply in_map_iff. exists (k, e). split; [reflexivity|].
    apply filter_In. split; assumption.
  - destruct (existsb _ _) eqn:Hex; [exfalso|reflexivity].
    apply existsb_exists in Hex. destruct Hex as (k' & Hin' & Hk').
    apply String.eqb_eq in Hk'. subst k'.
    unfold dict_keys in Hin'. apply in_map_iff in Hin'.
    destruct Hin' as ([k0 e0] & Hk0 & Hin0). simpl in Hk0. subst k0.
    apply filter_In in Hin0. destruct Hin0 as [Hin0 Hexp0].
    pose proof (In_dict_lookup _ _ _ Hnd Hin) as H1.
    pose proof (In_dict_lookup _ _ _ Hnd Hin0) as H2.
    rewrite H1 in H2. injection H2 as <-.
    unfold is_expired in *. simpl in *. congruence.
Qed.

Lemma dict_lookup_filter (f : string * CacheEntry V -> bool) d key :
  NoDup (dict_keys d) ->
  dict_lookup (List.filter f d) key =
    match dict_lookup d key with
    | Some e => if f (key, e) then Some e else None
    | None => None
    end.
Proof.
  induction d as [|[k0 e0] rest IH]; simpl; [reflexivity|].
  intros Hnd. apply NoDup_cons in Hnd. destruct Hnd as [Hfresh Hnd].
  destruct (String.eqb_spec k0 key) as [->|Hne].
  - destruct (f (key, e0)) eqn:Hf; simpl.
    + now rewrite String.eqb_refl.
    + rewrite IH by exact Hnd.
      assert (Hnone : dict_lookup rest key = None).
      { apply dict_lookup_None. intros H. apply Hfresh. now apply list_elem_of_In. }
      now rewrite Hnone.
  - destruct (f (k0, e0)); simpl.
    + destruct (String.eqb_spec k0 key); [contradiction|]. now apply IH.
    + now apply IH.
Qed.

(** X11. On a dictionary with distinct keys, [cleanup_expired] removes
    exactly the entries older than [ttl] and keeps every other entry as it
    is; the number it returns is the number of entries removed; it counts
    one cleanup when it removed something and none otherwise, and leaves
    the hit and miss counters alone. *)
Theorem cleanup_expired_removes_exactly_the_expired (now : Z) c :
  NoDup (dict_keys (_cache c)) ->
  (forall key,
     dict_lookup (_cache (cleanup_expired now c).1) key =
       match dict_lookup (_cache c) key with
       | Some e => if now - timestamp e >? ttl c then None else Some e
       | None => None
       end)
  /\ (cleanup_expired now c).2 = size c - size (cleanup_expired now c).1
  /\ cleanups (_stats (cleanup_expired now c).1) =
       cleanups (_stats c) + (if (cleanup_expired now c).2 >? 0 then 1 else 0)
  /\ hits (_stats (cleanup_expired now c).1) = hits (_stats c)
  /\ misses (_stats (cleanup_expired now c).1) = misses (_stats c).
Proof.
  intros Hnd. split; [|split; [|split]].
  - intros key. rewrite (sweep_is_a_filter now c Hnd).
    rewrite dict_lookup_filter by exact Hnd.
    destruct (dict_lookup (_cache c) key) as [e|]; [|reflexivity].
    unfold is_expired. simpl. now destruct (_ >? _).
  - unfold size. rewrite (sweep_is_a_filter now c Hnd).
    pose proof (filter_length_split (is_expired now (ttl c)) (_cache c)) as Hsplit.
    unfold cleanup_expired. cbn [snd]. unfold dict_keys. rewrite length_map. lia.
  - unfold cleanup_expired.
    destruct (dict_keys (List.filter (is_expired now (ttl c)) (_cache c)))
      as [|k ks]; cbn [fst snd length _stats with_stats with_cache incr_cleanups cleanups].
    + simpl. lia.
    + replace (Z.of_nat (S (length ks)) >? 0) with true; [reflexivity|].
      symmetry. apply Z.gtb_lt. lia.
  - destruct (cleanup_expired_cache now c) as (_ & _ & Hm & Hh). split; assumption.
Qed.

Lemma apply_op_counters (op : Op V) c :
  hits (_stats (apply_op op c)) + misses (_stats (apply_op op c))
    = hits (_stats c) + misses (_stats c) + (if is_get op then 1 else 0)
  /\ stores (_stats (apply_op op c))
    = stores (_stats c) + (if is_set op then 1 else 0)
  /\ hits (_stats c) <= hits (_stats (apply_op op c))
  /\ misses (_stats c) <= misses (_stats (apply_op op c))
  /\ max_size (apply_op op c) = max_size c
  /\ ttl (apply_op op c) = ttl c.
Proof.
  destruct op as [now key|now key v|key| |now]; cbn [apply_op is_get is_set].
  - unfold get. destruct (dict_lookup (_cache c) key) as [e|];
      [destruct (_ <? _)|]; simpl; repeat split; lia.
  - unfold set, _evict_oldest.
    destruct (_ >=? _); [destruct (_cache c)|]; simpl; repeat split; lia.
  - unfold delete. destruct (dict_contains _ _); simpl; repeat split; lia.
  - simpl. repeat split; lia.
  - unfold cleanup_expired.
    destruct (dict_keys _); simpl; repeat split; lia.
Qed.

Lemma run_counters (ops : list (Op V)) c :
  hits (_stats (run ops c)) + misses (_stats (run ops c))
    = hits (_stats c) + misses (_stats c) + count_gets ops
  /\ stores (_stats (run ops c)) = stores (_stats c) + count_sets ops
  /\ hits (_stats c) <= hits (_stats (run ops c))
  /\ misses (_stats c) <= misses (_stats (run ops c))
  /\ max_size (run ops c) = max_size c
  /\ ttl (run ops c) = ttl c.
Proof.
  unfold run, count_gets, count_sets.
  revert c. induction ops as [|op ops IH]; intros c; cbn [fold_left List.filter].
  - simpl. repeat split; lia.
  - destruct (IH (apply_op op c)) as (H1 & H2 & H3 & H4 & H5 & H6).
    destruct (apply_op_counters op c) as (G1 & G2 & G3 & G4 & G5 & G6).
    rewrite H1, H2, H5, H6, G1, G2, G5, G6.
    destruct (is_get op), (is_set op); cbn [length]; repeat split; lia.
Qed.

(** X12. The counters count calls: over any sequence of operations the
    hits and misses together grow by the number of [get] calls and the
    stores by the number of [set] calls, whatever the calls find; no
    operation, [clear] included, ever lowers a counter or changes the
    configured [ttl] and [max_size]; [get_stats] reports these counters. *)
Theorem counters_count_calls (ops : list (Op V)) c :
  let before := counters (get_stats c) in
  let after := counters (get_stats (run ops c)) in
  hits after + misses after = hits before + misses before + count_gets ops
  /\ stores after = stores before + count_sets ops
  /\ hits before <= hits after
  /\ misses before <= misses after
  /\ stat_max_size (get_stats (run ops c)) = stat_max_size (get_stats c)
  /\ stat_ttl (get_stats (run ops c)) = stat_ttl (get_stats c).
Proof.
  intros before after. unfold before, after, get_stats.
  cbn [counters stat_max_size stat_ttl]. apply run_counters.
Qed.

(** X13. On a cache manager that started fresh, the hit rate reported
    by [get_stats] is 0 as long as no [get] was made and otherwise the
    float quotient of the number of hits by the number of [get] calls
    made, rounded as Python's division rounds it; the division never
    raises, there are never more hits than [get] calls, and the rate lies
    between 0 and 1. The reported size is the number of entries. *)
Theorem hit_rate_is_the_share_of_hits (ttl0 max_size0 : Z) (ops : list (Op V)) :
  let c := run ops (Cache.init ttl0 max_size0) in
  0 <= hits (_stats c) <= count_gets ops
  /\ (count_gets ops = 0 -> hit_rate (get_stats c) = Float.zero)
  /\ (0 < count_gets ops ->
      Float.truediv (hits (_stats c)) (count_gets ops) = Some (hit_rate (get_stats c)))
  /\ Float.int_gt 0 (hit_rate (get_stats c)) = false
  /\ Float.int_lt 1 (hit_rate (get_stats c)) = false
  /\ stat_size (get_stats c) = size c.
Proof.
  intros c.
  destruct (run_counters ops (@Cache.init V ttl0 max_size0))
    as (Htotal & _ & Hh & Hm & _).
  fold c in Htotal, Hh, Hm. simpl in Htotal, Hh, Hm.
  split; [lia|].
  unfold get_stats. cbn [hit_rate stat_size].
  destruct (Z.gtb_spec (hits (_stats c) + misses (_stats c)) 0) as [Hpos|Hzero].
  - destruct (truediv_at_most_one (hits (_stats c))
                (hits (_stats c) + misses (_stats c)) ltac:(lia) ltac:(lia))
      as (m & e & Hdiv & Hle & Hge).
    rewrite Hdiv. cbn [default from_option]. unfold id.
    assert (Htot : count_gets ops = hits (_stats c) + misses (_stats c)) by lia.
    split; [intros Hnone; lia|]. split; [intros _; now rewrite Htot|].
    split; [exact Hge|]. split; [exact Hle|reflexivity].
  - split; [reflexivity|]. split; [intros Hsome; lia|].
    repeat split.
Qed.

Lemma apply_op_within_capacity (op : Op V) c :
  1 <= max_size c -> size c <= max_size c ->
  size (apply_op op c) <= max_size c.
Proof.
  intros Hpos Hsize.
  destruct op as [now key|now key v|key| |now]; cbn [apply_op].
  - unfold get, size in *. destruct (dict_lookup (_cache c) key) as [e|];
      [destruct (_ <? _)|]; simpl; try lia.
    pose proof (List.filter_length_le
                  (fun kv : string * CacheEntry V => negb (String.eqb kv.1 key))
                  (_cache c)). unfold dict_del. lia.
  - now apply set_within_capacity.
  - unfold delete, size in *. destruct (dict_contains _ _); simpl; [|lia].
    pose proof (List.filter_length_le
                  (fun kv : string * CacheEntry V => negb (String.eqb kv.1 key))
                  (_cache c)). unfold dict_del. lia.
  - unfold size in *. simpl. lia.
  - unfold size in *. destruct (cleanup_expired_cache now c) as (-> & _).
    rewrite fold_dict_del_filter.
    match goal with
    | |- context [List.filter ?f ?l] => pose proof (List.filter_length_le f l)
    end. lia.
Qed.

(** X14. A cache manager created with a capacity of at least 1 never holds
    more than [max_size] entries, whatever sequence of [get], [set],
    [delete], [clear] and [cleanup_expired] calls it receives. *)
Theorem cache_never_exceeds_capacity (ttl0 max_size0 : Z) (ops : list (Op V)) :
  1 <= max_size0 ->
  size (run ops (Cache.init ttl0 max_size0)) <= max_size0.
Proof.
  intros Hpos. unfold run.
  assert (Hinv : 1 <= max_size (@Cache.init V ttl0 max_size0)
                 /\ size (@Cache.init V ttl0 max_size0)
                    <= max_size (@Cache.init V ttl0 max_size0)
                 /\ max_size (@Cache.init V ttl0 max_size0) = max_size0).
  { unfold size. simpl. lia. }
  revert Hinv. generalize (@Cache.init V ttl0 max_size0) as c.
  induction ops as [|op ops IH]; intros c (H1 & H2 & H3); simpl; [lia|].
  apply IH.
  destruct (apply_op_counters op c) as (_ & _ & _ & _ & Hmax & _).
  pose proof (apply_op_within_capacity op c H1 H2). rewrite Hmax. lia.
Qed.

End CacheOperations.

Lemma cleanup_expired_removes_exactly_the_expired_witness :
  Cache.dict_lookup (Cache._cache (Cache.cleanup_expired 302 Samples.two_entries).1) "a"
    = None
  /\ (Cache.cleanup_expired 302 Samples.two_entries).2 = 1.
Proof.
  destruct (cleanup_expired_removes_exactly_the_expired 302 Samples.two_entries
              ltac:(compute_done)) as (Hlookup & Hcount & _).
  split.
  - rewrite (Hlookup "a"%string). reflexivity.
  - rewrite Hcount. reflexivity.
Defined.

Lemma cache_never_exceeds_capacity_witness :
  Cache.size
    (CacheOps.run
       [CacheOps.OpSet 1 "a" 10; CacheOps.OpSet 2 "b" 20; CacheOps.OpGet 3 "a";
        CacheOps.OpSet 4 "c" 30; CacheOps.OpCleanup 400; CacheOps.OpSet 401 "d" 40]
       (Cache.init 300 2)) <= 2.
Proof.
  apply (cache_never_exceeds_capacity 300 2
           [CacheOps.OpSet 1 "a" 10; CacheOps.OpSet 2 "b" 20; CacheOps.OpGet 3 "a";
            CacheOps.OpSet 4 "c" 30; CacheOps.OpCleanup 400; CacheOps.OpSet 401 "d" 40]).
  lia.
Defined.

Section VideoCacheProperties.
Import Cache CacheOps VideoAnalysisCache.
Context {D : Type}.
Implicit Types (vc : VideoAnalysisCache D).

Lemma get_keeps_configuration (now : Z) (key : string) (c : CacheManager (gmap string D)) :
  ttl (get now key c).1 = ttl c /\ max_size (get now key c).1 = max_size c.
Proof.
  destruct (apply_op_counters (OpGet now key) c) as (_ & _ & _ & _ & Hm & Ht).
  split; assumption.
Qed.

(** The bundle [cache_smart_selection] builds from what its read found. *)
Lemma bundle_read (found : option (gmap string D)) :
  (if truthy_dict found then default ∅ found else ∅) = default ∅ found.
Proof.
  destruct found as [m|]; simpl; [|reflexivity].
  destruct (Nat.eqb_spec (base.size m) 0) as [Hz|Hnz]; simpl; [|reflexivity].
  symmetry. now apply map_size_empty_iff.
Qed.

Lemma truthy_after_insert (k : string) (x : D) (m : gmap string D) :
  truthy_dict (Some (<[k := x]> m)) = true.
Proof.
  simpl. destruct (Nat.eqb_spec (base.size (<[k := x]> m)) 0) as [Hz|Hnz];
    [|reflexivity].
  apply map_size_empty_iff in Hz. now apply insert_non_empty in Hz.
Qed.

(** The cache manager after [cache_smart_selection], as one [get] followed
    by one [set]. *)
Lemma cache_smart_selection_unfold (now_read now_store : Z) (video_id : string)
    (x : D) vc :
  cache_manager (cache_smart_selection now_read now_store video_id x vc) =
    set now_store (analysis_key video_id)
        (<["smart_selection"%string := x]>
           (default ∅ (get now_read (analysis_key video_id) (cache_manager vc)).2))
        (get now_read (analysis_key video_id) (cache_manager vc)).1.
Proof.
  unfold cache_smart_selection, get_analysis, cache_analysis.
  destruct (get now_read (analysis_key video_id) (cache_manager vc)) as [c1 found].
  cbn [cache_manager fst snd]. now rewrite bundle_read.
Qed.

(** X15. A selection stored with [cache_smart_selection] is returned by
    [get_smart_selection] for the same video as long as the time since the
    store is below [ttl], whatever the cache held before. *)
Theorem smart_selection_round_trip (now_read now_store now' : Z)
    (video_id : string) (x : D) vc :
  now' - now_store < ttl (cache_manager vc) ->
  (get_smart_selection now' video_id
     (cache_smart_selection now_read now_store video_id x vc)).2 = Some x.
Proof.
  intros Hyoung. unfold get_smart_selection, get_analysis.
  rewrite cache_smart_selection_unfold.
  destruct (get_keeps_configuration now_read (analysis_key video_id) (cache_manager vc))
    as [Httl _].
  destruct (set_stores_entry now_store (analysis_key video_id)
              (<["smart_selection"%string := x]>
                 (default ∅ (get now_read (analysis_key video_id)
                                 (cache_manager vc)).2))
              (get now_read (analysis_key video_id) (cache_manager vc)).1)
    as [Hlook Httl'].
  rewrite (get_hit now' _ _ _ Hlook) by (rewrite Httl', Httl; simpl; lia).
  cbn [snd data]. rewrite truthy_after_insert. simpl. apply lookup_insert_eq.
Qed.

(** X16. [cache_smart_selection] rewrites the whole bundle: the entry it
    leaves under the video's key holds the selection together with the
    other sub-keys of the bundle found at the read, if that bundle was
    still valid then, and the selection alone otherwise; it is stamped
    with the time of the store. The call counts as one lookup (a hit or a
    miss) and one store. *)
Theorem cache_smart_selection_rewrites_the_bundle (now_read now_store : Z)
    (video_id : string) (x : D) vc :
  let c := cache_manager vc in
  let c' := cache_manager (cache_smart_selection now_read now_store video_id x vc) in
  let kept : gmap string D :=
    match dict_lookup (_cache c) (analysis_key video_id) with
    | Some e => if now_read - timestamp e <? ttl c then data e else ∅
    | None => ∅
    end in
  dict_lookup (_cache c') (analysis_key video_id)
    = Some {| timestamp := now_store;
              data := <["smart_selection"%string := x]> kept |}
  /\ hits (_stats c') + misses (_stats c') = hits (_stats c) + misses (_stats c) + 1
  /\ stores (_stats c') = stores (_stats c) + 1.
Proof.
  intros c c' kept. unfold c'. rewrite cache_smart_selection_unfold. fold c.
  assert (Hkept : default ∅ (get now_read (analysis_key video_id) c).2 = kept).
  { unfold kept, get.
    destruct (dict_lookup (_cache c) (analysis_key video_id)) as [e|];
      [destruct (_ <? _)|]; reflexivity. }
  rewrite Hkept. split; [|split].
  - unfold set. cbn [_cache with_cache with_stats].
    rewrite dict_lookup_store. now rewrite String.eqb_refl.
  - destruct (set_keeps_hits_and_misses now_store (analysis_key video_id)
                (<["smart_selection"%string := x]> kept)
                (get now_read (analysis_key video_id) c).1) as [-> ->].
    destruct (apply_op_counters (OpGet now_read (analysis_key video_id)) c)
      as (Hsum & _). cbn [apply_op is_get is_set] in Hsum. exact Hsum.
  - destruct (apply_op_counters
                (OpSet now_store (analysis_key video_id)
                       (<["smart_selection"%string := x]> kept))
                (get now_read (analysis_key video_id) c).1) as (_ & Hst & _).
    destruct (apply_op_counters (OpGet now_read (analysis_key video_id)) c)
      as (_ & Hst' & _). cbn [apply_op is_get is_set] in Hst, Hst'. lia.
Qed.

End VideoCacheProperties.

Lemma smart_selection_round_trip_witness :
  (VideoAnalysisCache.get_smart_selection 150 "dQw4w9WgXcQ"
     (VideoAnalysisCache.cache_smart_selection 10 11 "dQw4w9WgXcQ"
        Samples.merge_option (VideoAnalysisCache.init 300))).2
  = Some Samples.merge_option.
Proof.
  apply (smart_selection_round_trip 10 11 150 "dQw4w9WgXcQ" Samples.merge_option
           (VideoAnalysisCache.init 300)).
  simpl. lia.
Defined.

Section FastSelectionProperties.
Import SmartSelection Cache VideoAnalysisCache FastSelection.

(** X17. The cached decision is keyed by the video alone. Once a first
    call of [get_fast_smart_selection] for a video that had no entry has
    returned a plan, a later call for the same video made while that entry
    is younger than [ttl] returns the same plan, whatever preference flag
    it passes and whatever streams the source offers by then, and stores
    nothing. A failure to create the video object yields no plan and leaves
    the cache as it was. *)
Theorem cached_selection_ignores_preference
    (first later : Video) (prefer prefer' : bool)
    (now1 now2 now3 now4 now5 now6 : Z)
    (video_cache : VideoAnalysisCache SmartOption) (plan : SmartOption) (e : OS.Exn) :
  video_id later = video_id first ->
  dict_lookup (_cache (cache_manager video_cache)) (analysis_key (video_id first)) = None ->
  (get_fast_smart_selection (inr first) prefer now1 now2 now3 video_cache).2 = Some plan ->
  now4 - now3 < ttl (cache_manager video_cache) ->
  let cached := (get_fast_smart_selection (inr first) prefer now1 now2 now3 video_cache).1 in
  (get_fast_smart_selection (inr later) prefer' now4 now5 now6 cached).2 = Some plan
  /\ stores (_stats (cache_manager
                      (get_fast_smart_selection (inr later) prefer' now4 now5 now6 cached).1))
     = stores (_stats (cache_manager cached))
  /\ get_fast_smart_selection (inl e) prefer' now4 now5 now6 cached = (cached, None).
Proof.
  intros Hid Habsent Hfirst Hyoung cached.
  set (key := analysis_key (video_id first)) in *.
  (* the first call misses, selects and stores *)
  assert (Hmiss : get now1 key (cache_manager video_cache)
                  = (with_stats (cache_manager video_cache)
                       (incr_misses (_stats (cache_manager video_cache))), None)).
  { apply get_absent. exact Habsent. }
  assert (Hcached : smart_select_best_option (source first) prefer = Some plan
                    /\ cached = cache_smart_selection now2 now3 (video_id first) plan
                                  {| cache_manager :=
                                       with_stats (cache_manager video_cache)
                                         (incr_misses (_stats (cache_manager video_cache))) |}).
  { unfold cached. revert Hfirst.
    unfold get_fast_smart_selection, get_analysis. fold key. rewrite Hmiss.
    cbn [truthy_dict].
    destruct (smart_select_best_option (source first) prefer) as [sel|];
      cbn [fst snd]; [|discriminate].
    intros [= ->]. split; reflexivity. }
  destruct Hcached as [_ Hcached].
  (* the later call finds the bundle *)
  assert (Hfound : get now4 key (cache_manager cached)
                   = (with_stats (cache_manager cached)
                        (incr_hits (_stats (cache_manager cached))),
                      Some (<["smart_selection"%string := plan]> ∅))).
  { rewrite Hcached, cache_smart_selection_unfold. fold key.
    cbn [cache_manager].
    assert (Hempty : get now2 key (with_stats (cache_manager video_cache)
                        (incr_misses (_stats (cache_manager video_cache))))
                     = (with_stats (with_stats (cache_manager video_cache)
                          (incr_misses (_stats (cache_manager video_cache))))
                          (incr_misses (incr_misses (_stats (cache_manager video_cache)))),
                        None)).
    { apply get_absent. exact Habsent. }
    rewrite Hempty. cbn [fst snd default].
    match goal with
    | |- get now4 key ?c = _ =>
        assert (Hl : dict_lookup (_cache c) key
                     = Some {| timestamp := now3;
                               data := <["smart_selection"%string := plan]> ∅ |})
    end.
    { unfold set. cbn [_cache with_cache with_stats].
      rewrite dict_lookup_store. now rewrite String.eqb_refl. }
    rewrite (get_hit now4 key _ _ Hl); [reflexivity|].
    cbn [timestamp].
    match goal with
    | |- _ < ttl ?c =>
        replace (ttl c) with (ttl (cache_manager video_cache)); [lia|]
    end.
    unfold set, _evict_oldest. cbn [with_stats with_cache ttl max_size _cache].
    destruct (_ >=? _); [destruct (_cache (cache_manager video_cache))|]; reflexivity. }
  split; [|split; [|reflexivity]].
  - unfold get_fast_smart_selection, get_analysis. rewrite Hid. fold key.
    rewrite Hfound. rewrite truthy_after_insert. cbn [default from_option].
    unfold id. rewrite lookup_insert_eq. reflexivity.
  - unfold get_fast_smart_selection, get_analysis. rewrite Hid. fold key.
    rewrite Hfound. rewrite truthy_after_insert. cbn [default from_option].
    unfold id. rewrite lookup_insert_eq. reflexivity.
Qed.

End FastSelectionProperties.

Lemma cached_selection_ignores_preference_witness :
  exists plan,
    SmartSelection.smart_select_best_option MoreSamples.healthy_source false = Some plan
    /\ (FastSelection.get_fast_smart_selection (inr MoreSamples.video_later) true
          100 101 102
          (FastSelection.get_fast_smart_selection (inr MoreSamples.video_at_first) false
             1 2 3 (VideoAnalysisCache.init 300)).1).2 = Some plan.
Proof.
  eexists. split; [reflexivity|].
  apply (proj1 (cached_selection_ignores_preference
                  MoreSamples.video_at_first MoreSamples.video_later false true
                  1 2 3 100 101 102 (VideoAnalysisCache.init 300) _
                  (OS.OtherException "unreachable")
                  eq_refl eq_refl eq_refl ltac:(simpl; lia))).
Defined.

(* ====================================================================== *)
(** * Further properties of the merge service *)
(* ====================================================================== *)

Section FFmpegGuards.
Import OS FFmpegService.
Variable env : Env.

(** What [merge_video_audio] does once the tool can be started. *)
Lemma merge_video_audio_when_started
    (self : FFmpegService) (executable video_path audio_path output_path : string)
    (cleanup_temp : bool) (video_codec audio_codec : string) (w : World) :
  _ffmpeg_executable self = Some executable ->
  path_exists w video_path = true ->
  path_exists w audio_path = true ->
  let cmd := merge_command executable video_path audio_path
                           video_codec audio_codec output_path in
  let started := log (EvSpawn cmd)
                     (log (EvMergeCalled video_path audio_path output_path) w) in
  merge_video_audio env self video_path audio_path output_path
                    cleanup_temp video_codec audio_codec w =
    match run_tool env cmd started with
    | Completed code err fs =>
        if negb (code =? 0) then
          (with_files started fs,
           inl (MergeError ("Merge failed: " +:+ ("FFmpeg merge failed: " +:+ err))))
        else if negb (path_exists (with_files started fs) output_path)
                || (getsize (with_files started fs) output_path =? 0) then
          (with_files started fs,
           inl (MergeError ("Merge failed: " +:+
                            "Output file was not created or is empty")))
        else
          ((if cleanup_temp
            then _cleanup_files env [video_path; audio_path] (with_files started fs)
            else with_files started fs), inr output_path)
    | TimedOut fs =>
        (log (EvKill cmd) (with_files started fs),
         inl (MergeError ("FFmpeg merge timed out after " +:+
                          Py.str (timeout self) +:+ " seconds")))
    | RunRaises text =>
        (started, inl (MergeError ("Merge failed: " +:+ text)))
    end.
Proof.
  intros Hexe Hvideo Haudio cmd started.
  unfold merge_video_audio. rewrite Hexe.
  change (path_exists (log (EvMergeCalled video_path audio_path output_path) w)
            video_path) with (path_exists w video_path).
  change (path_exists (log (EvMergeCalled video_path audio_path output_path) w)
            audio_path) with (path_exists w audio_path).
  rewrite Hvideo, Haudio. cbn [negb].
  unfold subprocess_run. fold cmd. fold started.
  destruct (run_tool env cmd started) as [code err fs|fs|text]; reflexivity.
Qed.

(** X18. [merge_video_audio] refuses before starting anything: without an
    executable it raises [FFmpegNotFoundError], and with a missing video or
    audio input it raises [MergeError]; in each case no process is spawned
    and no file or directory is touched. *)
Theorem merge_refuses_without_spawning
    (self : FFmpegService) (video_path audio_path output_path : string)
    (cleanup_temp : bool) (video_codec audio_codec : string) (w : World) :
  let result := merge_video_audio env self video_path audio_path output_path
                                  cleanup_temp video_codec audio_codec w in
  let entered := log (EvMergeCalled video_path audio_path output_path) w in
  (is_available self = false ->
     result = (entered, inl (FFmpegNotFoundError default_not_found)))
  /\ (is_available self = true -> path_exists w video_path = false ->
     result = (entered, inl (MergeError ("Video file not found: " +:+ video_path))))
  /\ (is_available self = true -> path_exists w video_path = true ->
      path_exists w audio_path = false ->
     result = (entered, inl (MergeError ("Audio file not found: " +:+ audio_path))))
  /\ (forall cmd, ~ In (EvSpawn cmd) (trace w) -> ~ In (EvSpawn cmd) (trace entered))
  /\ files entered = files w /\ dirs entered = dirs w.
Proof.
  intros result entered. unfold result, merge_video_audio, is_available.
  change (path_exists (log (EvMergeCalled video_path audio_path output_path) w)
            video_path) with (path_exists w video_path).
  change (path_exists (log (EvMergeCalled video_path audio_path output_path) w)
            audio_path) with (path_exists w audio_path).
  destruct (_ffmpeg_executable self) as [exe|].
  - split; [discriminate|]. split; [|split].
    + intros _ Hv. now rewrite Hv.
    + intros _ Hv Ha. now rewrite Hv, Ha.
    + split; [|split; reflexivity].
      intros cmd Hnot Hin. unfold entered, log in Hin. cbn [trace] in Hin.
      apply in_app_iff in Hin. destruct Hin as [Hin|[Hin|[]]];
        [contradiction|discriminate].
  - split; [reflexivity|]. split; [discriminate|]. split; [discriminate|].
    split; [|split; reflexivity].
    intros cmd Hnot Hin. unfold entered, log in Hin. cbn [trace] in Hin.
    apply in_app_iff in Hin. destruct Hin as [Hin|[Hin|[]]];
      [contradiction|discriminate].
Qed.

Lemma cleanup_files_frame (paths : list string) (w : World) :
  dirs (_cleanup_files env paths w) = dirs w
  /\ trace (_cleanup_files env paths w) = trace w
  /\ forall p, ~ In p paths ->
       files (_cleanup_files env paths w) !! p = files w !! p.
Proof.
  revert w. induction paths as [|q paths IH]; intros w; cbn [_cleanup_files].
  - repeat split.
  - destruct (IH (if path_exists w q
                  then if remove_raises env q w then w else without_file q w
                  else w)) as (Hd & Ht & Hf).
    rewrite Hd, Ht.
    split; [|split].
    + destruct (path_exists w q); [destruct (remove_raises env q w)|]; reflexivity.
    + destruct (path_exists w q); [destruct (remove_raises env q w)|]; reflexivity.
    + intros p Hp. rewrite Hf by (intros H; apply Hp; now right).
      destruct (path_exists w q); [destruct (remove_raises env q w)|]; try reflexivity.
      unfold without_file. cbn [files with_files].
      apply lookup_delete_ne. intros ->. apply Hp. now left.
Qed.

Lemma cleanup_files_removes (paths : list string) (w : World) (p : string) :
  (forall q w', remove_raises env q w' = false) ->
  In p paths -> files (_cleanup_files env paths w) !! p = None.
Proof.
  intros Hok. revert w. induction paths as [|q paths IH]; intros w Hin;
    cbn [_cleanup_files]; [destruct Hin|].
  destruct (in_dec string_dec p paths) as [Hlater|Hnot]; [now apply IH|].
  destruct Hin as [->|Hin]; [|contradiction].
  destruct (cleanup_files_frame paths
              (if path_exists w p
               then if remove_raises env p w then w else without_file p w
               else w)) as (_ & _ & Hf).
  rewrite Hf by exact Hnot. rewrite Hok.
  destruct (path_exists w p) eqn:Hex.
  - unfold without_file. cbn [files with_files]. apply lookup_delete_eq.
  - now apply path_exists_false in Hex.
Qed.

(** X19. After a successful merge with [cleanup_temp] set, when the
    output path differs from both inputs and removing a file does not
    fail, the returned path is the output file, which exists and is not
    empty, and neither input file is left. *)
Theorem merge_success_leaves_only_the_output
    (self : FFmpegService) (video_path audio_path output_path : string)
    (video_codec audio_codec : string) (w : World) (p : string) :
  (forall q w', remove_raises env q w' = false) ->
  output_path <> video_path ->
  output_path <> audio_path ->
  let result := merge_video_audio env self video_path audio_path output_path
                                  true video_codec audio_codec w in
  result.2 = inr p ->
  p = output_path
  /\ path_exists result.1 output_path = true
  /\ getsize result.1 output_path <> 0
  /\ files result.1 !! video_path = None
  /\ files result.1 !! audio_path = None.
Proof.
  intros Hok Hv Ha result Hres. unfold result in *.
  destruct (_ffmpeg_executable self) as [exe|] eqn:Hexe;
    [|unfold merge_video_audio in Hres; rewrite Hexe in Hres; discriminate].
  destruct (path_exists w video_path) eqn:Hpv;
    [|unfold merge_video_audio in Hres; rewrite Hexe in Hres;
      change (path_exists (log (EvMergeCalled video_path audio_path output_path) w)
                video_path) with (path_exists w video_path) in Hres;
      rewrite Hpv in Hres; discriminate].
  destruct (path_exists w audio_path) eqn:Hpa;
    [|unfold merge_video_audio in Hres; rewrite Hexe in Hres;
      change (path_exists (log (EvMergeCalled video_path audio_path output_path) w)
                video_path) with (path_exists w video_path) in Hres;
      change (path_exists (log (EvMergeCalled video_path audio_path output_path) w)
                audio_path) with (path_exists w audio_path) in Hres;
      rewrite Hpv, Hpa in Hres; discriminate].
  rewrite (merge_video_audio_when_started self exe video_path audio_path output_path
             true video_codec audio_codec w Hexe Hpv Hpa) in *.
  cbv zeta in *.
  destruct (run_tool env _ _) as [code err fs|fs|text]; try discriminate.
  destruct (negb (code =? 0)); [discriminate|].
  match type of Hres with
  | context [path_exists ?w0 output_path] => set (w1 := w0) in *
  end.
  destruct (path_exists w1 output_path) eqn:Hex; cbn [negb orb] in *; [|discriminate].
  destruct (Z.eqb_spec (getsize w1 output_path) 0) as [|Hsize]; [discriminate|].
  cbn [fst snd] in *. injection Hres as <-.
  destruct (cleanup_files_frame [video_path; audio_path] w1) as (Hd & _ & Hf).
  assert (Hout : files (_cleanup_files env [video_path; audio_path] w1) !! output_path
                 = files w1 !! output_path).
  { apply Hf. intros [H|[H|[]]]; congruence. }
  split; [reflexivity|]. split; [|split; [|split]].
  - unfold path_exists in *. now rewrite Hd, Hout.
  - unfold getsize in *. now rewrite Hout.
  - apply cleanup_files_removes; [exact Hok|now left].
  - apply cleanup_files_removes; [exact Hok|right; now left].
Qed.

End FFmpegGuards.

Section WorkspaceRemoval.
Import OS FFmpegService.
Variable env : Env.


(** What a successful [rmtree] leaves: neither the directory nor anything
    beneath it, and everything else as it was. *)
Lemma without_tree_clears (dir : string) (w : World) :
  (dir ∉ dirs (without_tree dir w))
  /\ (forall p, beneath dir p = true ->
        (p ∉ dirs (without_tree dir w)) /\ files (without_tree dir w) !! p = None)
  /\ (forall p, p <> dir -> beneath dir p = false ->
        (p ∈ dirs (without_tree dir w) <-> p ∈ dirs w)
        /\ files (without_tree dir w) !! p = files w !! p).
Proof.
  unfold without_tree. cbn [dirs files]. split; [|split].
  - rewrite elem_of_filter. tauto.
  - intros p Hp. split.
    + rewrite elem_of_filter. intros [[_ H] _]. congruence.
    + apply map_lookup_filter_None. right. intros x _. simpl. congruence.
  - intros p Hne Hp. split.
    + rewrite elem_of_filter. tauto.
    + apply option_eq. intros x. rewrite map_lookup_filter_Some. simpl. tauto.
Qed.


End WorkspaceRemoval.

Section AudioConversion.
Import OS FFmpegService FFmpegAudio.
Variable env : Env.

(** X21. Once the tool can be started (an executable is known and the
    input exists), [convert_audio_format] returns the output path exactly
    when the tool exits with code zero and the output exists; unlike the
    merge it accepts an empty output file. Every other outcome raises
    [FFmpegError]. The audio codec on the command line is libmp3lame for
    the format mp3 and aac for every other format. *)
Theorem convert_returns_iff_tool_succeeds
    (self : FFmpegService) (executable input_path output_path format bitrate : string)
    (w : World) :
  _ffmpeg_executable self = Some executable ->
  path_exists w input_path = true ->
  let cmd := convert_command executable input_path format bitrate output_path in
  let outcome := run_tool env cmd (log (EvSpawn cmd) w) in
  let result := convert_audio_format env self input_path output_path format bitrate w in
  (forall p, result.2 = inr p <->
     p = output_path
     /\ exists err fs, outcome = Completed 0 err fs
          /\ path_exists (with_files w fs) output_path = true)
  /\ (forall e, result.2 = inl e -> exists m, e = FFmpegError m)
  /\ nth 4 cmd ""%string = (if String.eqb format "mp3" then "libmp3lame" else "aac")%string.
Proof.
  intros Hexe Hin cmd outcome result.
  assert (Hres : result =
    match outcome with
    | Completed code err fs =>
        if negb (code =? 0) then
          (with_files (log (EvSpawn cmd) w) fs,
           inl (FFmpegError ("Audio conversion failed: " +:+
                             ("Audio conversion failed: " +:+ err))))
        else if negb (path_exists (with_files w fs) output_path) then
          (with_files (log (EvSpawn cmd) w) fs,
           inl (FFmpegError ("Audio conversion failed: " +:+
                             "Audio conversion output file not created")))
        else (with_files (log (EvSpawn cmd) w) fs, inr output_path)
    | TimedOut fs =>
        (log (EvKill cmd) (with_files (log (EvSpawn cmd) w) fs),
         inl (FFmpegError ("Audio conversion timed out after " +:+
                           Py.str (timeout self) +:+ " seconds")))
    | RunRaises text =>
        (log (EvSpawn cmd) w, inl (FFmpegError ("Audio conversion failed: " +:+ text)))
    end).
  { unfold result, convert_audio_format. rewrite Hexe, Hin. cbn [negb].
    unfold subprocess_run. fold cmd. fold outcome.
    destruct outcome as [code err fs|fs|text]; reflexivity. }
  rewrite Hres. clear Hres. split; [|split; [|reflexivity]].
  - intros p. destruct outcome as [code err fs|fs|text].
    + destruct (Z.eqb_spec code 0) as [->|Hcode]; cbn [negb].
      * destruct (path_exists (with_files w fs) output_path) eqn:Hex; cbn [negb snd].
        -- split.
           ++ intros [= <-]. split; [reflexivity|]. eauto.
           ++ intros (-> & _). reflexivity.
        -- split; [discriminate|].
           intros (_ & err' & fs' & [= <- <-] & Hex'). congruence.
      * cbn [snd]. split; [discriminate|].
        intros (_ & err' & fs' & [= Hc _ _] & _). contradiction.
    + cbn [snd]. split; [discriminate|]. intros (_ & ? & ? & Hbad & _). discriminate.
    + cbn [snd]. split; [discriminate|]. intros (_ & ? & ? & Hbad & _). discriminate.
  - intros e. destruct outcome as [code err fs|fs|text].
    + destruct (negb (code =? 0)); [intros [= <-]; eauto|].
      destruct (negb (path_exists (with_files w fs) output_path));
        [intros [= <-]; eauto|discriminate].
    + intros [= <-]. eauto.
    + intros [= <-]. eauto.
Qed.

End AudioConversion.

Section DownloadProperties.
Import SmartSelection OS YouTubeService.
Variable env : Env.

(** [download_stream] by the outcome of the transfer. *)
Lemma download_stream_cases (s : Stream) (output_dir filename : string) (w : World) :
  download_stream env s output_dir filename w =
    match transfer env s (path_join output_dir filename) with
    | TransferRaises text =>
        (w, inl (DownloadError ("Failed to download stream: " +:+ text)))
    | TransferStores bytes =>
        let w1 := match bytes with
                  | Some n => with_files w (<[path_join output_dir filename := n]> (files w))
                  | None => w
                  end in
        if negb (path_exists w1 (path_join output_dir filename))
           || (getsize w1 (path_join output_dir filename) =? 0) then
          (w1, inl (DownloadError
             ("Failed to download stream: " +:+
              ("Download failed - file not created or empty: " +:+ filename))))
        else (w1, inr (path_join output_dir filename))
    end.
Proof.
  unfold download_stream, download_step.
  destruct (transfer env s (path_join output_dir filename)) as [text|[n|]];
    [reflexivity| |]; cbv zeta;
    match goal with
    | |- context [if ?c then _ else _] => destruct c; reflexivity
    end.
Qed.

(** What every call of [download_stream] leaves alone, and what a
    returned path stands for. *)
Lemma download_stream_frame (s : Stream) (output_dir filename : string) (w : World) :
  let result := download_stream env s output_dir filename w in
  dirs result.1 = dirs w
  /\ trace result.1 = trace w
  /\ (forall p, p <> path_join output_dir filename -> files result.1 !! p = files w !! p)
  /\ (forall p, result.2 = inr p ->
        p = path_join output_dir filename
        /\ path_exists result.1 p = true /\ getsize result.1 p <> 0).
Proof.
  intros result. unfold result. rewrite download_stream_cases.
  destruct (transfer env s (path_join output_dir filename)) as [text|bytes].
  - cbn [fst snd]. repeat split; discriminate.
  - cbv zeta.
    set (w1 := match bytes with
               | Some n => with_files w (<[path_join output_dir filename := n]> (files w))
               | None => w
               end).
    assert (Hdirs : dirs w1 = dirs w) by (unfold w1; destruct bytes; reflexivity).
    assert (Htrace : trace w1 = trace w) by (unfold w1; destruct bytes; reflexivity).
    assert (Hframe : forall p, p <> path_join output_dir filename ->
                       files w1 !! p = files w !! p).
    { intros p Hp. unfold w1. destruct bytes; [|reflexivity].
      cbn [files with_files]. now apply lookup_insert_ne. }
    destruct (path_exists w1 (path_join output_dir filename)) eqn:Hex; cbn [negb orb].
    + destruct (Z.eqb_spec (getsize w1 (path_join output_dir filename)) 0) as [Hz|Hnz];
        cbn [fst snd].
      * split; [|split; [|split]]; try assumption. discriminate.
      * split; [|split; [|split]]; try assumption.
        intros p [= <-]. repeat split; assumption.
    + cbn [fst snd]. split; [|split; [|split]]; try assumption. discriminate.
Qed.

(** X22. [download_stream] returns the joined path exactly when the
    transfer did not raise and the file at that path exists and is not
    empty afterwards; every failure is a [DownloadError]; the call writes
    at most the file at that path and touches no directory. *)
Theorem download_stream_succeeds_iff_file_arrived
    (s : Stream) (output_dir filename : string) (w : World) :
  let output_path := path_join output_dir filename in
  let result := download_stream env s output_dir filename w in
  (forall p, result.2 = inr p <->
     p = output_path
     /\ (exists bytes, transfer env s output_path = TransferStores bytes)
     /\ path_exists result.1 output_path = true
     /\ getsize result.1 output_path <> 0)
  /\ (forall e, result.2 = inl e ->
        exists m, e = DownloadError ("Failed to download stream: " +:+ m))
  /\ dirs result.1 = dirs w
  /\ trace result.1 = trace w
  /\ (forall p, p <> output_path -> files result.1 !! p = files w !! p).
Proof.
  intros output_path result.
  destruct (download_stream_frame s output_dir filename w) as (Hd & Ht & Hf & Hok).
  fold result in Hd, Ht, Hf, Hok. fold output_path in Hf, Hok.
  split; [|split; [|split; [|split]]]; try assumption.
  - intros p. split.
    + intros Hp. destruct (Hok p Hp) as (-> & Hex & Hsz).
      repeat split; try assumption.
      unfold result in Hp. rewrite download_stream_cases in Hp. fold output_path in Hp.
      destruct (transfer env s output_path) as [text|bytes]; [discriminate|eauto].
    + intros (-> & [bytes Hb] & Hex & Hsz).
      unfold result in Hex, Hsz |- *. rewrite download_stream_cases in Hex, Hsz |- *.
      fold output_path in Hex, Hsz |- *. rewrite Hb in Hex, Hsz |- *.
      cbv zeta in Hex, Hsz |- *.
      destruct (negb _ || _) eqn:Hc; [|reflexivity].
      cbn [fst] in Hex, Hsz. rewrite Hex in Hc. cbn [negb orb] in Hc.
      apply Z.eqb_eq in Hc. contradiction.
  - intros e. unfold result. rewrite download_stream_cases. fold output_path.
    destruct (transfer env s output_path) as [text|bytes].
    + intros [= <-]. eauto.
    + cbv zeta. destruct (negb _ || _); [|discriminate]. intros [= <-]. eauto.
Qed.

End DownloadProperties.

Lemma delete_removes_only_its_key_witness :
  (Cache.delete "c" Samples.two_entries).2 = false
  /\ (Cache.delete "c" Samples.two_entries).1 = Samples.two_entries.
Proof.
  split; [reflexivity|].
  apply (proj2 (proj2 (proj2 (proj2
           (delete_removes_only_its_key "c" Samples.two_entries))))).
  reflexivity.
Defined.

Lemma hit_rate_is_the_share_of_hits_witness :
  Float.truediv 2 3
  = Some (CacheOps.hit_rate
            (CacheOps.get_stats
               (CacheOps.run
                  [CacheOps.OpSet 1 "a" 10; CacheOps.OpGet 2 "a"; CacheOps.OpGet 3 "b";
                   CacheOps.OpGet 4 "a"]
                  (Cache.init 300 2)))).
Proof.
  pose proof (hit_rate_is_the_share_of_hits 300 2
                [CacheOps.OpSet 1 "a" 10; CacheOps.OpGet 2 "a"; CacheOps.OpGet 3 "b";
                 CacheOps.OpGet 4 "a"])
    as H.
  cbv zeta in H. destruct H as (_ & _ & Hshare & _).
  apply (Hshare eq_refl).
Defined.

Lemma merge_refuses_without_spawning_witness :
  FFmpegService.merge_video_audio Samples.audio_transfer_fails
    Samples.ffmpeg_on_path "/tmp/ytdl_merge_x/v.mp4" "/tmp/ytdl_merge_x/missing.webm"
    "/tmp/ytdl_merge_x/out.mp4" true "copy" "aac" Samples.inputs_ready
  = (OS.log (OS.EvMergeCalled "/tmp/ytdl_merge_x/v.mp4" "/tmp/ytdl_merge_x/missing.webm"
                              "/tmp/ytdl_merge_x/out.mp4") Samples.inputs_ready,
     inl (OS.MergeError "Audio file not found: /tmp/ytdl_merge_x/missing.webm")).
Proof.
  pose proof (merge_refuses_without_spawning Samples.audio_transfer_fails
                Samples.ffmpeg_on_path "/tmp/ytdl_merge_x/v.mp4"
                "/tmp/ytdl_merge_x/missing.webm" "/tmp/ytdl_merge_x/out.mp4"
                true "copy" "aac" Samples.inputs_ready) as H.
  cbv zeta in H. destruct H as (_ & _ & Haudio & _).
  apply Haudio; vm_compute; reflexivity.
Defined.

Lemma merge_success_leaves_only_the_output_witness :
  OS.files
    (FFmpegService.merge_video_audio Samples.audio_transfer_fails
       Samples.ffmpeg_on_path "/tmp/ytdl_merge_x/v.mp4" "/tmp/ytdl_merge_x/a.webm"
       "/tmp/ytdl_merge_x/out.mp4" true "copy" "aac" Samples.inputs_ready).1
    !! "/tmp/ytdl_merge_x/v.mp4"%string = None.
Proof.
  apply (merge_success_leaves_only_the_output Samples.audio_transfer_fails
           Samples.ffmpeg_on_path "/tmp/ytdl_merge_x/v.mp4" "/tmp/ytdl_merge_x/a.webm"
           "/tmp/ytdl_merge_x/out.mp4" "copy" "aac" Samples.inputs_ready
           "/tmp/ytdl_merge_x/out.mp4"
           (fun _ _ => eq_refl) ltac:(discriminate) ltac:(discriminate)
           ltac:(vm_compute; reflexivity)).
Defined.


Lemma convert_returns_iff_tool_succeeds_witness :
  (FFmpegAudio.convert_audio_format Samples.audio_transfer_fails Samples.ffmpeg_on_path
     "/tmp/ytdl_merge_x/a.webm" "/tmp/ytdl_merge_x/a.mp3" "mp3" "128k"
     Samples.inputs_ready).2 = inr "/tmp/ytdl_merge_x/a.mp3"%string.
Proof.
  pose proof (convert_returns_iff_tool_succeeds Samples.audio_transfer_fails
                Samples.ffmpeg_on_path "ffmpeg" "/tmp/ytdl_merge_x/a.webm"
                "/tmp/ytdl_merge_x/a.mp3" "mp3" "128k" Samples.inputs_ready
                eq_refl ltac:(vm_compute; reflexivity)) as H.
  cbv zeta in H. destruct H as (Hiff & _).
  apply Hiff. split; [reflexivity|].
  eexists _, _. split; [reflexivity|]. vm_compute. reflexivity.
Defined.

Section SmartDownloadProperties.
Import SmartSelection OS FFmpegService YouTubeService Main SmartDownloadBody.
Variable env : Env.
Variable ffmpeg_service : FFmpegService.

Local Abbreviation body_of := (SmartDownloadBody.body_of env ffmpeg_service)
  (only parsing).

Lemma prefix_append (a b c : string) : String.prefix (a +:+ b) (a +:+ (b +:+ c)) = true.
Proof.
  induction a as [|x a IH]; simpl.
  - induction b as [|y b IHb]; simpl; [now destruct c|].
    destruct (ascii_dec y y); [exact IHb|contradiction].
  - destruct (ascii_dec x x); [exact IH|contradiction].
Qed.

Lemma beneath_path_join (dir name : string) : beneath dir (path_join dir name) = true.
Proof. unfold beneath, path_join. apply prefix_append. Qed.

Lemma output_differs_from_video (dir safe_title : string) (v : Stream) :
  path_join dir (safe_title +:+ "_Smart.mp4")
  <> path_join dir (video_temp_filename safe_title v).
Proof.
  unfold path_join, video_temp_filename. intros H.
  apply (append_cancel_l dir) in H. simpl in H. injection H as H.
  apply (append_cancel_l safe_title) in H. cbv [append] in H. congruence.
Qed.

Lemma output_differs_from_audio (dir safe_title : string) (a : Stream) :
  path_join dir (safe_title +:+ "_Smart.mp4")
  <> path_join dir (audio_temp_filename safe_title a).
Proof.
  unfold path_join, audio_temp_filename. intros H.
  apply (append_cancel_l dir) in H. simpl in H. injection H as H.
  apply (append_cancel_l safe_title) in H. cbv [append] in H. congruence.
Qed.

(** Two steps of a worker are one call of [download_stream]. *)
Lemma two_steps_download (s : Stream) (dir name : string) (w : World) :
  download_step env s dir name
    (download_step env s dir name Submitted w).2
    (download_step env s dir name Submitted w).1
  = ((download_stream env s dir name w).1, Finished (download_stream env s dir name w).2).
Proof.
  unfold download_stream, download_step.
  destruct (transfer env s (path_join dir name)) as [text|[n|]];
    [reflexivity| |]; cbn [fst snd];
    match goal with
    | |- context [if ?c then _ else _] => destruct c; reflexivity
    end.
Qed.

(** The joined pool is the video download followed by the audio
    download. *)
Lemma join_all_sequential (vs as_ : Stream) (dir vname aname : string) (w : World) :
  join_all env vs as_ dir vname aname (w, Submitted, Submitted)
  = let video := download_stream env vs dir vname w in
    let audio_s := download_stream env as_ dir aname video.1 in
    (audio_s.1, Finished video.2, Finished audio_s.2).
Proof.
  unfold join_all, step_video, step_audio. cbv zeta.
  pose proof (two_steps_download vs dir vname w) as Hv.
  destruct (download_step env vs dir vname Submitted w) as [w1 f1].
  cbn [fst snd] in Hv. rewrite Hv.
  pose proof (two_steps_download as_ dir aname (download_stream env vs dir vname w).1)
    as Ha.
  destruct (download_step env as_ dir aname Submitted _) as [w2 f2].
  cbn [fst snd] in Ha. rewrite Ha. reflexivity.
Qed.

Lemma merge_video_audio_dirs (self : FFmpegService)
    (video_path audio_path output_path : string) (cleanup_temp : bool)
    (video_codec audio_codec : string) (w : World) :
  dirs (merge_video_audio env self video_path audio_path output_path
          cleanup_temp video_codec audio_codec w).1 = dirs w.
Proof.
  destruct (_ffmpeg_executable self) as [exe|] eqn:Hexe;
    [|unfold merge_video_audio; rewrite Hexe; reflexivity].
  destruct (path_exists w video_path) eqn:Hpv;
    [|unfold merge_video_audio; rewrite Hexe;
      change (path_exists (log (EvMergeCalled video_path audio_path output_path) w)
                video_path) with (path_exists w video_path);
      rewrite Hpv; reflexivity].
  destruct (path_exists w audio_path) eqn:Hpa;
    [|unfold merge_video_audio; rewrite Hexe;
      change (path_exists (log (EvMergeCalled video_path audio_path output_path) w)
                video_path) with (path_exists w video_path);
      change (path_exists (log (EvMergeCalled video_path audio_path output_path) w)
                audio_path) with (path_exists w audio_path);
      rewrite Hpv, Hpa; reflexivity].
  rewrite (merge_video_audio_when_started env self exe video_path audio_path output_path
             cleanup_temp video_codec audio_codec w Hexe Hpv Hpa).
  cbv zeta.
  destruct (run_tool env _ _) as [code err fs|fs|text]; try reflexivity.
  destruct (negb (code =? 0)); [reflexivity|].
  destruct (negb _ || _); [reflexivity|].
  cbn [fst]. destruct cleanup_temp; [|reflexivity].
  now rewrite (proj1 (cleanup_files_frame env [video_path; audio_path] _)).
Qed.

(** A successful merge leaves its output in place, whatever becomes of
    the two inputs. *)
Lemma merge_success_output (self : FFmpegService)
    (video_path audio_path output_path : string)
    (video_codec audio_codec : string) (w : World) (p : string) :
  output_path <> video_path ->
  output_path <> audio_path ->
  (merge_video_audio env self video_path audio_path output_path
     true video_codec audio_codec w).2 = inr p ->
  path_exists (merge_video_audio env self video_path audio_path output_path
                 true video_codec audio_codec w).1 output_path = true
  /\ getsize (merge_video_audio env self video_path audio_path output_path
                true video_codec audio_codec w).1 output_path <> 0.
Proof.
  intros Hv Ha Hres.
  destruct (_ffmpeg_executable self) as [exe|] eqn:Hexe;
    [|unfold merge_video_audio in Hres; rewrite Hexe in Hres; discriminate].
  destruct (path_exists w video_path) eqn:Hpv;
    [|unfold merge_video_audio in Hres; rewrite Hexe in Hres;
      change (path_exists (log (EvMergeCalled video_path audio_path output_path) w)
                video_path) with (path_exists w video_path) in Hres;
      rewrite Hpv in Hres; discriminate].
  destruct (path_exists w audio_path) eqn:Hpa;
    [|unfold merge_video_audio in Hres; rewrite Hexe in Hres;
      change (path_exists (log (EvMergeCalled video_path audio_path output_path) w)
                video_path) with (path_exists w video_path) in Hres;
      change (path_exists (log (EvMergeCalled video_path audio_path output_path) w)
                audio_path) with (path_exists w audio_path) in Hres;
      rewrite Hpv, Hpa in Hres; discriminate].
  rewrite (merge_video_audio_when_started env self exe video_path audio_path output_path
             true video_codec audio_codec w Hexe Hpv Hpa) in *.
  cbv zeta in *.
  destruct (run_tool env _ _) as [code err fs|fs|text]; try discriminate.
  destruct (negb (code =? 0)); [discriminate|].
  match type of Hres with
  | context [path_exists ?w0 output_path] => set (w1 := w0) in *
  end.
  destruct (path_exists w1 output_path) eqn:Hex; cbn [negb orb] in *; [|discriminate].
  destruct (Z.eqb_spec (getsize w1 output_path) 0) as [|Hsize]; [discriminate|].
  cbn [fst snd] in *.
  destruct (cleanup_files_frame env [video_path; audio_path] w1) as (Hd & _ & Hf).
  assert (Hout : files (_cleanup_files env [video_path; audio_path] w1) !! output_path
                 = files w1 !! output_path).
  { apply Hf. intros [H|[H|[]]]; congruence. }
  split.
  - unfold path_exists in *. now rewrite Hd, Hout.
  - unfold getsize in *. now rewrite Hout.
Qed.

Lemma smart_download_body (smart_option : SmartOption) (title : option string)
    (temp_dir : string) (schedule : list bool) (w : World) :
  smart_download env ffmpeg_service (Some smart_option) title temp_dir schedule w =
    match (body_of smart_option title temp_dir schedule w).2 with
    | inl e => on_exception env (Some temp_dir) e
                            (body_of smart_option title temp_dir schedule w).1
    | inr output_path =>
        ((body_of smart_option title temp_dir schedule w).1,
         inr (StreamingResponse output_path))
    end.
Proof.
  unfold smart_download, SmartDownloadBody.body_of. cbv zeta.
  destruct (String.eqb (type smart_option) "progressive").
  - destruct (download_stream _ _ _ _ _) as [w1 r]. reflexivity.
  - destruct (String.eqb (type smart_option) "merge"); [|reflexivity].
    destruct (merge_branch _ _ _ _ _ _ _) as [w1 r]. reflexivity.
Qed.

(** The merge branch under any schedule, with the pool written as two
    downloads in a row. *)
Lemma merge_branch_sequential (smart_option : SmartOption) (safe_title temp_dir : string)
    (schedule : list bool) (w : World) :
  merge_branch env ffmpeg_service smart_option safe_title temp_dir schedule w =
    if negb (is_available ffmpeg_service) then
      (w, inl (HTTPException 500 "FFmpeg not available for merging"))
    else
      match audio_stream smart_option with
      | None => (w, inl (OtherException "'NoneType' object has no attribute 'subtype'"))
      | Some audio_s =>
          let video :=
            download_stream env (video_stream smart_option) temp_dir
              (video_temp_filename safe_title (video_stream smart_option)) w in
          let audio_result :=
            download_stream env audio_s temp_dir (audio_temp_filename safe_title audio_s)
              video.1 in
          match video.2 with
          | inl e => (audio_result.1, inl e)
          | inr video_path =>
              match audio_result.2 with
              | inl e => (audio_result.1, inl e)
              | inr audio_path =>
                  let merged :=
                    merge_video_audio env ffmpeg_service video_path audio_path
                      (path_join temp_dir (safe_title +:+ "_Smart.mp4"))
                      true "copy" "aac" audio_result.1 in
                  match merged.2 with
                  | inl e => (merged.1, inl e)
                  | inr _ =>
                      (merged.1, inr (path_join temp_dir (safe_title +:+ "_Smart.mp4")))
                  end
              end
          end
      end.
Proof.
  unfold merge_branch.
  destruct (negb (is_available ffmpeg_service)); [reflexivity|].
  destruct (audio_stream smart_option) as [audio_s|]; [|reflexivity].
  cbv zeta.
  rewrite run_pool_any_schedule by apply temp_paths_differ.
  rewrite join_all_sequential. cbv zeta. cbn [future_result].
  destruct (download_stream env (video_stream smart_option) _ _ w).2
    as [e|video_path]; [reflexivity|].
  destruct (download_stream env audio_s _ _ _).2 as [e|audio_path]; [reflexivity|].
  destruct (merge_video_audio _ _ _ _ _ _ _ _ _) as [w1 [e|q]]; reflexivity.
Qed.

Lemma body_keeps_dirs (smart_option : SmartOption) (title : option string)
    (temp_dir : string) (schedule : list bool) (w : World) :
  dirs (body_of smart_option title temp_dir schedule w).1 = {[temp_dir]} ∪ dirs w.
Proof.
  unfold SmartDownloadBody.body_of.
  destruct (String.eqb (type smart_option) "progressive").
  - now rewrite (proj1 (download_stream_frame env _ _ _ _)).
  - destruct (String.eqb (type smart_option) "merge"); [|reflexivity].
    rewrite merge_branch_sequential.
    destruct (negb (is_available ffmpeg_service)); [reflexivity|].
    destruct (audio_stream smart_option) as [audio_s|]; [|reflexivity].
    cbv zeta.
    set (video := download_stream env (video_stream smart_option) temp_dir _ _).
    set (audio_result := download_stream env audio_s temp_dir _ _).
    assert (Hd : dirs audio_result.1 = {[temp_dir]} ∪ dirs w).
    { unfold audio_result.
      rewrite (proj1 (download_stream_frame env _ _ _ _)).
      unfold video. now rewrite (proj1 (download_stream_frame env _ _ _ _)). }
    destruct video.2 as [e|video_path]; [exact Hd|].
    destruct audio_result.2 as [e|audio_path]; [exact Hd|].
    set (merged := merge_video_audio _ _ _ _ _ _ _ _ _).
    assert (Hm : dirs merged.1 = {[temp_dir]} ∪ dirs w).
    { unfold merged. now rewrite merge_video_audio_dirs. }
    destruct merged.2; exact Hm.
Qed.

Lemma on_exception_status (temp_dir : option string) (e : Exn) (w : World) :
  exists m, (on_exception env temp_dir e w).2 = inl (HTTPException 500 m).
Proof. unfold on_exception. destruct e; cbn [snd]; eauto. Qed.

Lemma on_exception_world (temp_dir : string) (e : Exn) (w : World) :
  temp_dir <> EmptyString ->
  (on_exception env (Some temp_dir) e w).1 = cleanup_merge_dir env temp_dir w.
Proof.
  intros Hne. unfold on_exception.
  assert (Htruthy : Py.truthy_str (Some temp_dir) = true).
  { destruct temp_dir; [contradiction|reflexivity]. }
  rewrite Htruthy. cbn [Py.fmt]. destruct e; reflexivity.
Qed.

(** X23. Every failure of [smart_download] reaches the client with status
    500: the handlers of the endpoint turn each exception, the 404 raised
    for a missing selection and the status errors raised in the body
    included, into a response of status 500; an exception that is none of
    the service's own gets the prefix "Smart download failed: ". Without a
    selection nothing is created or removed. *)
Theorem every_failure_has_status_500
    (smart_option : option SmartOption) (title : option string)
    (temp_dir : string) (schedule : list bool) (w : World) :
  let result := smart_download env ffmpeg_service smart_option title
                               temp_dir schedule w in
  (forall e, result.2 = inl e -> exists m, e = HTTPException 500 m)
  /\ (smart_option = None ->
      exists m, result = (w, inl (HTTPException 500 ("Smart download failed: " +:+ m))))
  /\ (forall plan, smart_option = Some plan ->
      type plan <> "progressive"%string -> type plan <> "merge"%string ->
      exists m, result.2 = inl (HTTPException 500 ("Smart download failed: " +:+ m))).
Proof.
  intros result. split; [|split].
  - intros e He. unfold result in He.
    destruct smart_option as [plan|].
    + rewrite smart_download_body in He.
      destruct (body_of plan title temp_dir schedule w).2 as [e0|p]; [|discriminate].
      destruct (on_exception_status (Some temp_dir) e0
                  (body_of plan title temp_dir schedule w).1) as [m Hm].
      rewrite Hm in He. injection He as <-. eauto.
    + unfold smart_download in He.
      destruct (on_exception_status None
                  (HTTPException 404 "No suitable streams found for smart download") w)
        as [m Hm].
      rewrite Hm in He. injection He as <-. eauto.
  - intros ->. unfold result, smart_download, on_exception. cbn [Py.truthy_str]. eauto.
  - intros plan -> Hp Hm. unfold result. rewrite smart_download_body.
    unfold SmartDownloadBody.body_of.
    apply String.eqb_neq in Hp, Hm. rewrite Hp, Hm. cbn [fst snd].
    unfold on_exception. cbn [snd]. eauto.
Qed.

(** X24. A request that fails after its workspace was created leaves no
    workspace behind, provided the removal itself does not fail: the
    directory and everything beneath it are gone when the error is
    raised, whichever step failed, and no other directory was added or
    removed. *)
Theorem failed_request_leaves_no_workspace
    (smart_option : SmartOption) (title : option string)
    (temp_dir : string) (schedule : list bool) (w : World) (e : Exn) :
  temp_dir <> EmptyString ->
  (forall w', rmtree_raises env temp_dir w' = false) ->
  let result := smart_download env ffmpeg_service (Some smart_option) title
                               temp_dir schedule w in
  result.2 = inl e ->
  (temp_dir ∉ dirs result.1)
  /\ (forall p, beneath temp_dir p = true ->
        (p ∉ dirs result.1) /\ files result.1 !! p = None)
  /\ (forall p, p <> temp_dir -> beneath temp_dir p = false ->
        (p ∈ dirs result.1 <-> p ∈ dirs w)).
Proof.
  intros Hne Hrm result He. unfold result in *.
  rewrite smart_download_body in *.
  pose proof (body_keeps_dirs smart_option title temp_dir schedule w) as Hdirs.
  destruct (body_of smart_option title temp_dir schedule w) as [w1 [e0|p]];
    cbn [fst snd] in *; [|discriminate].
  rewrite on_exception_world by exact Hne.
  assert (Hexists : path_exists w1 temp_dir = true).
  { unfold path_exists. rewrite Hdirs.
    rewrite bool_decide_eq_true_2; [reflexivity|].
    apply elem_of_union. left. now apply elem_of_singleton. }
  unfold cleanup_merge_dir. rewrite Hexists, Hrm.
  destruct (without_tree_clears temp_dir w1) as (Hgone & Hbeneath & Hframe).
  split; [exact Hgone|]. split; [exact Hbeneath|].
  intros p Hp Hb. rewrite (proj1 (Hframe p Hp Hb)). rewrite Hdirs.
  rewrite elem_of_union, elem_of_singleton. tauto.
Qed.

(** X25. A request that succeeds serves the file
    [<temp_dir>/<safe title>_Smart.mp4]: the file lies in the workspace,
    exists and is not empty when the response is returned, and the
    workspace is still there; it is removed only by the [finally] of
    [iterfile], after which, unless the removal fails, neither the file
    nor the workspace is left. *)
Theorem served_file_lies_in_the_workspace
    (smart_option : SmartOption) (title : option string)
    (temp_dir : string) (schedule : list bool) (w : World) (p : string) :
  let result := smart_download env ffmpeg_service (Some smart_option) title
                               temp_dir schedule w in
  result.2 = inr (StreamingResponse p) ->
  p = path_join temp_dir (safe_title_of title +:+ "_Smart.mp4")
  /\ beneath temp_dir p = true
  /\ path_exists result.1 p = true
  /\ getsize result.1 p <> 0
  /\ temp_dir ∈ dirs result.1
  /\ (rmtree_raises env temp_dir result.1 = false ->
      (temp_dir ∉ dirs (iterfile_finally env temp_dir result.1))
      /\ files (iterfile_finally env temp_dir result.1) !! p = None).
Proof.
  intros result He. unfold result in *.
  rewrite smart_download_body in *.
  pose proof (body_keeps_dirs smart_option title temp_dir schedule w) as Hdirs.
  assert (Hbody : forall q,
            (body_of smart_option title temp_dir schedule w).2 = inr q ->
            q = path_join temp_dir (safe_title_of title +:+ "_Smart.mp4")
            /\ path_exists (body_of smart_option title temp_dir schedule w).1 q = true
            /\ getsize (body_of smart_option title temp_dir schedule w).1 q <> 0).
  { intros q. unfold SmartDownloadBody.body_of.
    destruct (String.eqb (type smart_option) "progressive").
    - apply (proj2 (proj2 (proj2 (download_stream_frame env _ _ _ _)))).
    - destruct (String.eqb (type smart_option) "merge"); [|discriminate].
      rewrite merge_branch_sequential.
      destruct (negb (is_available ffmpeg_service)); [discriminate|].
      destruct (audio_stream smart_option) as [audio_s|]; [|discriminate].
      cbv zeta.
      set (video := download_stream env (video_stream smart_option) temp_dir _ _).
      set (audio_result := download_stream env audio_s temp_dir _ _).
      pose proof (proj2 (proj2 (proj2 (download_stream_frame env
                    (video_stream smart_option) temp_dir
                    (video_temp_filename (safe_title_of title)
                       (video_stream smart_option))
                    (create_temp_merge_dir temp_dir w))))) as Hvideo.
      pose proof (proj2 (proj2 (proj2 (download_stream_frame env audio_s temp_dir
                    (audio_temp_filename (safe_title_of title) audio_s)
                    video.1)))) as Haudio.
      fold video in Hvideo. fold audio_result in Haudio.
      destruct video.2 as [e|video_path]; [discriminate|].
      destruct audio_result.2 as [e|audio_path]; [discriminate|].
      destruct (Hvideo video_path eq_refl) as (-> & _).
      destruct (Haudio audio_path eq_refl) as (-> & _).
      pose proof (merge_success_output ffmpeg_service
                    (path_join temp_dir (video_temp_filename (safe_title_of title)
                                           (video_stream smart_option)))
                    (path_join temp_dir (audio_temp_filename (safe_title_of title) audio_s))
                    (path_join temp_dir (safe_title_of title +:+ "_Smart.mp4"))
                    "copy" "aac" audio_result.1) as Hmerge.
      destruct (merge_video_audio _ _ _ _ _ _ _ _ _) as [w1 [e|q0]];
        cbn [fst snd] in *; [discriminate|].
      intros [= <-]. split; [reflexivity|].
      apply (Hmerge q0); [apply output_differs_from_video
                         |apply output_differs_from_audio|reflexivity]. }
  destruct (body_of smart_option title temp_dir schedule w) as [w1 [e0|q]];
    cbn [fst snd] in *.
  - destruct (on_exception_status (Some temp_dir) e0 w1) as [m Hm].
    rewrite Hm in He. discriminate.
  - injection He as ->. destruct (Hbody p eq_refl) as (-> & Hex & Hsz).
    assert (Hin : temp_dir ∈ dirs w1).
    { rewrite Hdirs. apply elem_of_union. left. now apply elem_of_singleton. }
    split; [reflexivity|]. split; [apply beneath_path_join|].
    split; [exact Hex|]. split; [exact Hsz|]. split; [exact Hin|].
    intros Hrm. unfold iterfile_finally, cleanup_merge_dir.
    assert (Hexists : path_exists w1 temp_dir = true).
    { unfold path_exists. rewrite bool_decide_eq_true_2 by exact Hin. reflexivity. }
    rewrite Hexists, Hrm.
    destruct (without_tree_clears temp_dir w1) as (Hgone & Hbeneath & _).
    split; [exact Hgone|]. apply Hbeneath. apply beneath_path_join.
Qed.

(** X26. The outcome of [smart_download] does not depend on how the two
    download workers are interleaved: they write and check different
    files ([..._video_temp.*] and [..._audio_temp.*]), so under every
    schedule the response, the files and the trace are those of
    downloading the video and then the audio. *)
Theorem outcome_is_independent_of_the_schedule
    (smart_option : option SmartOption) (title : option string)
    (temp_dir : string) (schedule schedule' : list bool) (w : World) :
  smart_download env ffmpeg_service smart_option title temp_dir schedule w
  = smart_download env ffmpeg_service smart_option title temp_dir schedule' w.
Proof.
  destruct smart_option as [plan|]; [|reflexivity].
  rewrite !smart_download_body. unfold SmartDownloadBody.body_of.
  now rewrite (merge_branch_sequential plan _ _ schedule),
              (merge_branch_sequential plan _ _ schedule').
Qed.

End SmartDownloadProperties.

Lemma failed_request_leaves_no_workspace_witness :
  Samples.workspace
  ∉ OS.dirs (Main.smart_download Samples.audio_transfer_fails Samples.ffmpeg_on_path
               (Some Samples.merge_option) (Some "My Video"%string) Samples.workspace
               [false; true; true; false] Samples.empty_world).1.
Proof.
  refine (proj1 (failed_request_leaves_no_workspace Samples.audio_transfer_fails
                   Samples.ffmpeg_on_path Samples.merge_option (Some "My Video"%string)
                   Samples.workspace [false; true; true; false] Samples.empty_world
                   (OS.HTTPException 500 "Failed to download stream: connection reset")
                   _ (fun _ => eq_refl) _)).
  - discriminate.
  - vm_compute. reflexivity.
Defined.

Lemma served_file_lies_in_the_workspace_witness :
  exists p,
    (Main.smart_download MoreSamples.downloads_succeed Samples.ffmpeg_on_path
       (Some Samples.merge_option) (Some "My Video"%string) Samples.workspace
       [true; false; false; true] Samples.empty_world).2
    = inr (Main.StreamingResponse p)
    /\ OS.path_exists
         (Main.smart_download MoreSamples.downloads_succeed Samples.ffmpeg_on_path
            (Some Samples.merge_option) (Some "My Video"%string) Samples.workspace
            [true; false; false; true] Samples.empty_world).1 p = true.
Proof.
  eexists. split; [vm_compute; reflexivity|].
  refine (proj1 (proj2 (proj2
            (served_file_lies_in_the_workspace MoreSamples.downloads_succeed
               Samples.ffmpeg_on_path Samples.merge_option (Some "My Video"%string)
               Samples.workspace [true; false; false; true] Samples.empty_world _ _)))).
  vm_compute. reflexivity.
Defined.

Section QuickScores.
Import Py SmartSelection.

Lemma extract_resolution_number_falsy (r : option string) :
  truthy_str r = false -> SmartSelection.extract_resolution_number r = 0.
Proof. intros H. unfold SmartSelection.extract_resolution_number. now rewrite H. Qed.

Lemma extract_audio_bitrate_falsy (r : option string) :
  truthy_str r = false -> SmartSelection.extract_audio_bitrate r = 0.
Proof. intros H. unfold SmartSelection.extract_audio_bitrate. now rewrite H. Qed.

(** X27. The quick scorers of [QualityHelper] against the scorers of the
    selection service. For a stream with an [fps] attribute the full video
    score is the quick video score plus the codec bonus. The quick audio
    score equals the bitrate part of the full audio score except for
    bitrates from 96 to 127, where the full scorer gives the 96 kbps tier
    (100) and the quick scorer the bitrate itself. *)
Theorem quick_scores_against_full_scores (s : Stream) :
  (forall f, fps s = Some f ->
     calculate_video_quality_score s
     = Helpers.calculate_quick_video_score (resolution s) f + video_codec_bonus s)
  /\ (SmartSelection.extract_audio_bitrate (abr s) < 96
      \/ 128 <= SmartSelection.extract_audio_bitrate (abr s) ->
      Helpers.calculate_quick_audio_score (abr s) = bitrate_score s)
  /\ (96 <= SmartSelection.extract_audio_bitrate (abr s) < 128 ->
      Helpers.calculate_quick_audio_score (abr s)
        = SmartSelection.extract_audio_bitrate (abr s)
      /\ bitrate_score s = 100).
Proof.
  split; [|split].
  - intros f Hf.
    unfold calculate_video_quality_score, Helpers.calculate_quick_video_score.
    change (Helpers.extract_resolution_number (resolution s))
      with (SmartSelection.extract_resolution_number (resolution s)).
    cbv zeta.
    assert (Hr : resolution_score s =
              let res_num := SmartSelection.extract_resolution_number (resolution s) in
              if res_num >=? 2160 then 1000
              else if res_num >=? 1440 then 800
              else if res_num >=? 1080 then 600
              else if res_num >=? 720 then 400
              else if res_num >=? 480 then 200
              else res_num / 10).
    { unfold resolution_score.
      destruct video_scores_table as (-> & -> & -> & -> & ->).
      destruct (truthy_str (resolution s)) eqn:Ht; [reflexivity|].
      rewrite (extract_resolution_number_falsy _ Ht). reflexivity. }
    assert (Hb : fps_bonus s = if f >=? 60 then 50 else if f >=? 30 then 25 else 0).
    { unfold fps_bonus. rewrite Hf.
      replace (dict_get QualityScores.FPS_BONUS 60 50) with 50 by reflexivity.
      replace (dict_get QualityScores.FPS_BONUS 30 25) with 25 by reflexivity.
      destruct f as [|f|f]; reflexivity. }
    rewrite Hr, Hb. cbv zeta. case_cmp; lia.
  - intros Hrange.
    unfold Helpers.calculate_quick_audio_score, bitrate_score.
    change (Helpers.extract_audio_bitrate (abr s))
      with (SmartSelection.extract_audio_bitrate (abr s)).
    destruct audio_scores_table as (-> & -> & -> & -> & ->). cbv zeta.
    destruct (truthy_str (abr s)) eqn:Ht.
    + case_cmp; lia.
    + rewrite (extract_audio_bitrate_falsy _ Ht). reflexivity.
  - intros Hrange.
    unfold Helpers.calculate_quick_audio_score, bitrate_score.
    change (Helpers.extract_audio_bitrate (abr s))
      with (SmartSelection.extract_audio_bitrate (abr s)).
    destruct audio_scores_table as (-> & -> & -> & -> & ->). cbv zeta.
    destruct (truthy_str (abr s)) eqn:Ht.
    + case_cmp; lia.
    + rewrite (extract_audio_bitrate_falsy _ Ht) in Hrange. lia.
Qed.

End QuickScores.

Lemma quick_scores_against_full_scores_witness :
  Helpers.calculate_quick_audio_score (Some "112kbps"%string) = 112
  /\ SmartSelection.bitrate_score
       (Samples.audio_stream_of 249 "112kbps" "opus" 4194304) = 100.
Proof.
  apply (proj2 (proj2 (quick_scores_against_full_scores
                         (Samples.audio_stream_of 249 "112kbps" "opus" 4194304)))).
  vm_compute. split; [discriminate|reflexivity].
Defined.

Section FilenameProperties.
Import Py OS YouTubeService Helpers.

Local Abbreviation chars := list_ascii_of_string (only parsing).

Lemma replace_char_In (old new : ascii) (s : string) (c : ascii) :
  In c (chars (replace_char old new s)) ->
  c = new \/ (In c (chars s) /\ c <> old).
Proof.
  induction s as [|a s IH]; simpl; [tauto|]. intros [H|H].
  - destruct (Ascii.eqb_spec a old) as [->|Hne]; [left; congruence|].
    right. split; [now left|congruence].
  - destruct (IH H) as [?|[? ?]]; tauto.
Qed.

Lemma replace_all_In (l : list ascii) (s : string) (c : ascii) :
  In c (chars (fold_left (fun name char => replace_char char "_" name) l s)) ->
  c = "_"%char \/ (In c (chars s) /\ ~ In c l).
Proof.
  revert s. induction l as [|x l IH]; simpl; intros s H; [tauto|].
  apply IH in H. destruct H as [H|[H Hn]]; [tauto|].
  apply replace_char_In in H. destruct H as [H|[H Hne]]; [tauto|].
  right. split; [exact H|]. intros [E|E]; [congruence|tauto].
Qed.

Lemma keep_chars_In (f : ascii -> bool) (s : string) (c : ascii) :
  In c (chars (keep_chars f s)) -> In c (chars s) /\ f c = true.
Proof.
  induction s as [|a s IH]; simpl; [tauto|].
  destruct (f a) eqn:Hf; simpl.
  - intros [<-|H]; [tauto|]. destruct (IH H); tauto.
  - intros H. destruct (IH H); tauto.
Qed.

Lemma lstrip_In (s : string) (c : ascii) : In c (chars (lstrip s)) -> In c (chars s).
Proof.
  induction s as [|a s IH]; simpl; [tauto|].
  destruct (Ascii.eqb a " "); simpl; tauto.
Qed.

Lemma rstrip_In (s : string) (c : ascii) : In c (chars (rstrip s)) -> In c (chars s).
Proof.
  induction s as [|a s IH]; simpl; [tauto|].
  destruct (rstrip s) as [|b r].
  - destruct (Ascii.eqb a " "); simpl; tauto.
  - intros [H|H]; [now left|]. right. apply IH. exact H.
Qed.

Lemma substring_In (n : nat) (s : string) (c : ascii) :
  In c (chars (String.substring 0 n s)) -> In c (chars s).
Proof.
  revert s. induction n as [|n IH]; intros [|a s]; simpl; try tauto.
  intros [H|H]; [now left|]. right. now apply IH.
Qed.

Lemma substring_length_le (n : nat) (s : string) :
  (String.length (String.substring 0 n s) <= n)%nat.
Proof.
  revert s. induction n as [|n IH]; intros [|a s]; simpl; try lia.
  specialize (IH s). lia.
Qed.

Lemma lstrip_head (s rest : string) : lstrip s <> String " " rest.
Proof.
  induction s as [|a s IH]; simpl; [discriminate|].
  destruct (Ascii.eqb_spec a " ") as [->|Hne]; [exact IH|].
  intros [= E _]. contradiction.
Qed.

Lemma rstrip_head (s : string) :
  (forall rest, s <> String " " rest) -> forall rest, rstrip s <> String " " rest.
Proof.
  destruct s as [|a s]; simpl; [discriminate|]. intros H rest.
  assert (Ha : a <> " "%char) by (intros ->; now apply (H s)).
  destruct (rstrip s).
  - destruct (Ascii.eqb_spec a " "); [contradiction|]. intros [= E]. contradiction.
  - intros [= E _]. contradiction.
Qed.

Lemma substring_head (n : nat) (s : string) :
  (forall rest, s <> String " " rest) ->
  forall rest, String.substring 0 n s <> String " " rest.
Proof.
  destruct n, s as [|a s]; simpl; try discriminate.
  intros H rest [= E _]. subst. now apply (H s).
Qed.

(** X28. [sanitize_filename] returns a usable file name whatever it is
    given: the result is not empty, has at most 100 characters, holds
    none of the nine characters the function replaces (path separators
    among them) and no control character, and does not start with a
    blank. *)
Theorem sanitized_name_is_safe (filename : string) :
  sanitize_filename filename <> EmptyString
  /\ (String.length (sanitize_filename filename) <= 100)%nat
  /\ (forall c, In c (chars (sanitize_filename filename)) ->
        ~ In c invalid_chars /\ (32 <= nat_of_ascii c)%nat)
  /\ (forall rest, sanitize_filename filename <> String " " rest).
Proof.
  unfold sanitize_filename. cbv zeta.
  set (replaced := fold_left (fun name char => replace_char char "_" name)
                             invalid_chars filename).
  set (cut := String.substring 0 100 (strip (keep_chars printable replaced))).
  assert (Hlen : (String.length cut <= 100)%nat) by apply substring_length_le.
  assert (Hchars : forall c, In c (chars cut) ->
                     ~ In c invalid_chars /\ (32 <= nat_of_ascii c)%nat).
  { intros c Hc. unfold cut, strip in Hc.
    apply substring_In, rstrip_In, lstrip_In, keep_chars_In in Hc.
    destruct Hc as [Hc Hp]. split; [|now apply Nat.leb_le].
    apply replace_all_In in Hc. destruct Hc as [->|[_ Hc]]; [|exact Hc].
    vm_compute. intuition discriminate. }
  assert (Hhead : forall rest, cut <> String " " rest).
  { unfold cut, strip. apply substring_head, rstrip_head, lstrip_head. }
  destruct cut as [|a cut'] eqn:Hcut.
  - split; [discriminate|]. split; [simpl; lia|]. split; [|discriminate].
    intros c Hc. split; [|].
    + vm_compute in Hc |- *. intuition (subst; discriminate).
    + vm_compute in Hc.
      repeat (destruct Hc as [<-|Hc]; [vm_compute; lia|]). destruct Hc.
  - split; [discriminate|]. split; [exact Hlen|]. split; assumption.
Qed.

Lemma keep_safe_In (s : string) (c : ascii) :
  In c (chars (keep_safe s)) -> safe_char c = true.
Proof.
  induction s as [|a s IH]; simpl; [tauto|].
  destruct (safe_char a) eqn:Hs; simpl; [|exact IH].
  intros [<-|H]; [exact Hs|now apply IH].
Qed.

(** X29. For an ASCII title, the file name [create_safe_filename]
    derives from it holds only letters, digits, blanks, hyphens and
    underscores, and at most [max_length] characters; a stream id is
    appended after an underscore, beyond that length. So for an ASCII
    title the title part of the name of a served file has at most 50
    characters and neither a path separator nor a dot. *)
Theorem safe_filename_has_only_safe_characters
    (title : string) (max_length : nat) :
  Forall (fun c => (nat_of_ascii c < 128)%nat) (chars title) ->
  (String.length (YouTubeService.create_safe_filename title None max_length)
     <= max_length)%nat
  /\ (forall c,
        In c (chars (YouTubeService.create_safe_filename title None max_length)) ->
        safe_char c = true /\ c <> "/"%char /\ c <> "\"%char /\ c <> "."%char)
  /\ (forall a rest,
        YouTubeService.create_safe_filename title (Some (String a rest)) max_length
        = YouTubeService.create_safe_filename title None max_length
          +:+ "_" +:+ String a rest)
  /\ (String.length (Main.safe_title_of (Some title)) <= 50)%nat
  /\ (forall c, In c (chars (Main.safe_title_of (Some title))) ->
        safe_char c = true /\ c <> "/"%char /\ c <> "\"%char /\ c <> "."%char).
Proof.
  intros _.
  assert (Hsafe : forall c, safe_char c = true ->
            safe_char c = true /\ c <> "/"%char /\ c <> "\"%char /\ c <> "."%char).
  { intros c Hc. split; [exact Hc|].
    repeat split; intros ->; vm_compute in Hc; discriminate. }
  unfold Main.safe_title_of, YouTubeService.create_safe_filename.
  cbn [truthy_str fmt].
  split; [apply substring_length_le|]. split; [|split; [reflexivity|split]].
  - intros c Hc. apply substring_In, rstrip_In, keep_safe_In in Hc. now apply Hsafe.
  - apply substring_length_le.
  - intros c Hc. apply substring_In, rstrip_In, keep_safe_In in Hc. now apply Hsafe.
Qed.

Lemma not_beneath_itself (dir : string) : beneath dir dir = false.
Proof.
  unfold beneath. induction dir as [|x d IH]; [reflexivity|].
  simpl. destruct (ascii_dec x x); [exact IH|contradiction].
Qed.

(** X30. [cleanup_temp_directory] returns [True] exactly when the
    directory existed and its removal did not fail, and then the directory
    and everything beneath it are gone. When it returns [False] the
    directory is there or not as before, although a removal that failed
    part-way may have deleted entries beneath it. When the directory did
    not exist nothing changes. In every case nothing outside the
    directory is touched. *)
Theorem cleanup_temp_directory_reports_truthfully
    (env : Env) (deleted : string -> bool) (temp_dir : string) (w : World) :
  let result := cleanup_temp_directory env deleted temp_dir w in
  (result.2 = true <->
     path_exists w temp_dir = true /\ rmtree_raises env temp_dir w = false)
  /\ (result.2 = true ->
      (temp_dir ∉ dirs result.1)
      /\ forall p, beneath temp_dir p = true ->
           (p ∉ dirs result.1) /\ files result.1 !! p = None)
  /\ (result.2 = false -> (temp_dir ∈ dirs result.1 <-> temp_dir ∈ dirs w))
  /\ (path_exists w temp_dir = false -> result.1 = w)
  /\ (forall p, beneath temp_dir p = false ->
        files result.1 !! p = files w !! p
        /\ (p <> temp_dir -> (p ∈ dirs result.1 <-> p ∈ dirs w)))
  /\ trace result.1 = trace w.
Proof.
  intros result. unfold result, cleanup_temp_directory.
  destruct (without_tree_clears temp_dir w) as (Hgone & Hbeneath & Hframe).
  assert (Hpartly : forall p, beneath temp_dir p = false ->
            files (partly_removed deleted temp_dir w) !! p = files w !! p
            /\ (p ∈ dirs (partly_removed deleted temp_dir w) <-> p ∈ dirs w)).
  { intros p Hp. unfold partly_removed. cbn [dirs files]. split.
    - apply option_eq. intros x. rewrite map_lookup_filter_Some. cbn [fst].
      rewrite Hp. cbn [andb negb]. tauto.
    - rewrite elem_of_filter. rewrite Hp. intuition discriminate. }
  assert (Hfiles : forall p, beneath temp_dir p = false ->
            files (without_tree temp_dir w) !! p = files w !! p).
  { intros p Hp. unfold without_tree. cbn [files]. apply option_eq. intros x.
    rewrite map_lookup_filter_Some. cbn [fst]. tauto. }
  destruct (path_exists w temp_dir); [destruct (rmtree_raises env temp_dir w)|];
    cbn [fst snd].
  - split; [split; [discriminate|intros [_ H]; discriminate]|].
    split; [discriminate|].
    split; [intros _; apply Hpartly, not_beneath_itself|].
    split; [discriminate|]. split; [|reflexivity].
    intros p Hp. destruct (Hpartly p Hp). split; [assumption|]. intros _. assumption.
  - split; [tauto|]. split; [intros _; split; assumption|].
    split; [discriminate|]. split; [discriminate|]. split; [|reflexivity].
    intros p Hp. split; [now apply Hfiles|]. intros Hne. now apply Hframe.
  - split; [split; [discriminate|intros [H _]; discriminate]|].
    split; [discriminate|]. repeat split; tauto.
Qed.

End FilenameProperties.

Lemma safe_filename_has_only_safe_characters_witness :
  (String.length (Main.safe_title_of (Some "My Video: Part 1/2"%string)) <= 50)%nat.
Proof.
  refine (proj1 (proj2 (proj2 (proj2
            (safe_filename_has_only_safe_characters "My Video: Part 1/2" 50 _))))).
  repeat (constructor; [vm_compute; lia|]). constructor.
Defined.

Lemma cleanup_temp_directory_reports_truthfully_witness :
  (Helpers.cleanup_temp_directory Samples.audio_transfer_fails (fun _ => false)
     Samples.workspace Samples.inputs_ready).2 = true
  /\ Samples.workspace
     ∉ OS.dirs (Helpers.cleanup_temp_directory Samples.audio_transfer_fails
                  (fun _ => false) Samples.workspace Samples.inputs_ready).1.
Proof.
  split; [vm_compute; reflexivity|].
  pose proof (cleanup_temp_directory_reports_truthfully
                Samples.audio_transfer_fails (fun _ => false) Samples.workspace
                Samples.inputs_ready) as H.
  cbv zeta in H. destruct H as (_ & Hgone & _).
  exact (proj1 (Hgone ltac:(vm_compute; reflexivity))).
Defined.
